(** * The GCP janitor ([cmd/janitor/gcp_janitor.py]): candidate filter,
    batch deleter, cluster sweep, subnet cleaner and driver.

    The Python program is embedded function by function.  Listed items are
    JSON objects (Python dicts keyed by strings), exceptions are an explicit
    result type, and everything that reaches outside the process (the gcloud
    command line, the clock, [os.environ], stderr) goes through a small
    state-and-exception monad over a recorded trace. *)

From Stdlib Require Import QArith.QArith_base.
From Stdlib Require Import Ascii.
From stdpp Require Import gmap strings list pretty.

Local Open Scope Z_scope.

(** ** Python values and exceptions *)

(** The values [json.loads] produces for the fields of a listed item.  The
    listings project scalar attributes only ([name], [creationTimestamp],
    [createTime], [zone], [region], [isManaged]), so arrays and objects do
    not occur as field values; numbers are integers. *)
Inductive json : Type :=
  | JNull
  | JBool (b : bool)
  | JNum (z : Z)
  | JStr (s : string).

(** The exception classes the program can meet. *)
Inductive exn : Type :=
  | CalledProcessError
  | ValueError
  | KeyError
  | IndexError
  | TypeError
  | AttributeError
  | SystemExit (code : Z).

Inductive result (A : Type) : Type :=
  | Ok (a : A)
  | Raise (e : exn).
Arguments Ok {A} a.
Arguments Raise {A} e.

#[global] Instance result_ret : MRet result := λ A a, Ok a.
#[global] Instance result_bind : MBind result := λ A B f r,
  match r with
  | Ok a => f a
  | Raise e => Raise e
  end.

(** [d[k]] on a dict. *)
Definition dict_getitem (d : gmap string json) (k : string) : result json :=
  match d !! k with
  | Some v => Ok v
  | None => Raise KeyError
  end.

(** [k in d] on a dict. *)
Definition dict_contains (d : gmap string json) (k : string) : bool :=
  match d !! k with
  | Some _ => true
  | None => false
  end.

(** [d.get(k, default)]. *)
Definition dict_get (d : gmap string json) (k : string) (default : json) : json :=
  match d !! k with
  | Some v => v
  | None => default
  end.

(** [s == v] for a Python [str] [s] and a JSON value [v]. *)
Definition json_eq_str (v : json) (s : string) : bool :=
  match v with
  | JStr t => String.eqb t s
  | _ => false
  end.

(** [v in names] for a list of [str]. *)
Definition json_in_strs (v : json) (names : list string) : bool :=
  existsb (json_eq_str v) names.

(** Truth value of a JSON value, of an optional string and of an optional
    list ([None], [''] and [[]] are false). *)
Definition json_truthy (v : json) : bool :=
  match v with
  | JNull => false
  | JBool b => b
  | JNum z => negb (z =? 0)
  | JStr s => negb (String.eqb s "")
  end.

(** [str(v)], as ['%s' % v] formats it. *)
Definition json_str (v : json) : string :=
  match v with
  | JNull => "None"
  | JBool true => "True"
  | JBool false => "False"
  | JNum z => pretty z
  | JStr s => s
  end.

Definition str_truthy (s : option string) : bool :=
  match s with
  | Some t => negb (String.eqb t "")
  | None => false
  end.

Definition list_truthy {A} (l : option (list A)) : bool :=
  match l with
  | Some (_ :: _) => true
  | _ => false
  end.

(** [s.split(sep)] for a one-character separator: never empty. *)
Fixpoint py_split (sep : Ascii.ascii) (s : string) : list string :=
  match s with
  | EmptyString => [EmptyString]
  | String a rest =>
      let parts := py_split sep rest in
      if Ascii.eqb a sep then EmptyString :: parts
      else match parts with
           | p :: ps => String a p :: ps
           | [] => [String a EmptyString]
           end
  end.

(** [s.split(sep)[-1]], which is also [s.rsplit(sep, 1)[-1]]. *)
Definition split_last (sep : Ascii.ascii) (s : string) : string :=
  List.last (py_split sep s) EmptyString.

(** [s.split(sep)[0]]. *)
Definition split_head (sep : Ascii.ascii) (s : string) : string :=
  List.hd EmptyString (py_split sep s).

(** [v.split(sep)[i]] on a JSON value: only [str] has [split]. *)
Definition json_split_nth (v : json) (sep : Ascii.ascii) (i : nat) : result string :=
  match v with
  | JStr s =>
      match py_split sep s !! i with
      | Some p => Ok p
      | None => Raise IndexError
      end
  | _ => Raise AttributeError
  end.

Definition json_split_last (v : json) (sep : Ascii.ascii) : result string :=
  match v with
  | JStr s => Ok (split_last sep s)
  | _ => Raise AttributeError
  end.

(** ** The library the program calls

    [datetime.datetime] values are points on the integer line (naive
    datetimes are totally ordered); [strptime s] is
    [datetime.datetime.strptime(s, '%Y-%m-%dT%H:%M:%S')], [None] when it
    raises [ValueError]; [utcnow] and [timedelta] are the clock and
    [datetime.timedelta(days=, hours=)]. *)
Class Datetime := {
  strptime : string → option Z;
  utcnow : Z;
  timedelta : Z → Q → Z
}.

(** [datetime.datetime.strptime(v, fmt)] on a JSON value. *)
Definition json_strptime `{Datetime} (v : json) : result Z :=
  match v with
  | JStr s =>
      match strptime s with
      | Some t => Ok t
      | None => Raise ValueError
      end
  | _ => Raise TypeError
  end.

(** ** Resource specifications *)

(** [Resource = collections.namedtuple('Resource', ...)]. *)
Record Resource : Type := {
  api_version : string;
  group : string;
  name : string;
  subgroup : option string;
  condition : option string;
  managed : option string;
  tolerate : bool;
  bulk_delete : bool;
  preserved_names : option (list string)
}.

(** ** CandidateFilter *)

(** [resource.preserved_names and item['name'] in resource.preserved_names] *)
Definition is_preserved (resource : Resource) (item : gmap string json) : result bool :=
  if list_truthy (preserved_names resource)
  then n ← dict_getitem item "name";
       mret (json_in_strs n (default [] (preserved_names resource)))
  else mret false.

(** The block under [if resource.managed:]: [ValueError] without the
    field, [true] where the block returns [False]. *)
Definition managed_mismatch (resource : Resource) (item : gmap string json) : result bool :=
  if str_truthy (managed resource)
  then if negb (dict_contains item "isManaged") then Raise ValueError
       else v ← dict_getitem item "isManaged";
            mret (negb (json_eq_str v (default "" (managed resource))))
  else mret false.

(** [item.get('creationTimestamp', item.get('createTime'))]; [JNull] is
    Python's [None]. *)
Definition creation_timestamp (item : gmap string json) : json :=
  dict_get item "creationTimestamp" (dict_get item "createTime" JNull).

(** [validate_item(item, age, resource, clear_all)].  The [log] calls print
    only; the first one still evaluates [item['name']]. *)
Definition validate_item `{Datetime} (item : gmap string json) (age : Z)
    (resource : Resource) (clear_all : bool) : result bool :=
  preserved ← is_preserved resource item;
  if preserved : bool then mret false else
  mismatch ← managed_mismatch resource item;
  if mismatch : bool then mret false else
  if clear_all then mret true else
  let creationTimestamp := creation_timestamp item in
  match creationTimestamp with
  | JNull => Raise ValueError
  | _ =>
      created ← json_strptime creationTimestamp;
      _ ← dict_getitem item "name";
      mret (bool_decide (created < age))
  end.

(** ** Ranges, slices and chunks *)

(** [range(start, stop, step)]: the loop [i = start; while i < stop: yield i;
    i += step] for a positive step, its mirror for a negative one; [fuel]
    bounds the number of elements. *)
Fixpoint range_up (fuel : nat) (i stop step : Z) : list Z :=
  match fuel with
  | O => []
  | S fuel' =>
      if bool_decide (i < stop) then i :: range_up fuel' (i + step) stop step
      else []
  end.

Fixpoint range_down (fuel : nat) (i stop step : Z) : list Z :=
  match fuel with
  | O => []
  | S fuel' =>
      if bool_decide (stop < i) then i :: range_down fuel' (i + step) stop step
      else []
  end.

(** [range] raises [ValueError] for a zero step. *)
Definition py_range (start stop step : Z) : result (list Z) :=
  if step =? 0 then Raise ValueError
  else if 0 <? step then Ok (range_up (Z.to_nat (stop - start)) start stop step)
  else Ok (range_down (Z.to_nat (start - stop)) start stop step).

(** A slice bound, clamped as Python does: negative bounds count from the
    end. *)
Definition slice_index (len i : Z) : Z :=
  if i <? 0 then Z.max (i + len) 0 else Z.min i len.

(** [l[lo:hi]]. *)
Definition py_slice {A} (l : list A) (lo hi : Z) : list A :=
  let len := Z.of_nat (length l) in
  let lo' := slice_index len lo in
  let hi' := slice_index len hi in
  take (Z.to_nat (hi' - lo')) (drop (Z.to_nat lo') l).

(** The values of [clean] in [clear_resources], in loop order:
    [[items[idx:idx + rate_limit] for idx in range(0, len(items), rate_limit)]]. *)
Definition chunks {A} (items : list A) (rate_limit : Z) : result (list (list A)) :=
  idxs ← py_range 0 (Z.of_nat (length items)) rate_limit;
  mret (map (λ idx, py_slice items idx (idx + rate_limit)) idxs).

(** [ceil(a / b)] for a positive [b]. *)
Definition ceil_div (a b : Z) : Z := (a + b - 1) `div` b.

(** [if not resource.bulk_delete: rate_limit = 1]. *)
Definition effective_rate_limit (resource : Resource) (rate_limit : Z) : Z :=
  if negb (bulk_delete resource) then 1 else rate_limit.

(** ** The outside world *)

(** What the run leaves behind, in order: assignments to [os.environ],
    gcloud invocations, lines on stderr, and the start of the driver's loop
    body for a resource of an API (its "Try to search for" log line). *)
Inductive event : Type :=
  | EvSetenv (k v : string)
  | EvRun (cmd : list string)
  | EvStderr (msg : string)
  | EvSearch (api : string) (res : Resource).

Record state : Type := {
  environ : gmap string string;
  trace : list event
}.

(** The gcloud command line, as [subprocess] sees it, under the current
    [os.environ].  A listing answers with a JSON array of objects, already
    parsed; [None] and [false] stand for a non-zero exit
    ([subprocess.CalledProcessError]). *)
Class Gcloud := {
  (** [json.loads(subprocess.check_output(cmd))] for a [list] command *)
  gcloud_list : gmap string string → list string → option (list (gmap string json));
  (** the same for [subnets describe --format=json(secondaryIpRanges)] *)
  gcloud_describe :
    gmap string string → list string → option (gmap string (list (gmap string json)));
  (** [subprocess.check_output(cmd).decode().strip()] for [services list] *)
  gcloud_services : gmap string string → list string → option string;
  (** [subprocess.check_call(cmd)], and [check_output] with the output
      dropped *)
  gcloud_call : gmap string string → list string → bool
}.

(** The command-line flags read through the global [ARGS]. *)
Class Args := {
  dryrun : bool;
  verbose : bool
}.

(** Computations: state passing with exceptions; a raised exception keeps
    the state reached. *)
Definition M (A : Type) : Type := state → state * result A.

Definition ret {A} (a : A) : M A := λ s, (s, Ok a).

Definition bind {A B} (m : M A) (f : A → M B) : M B := λ s,
  match m s with
  | (s', Ok a) => f a s'
  | (s', Raise e) => (s', Raise e)
  end.

Definition raise {A} (e : exn) : M A := λ s, (s, Raise e).

Definition lift {A} (r : result A) : M A := λ s, (s, r).

Declare Scope janitor_scope.
Delimit Scope janitor_scope with janitor.
Notation "x <- m ;; k" := (bind m (λ x, k))
  (at level 100, m at next level, right associativity) : janitor_scope.
Notation "m ;; k" := (bind m (λ _, k))
  (at level 100, right associativity) : janitor_scope.
Local Open Scope janitor_scope.

Definition emit (e : event) : M unit := λ s,
  ({| environ := environ s; trace := trace s ++ [e] |}, Ok ()).

(** [os.environ[k] = v] *)
Definition setenv (k v : string) : M unit := λ s,
  ({| environ := <[k := v]> (environ s); trace := trace s ++ [EvSetenv k v] |}, Ok ()).

(** [try: m  except <classes in catches>: h] *)
Definition try_except {A} (m : M A) (catches : exn → bool) (h : exn → M A) : M A := λ s,
  match m s with
  | (s', Raise e) => if catches e then h e s' else (s', Raise e)
  | r => r
  end.

(** A [for] loop threading the variables it updates; [continue] is the body
    returning them early, an exception leaves the loop. *)
Fixpoint for_each {A S} (l : list A) (body : S → A → M S) (acc : S) : M S :=
  match l with
  | [] => ret acc
  | x :: l' => acc' <- body acc x ;; for_each l' body acc'
  end.

(** [subprocess] refuses an argument that is not a [str]. *)
Definition cmd_args (cmd : list json) : result (list string) :=
  mapM (λ v, match v with JStr s => Ok s | _ => Raise TypeError end) cmd.

Definition check_output_list `{Gcloud} (cmd : list string)
    : M (option (list (gmap string json))) := λ s,
  ({| environ := environ s; trace := trace s ++ [EvRun cmd] |},
   Ok (gcloud_list (environ s) cmd)).

Definition check_output_describe `{Gcloud} (cmd : list string)
    : M (option (gmap string (list (gmap string json)))) := λ s,
  ({| environ := environ s; trace := trace s ++ [EvRun cmd] |},
   Ok (gcloud_describe (environ s) cmd)).

Definition check_output_services `{Gcloud} (cmd : list string) : M string := λ s,
  ({| environ := environ s; trace := trace s ++ [EvRun cmd] |},
   match gcloud_services (environ s) cmd with
   | Some out => Ok out
   | None => Raise CalledProcessError
   end).

Definition check_call `{Gcloud} (cmd : list string) : M bool := λ s,
  ({| environ := environ s; trace := trace s ++ [EvRun cmd] |},
   Ok (gcloud_call (environ s) cmd)).

(** ** Commands *)

(** One double quote. *)
Definition dquote : string := String (Ascii.ascii_of_nat 34) EmptyString.

(** [base_command(resource)] *)
Definition base_command (resource : Resource) : list string :=
  let base := ["gcloud"] in
  let base :=
    if negb (String.eqb (api_version resource) "")
    then base ++ [api_version resource] else base in
  let base := base ++ [group resource; "-q"; name resource] in
  if str_truthy (subgroup resource)
  then base ++ [default "" (subgroup resource)] else base.

(** ** ConditionGrouper *)

(** [col[k].append(v)] on a [collections.defaultdict(list)]; the dict keeps
    its keys in insertion order. *)
Fixpoint dd_append (col : list (string * list json)) (k : string) (v : json)
    : list (string * list json) :=
  match col with
  | [] => [(k, [v])]
  | (k', vs) :: rest =>
      if String.eqb k' k then (k', vs ++ [v]) :: rest
      else (k', vs) :: dd_append rest k v
  end.

(** The body of the loop over listed items in [collect]: the item's
    [colname], or [None] where the loop says [continue]. *)
Definition item_colname (resource : Resource) (item : gmap string json)
    : result (option string) :=
  match condition resource with
  | None => mret (Some "")
  | Some cond =>
      if String.eqb cond "global" then
        if dict_contains item "zone" || dict_contains item "region"
        then mret None
        else mret (Some "")
      else if dict_contains item cond then
        v ← dict_getitem item cond;
        colname ← json_split_last v "/"%char;
        mret (Some colname)
      else if String.eqb (group resource) "filestore" then
        n ← dict_getitem item "name";
        colname ← json_split_nth n "/"%char 3;
        mret (Some colname)
      else mret None
  end.

Definition collect_item `{Datetime} (age : Z) (resource : Resource) (clear_all : bool)
    (col : list (string * list json)) (item : gmap string json)
    : result (list (string * list json)) :=
  if negb (dict_contains item "name") then Raise ValueError else
  scope ← item_colname resource item;
  match scope with
  | None => mret col
  | Some colname =>
      keep ← validate_item item age resource clear_all;
      if keep : bool then
        n ← dict_getitem item "name";
        mret (dd_append col colname n)
      else mret col
  end.

(** [collect(project, zones, age, resource, filt, clear_all)] *)
Definition collect `{Datetime, Gcloud} (project : string) (zones : list string)
    (age : Z) (resource : Resource) (filt : string) (clear_all : bool)
    : M (list (string * list json)) :=
  let col := [] in
  if String.eqb (name resource) "sinks" && negb clear_all then ret col else
  let cmd := base_command resource ++
    ["list";
     "--format=json(name,creationTimestamp.date(tz=UTC),createTime.date(tz=UTC),zone,region,isManaged)";
     "--project=" +:+ project] in
  let cmd :=
    if bool_decide (condition resource = Some "zone")
       && negb (String.eqb (name resource) "sole-tenancy")
       && negb (String.eqb (name resource) "network-endpoint-groups")
       && negb (String.eqb (group resource) "filestore")
    then cmd ++ ["--filter=" +:+ filt +:+ " AND zone:( " +:+ String.concat " " zones +:+ " )"]
    else cmd ++ ["--filter=" +:+ filt] in
  items <- check_output_list cmd ;;
  match items with
  | None => if tolerate resource then ret col else raise CalledProcessError
  | Some items =>
      for_each items (λ col item, lift (collect_item age resource clear_all col item)) col
  end.

(** ** BatchDeleter *)

(** [asyncCall(cmd, tolerate, name, errs, lock, hide_output)].  A thread is
    run to completion where it is started: the threads of one resource
    share nothing but [errs], appended to under [lock], and only
    [len(errs)] is read after the joins.  An exception other than
    [CalledProcessError] ends the thread alone. *)
Definition asyncCall `{Gcloud, Args} (cmd : list json) (tolerate : bool) (name : string)
    (errs : list exn) (hide_output : bool) : M (list exn) :=
  if dryrun then ret errs else
  match cmd_args cmd with
  | Raise _ => ret errs
  | Ok argv =>
      ok <- check_call argv ;;
      if ok : bool then ret errs else
      let errs := if negb tolerate then errs ++ [CalledProcessError] else errs in
      emit (EvStderr ("Error try to delete resources " +:+ name)) ;;
      ret errs
  end.

(** [manage_key[k]] for [manage_key = {'Yes': 'managed', 'No': 'unmanaged'}] *)
Definition manage_key (k : string) : result string :=
  if String.eqb k "Yes" then Ok "managed"
  else if String.eqb k "No" then Ok "unmanaged"
  else Raise KeyError.

(** The command prefix and the scope flag of one group in
    [clear_resources]. *)
Definition delete_base (project : string) (resource : Resource) : result (list string) :=
  let base := base_command resource in
  base ←
    (if str_truthy (managed resource)
     then k ← manage_key (default "" (managed resource)); mret (base ++ [k])
     else mret base);
  mret (base ++ ["delete"; "--project=" +:+ project]).

Definition delete_condition (resource : Resource) (col : string) : option string :=
  if str_truthy (condition resource) && negb (String.eqb col "")
  then Some ("--" +:+ default "" (condition resource) +:+ "=" +:+ col)
  else if bool_decide (condition resource = Some "global") then Some "--global"
  else None.

Definition delete_cmd (resource : Resource) (base : list string)
    (condition : option string) (clean : list json) : list json :=
  let cmd := (JStr <$> base) ++ clean in
  let cmd := match condition with Some c => cmd ++ [JStr c] | None => cmd end in
  if String.eqb (group resource) "filestore" then cmd ++ [JStr "--force"] else cmd.

(** [clear_resources(project, cols, resource, rate_limit)] *)
Definition clear_resources `{Gcloud, Args} (project : string)
    (cols : list (string * list json)) (resource : Resource) (rate_limit : Z) : M Z :=
  let errs := [] in
  let rate_limit := effective_rate_limit resource rate_limit in
  errs <- for_each cols (λ errs '(col, items),
    base <- lift (delete_base project resource) ;;
    let condition := delete_condition resource col in
    batches <- lift (chunks items rate_limit) ;;
    for_each batches (λ errs clean,
      asyncCall (delete_cmd resource base condition clean)
        (tolerate resource) (name resource) errs false) errs) errs ;;
  ret (Z.of_nat (length errs)).

(** ** SubnetRangeCleaner *)

(** [",".join(ranges)] raises [TypeError] on an element that is not a
    [str]. *)
Definition join_comma (ranges : list json) : result string :=
  strs ← cmd_args ranges;
  mret (String.concat "," strs).

(** The first loop of [clean_secondary_ip_ranges]: one [Subnet(name,
    region)] for each listed item. *)
Definition subnet_of_item (subnets : list (json * string)) (item : gmap string json)
    : result (list (json * string)) :=
  if negb (dict_contains item "name") then Raise ValueError else
  if negb (dict_contains item "region") then Raise ValueError else
  n ← dict_getitem item "name";
  r ← dict_getitem item "region";
  region ← json_split_last r "/"%char;
  if String.eqb region "" || negb (json_truthy n)
  then Raise ValueError
  else mret (subnets ++ [(n, region)]).

Definition range_name (ranges : list json) (ip_range : gmap string json)
    : result (list json) :=
  if negb (dict_contains ip_range "rangeName") then Raise ValueError else
  v ← dict_getitem ip_range "rangeName";
  mret (ranges ++ [v]).

(** The second loop: describe one subnet, then remove its secondary
    ranges. *)
Definition clean_subnet `{Gcloud} (project : string) (subnet : json * string) : M unit :=
  let '(subnet_name, subnet_region) := subnet in
  cmd <- lift (cmd_args
    ((JStr <$> ["gcloud"; "compute"; "networks"; "subnets"; "describe";
                "--project=" +:+ project;
                "--region=" +:+ subnet_region;
                "--format=json(secondaryIpRanges)"]) ++ [subnet_name])) ;;
  output <- check_output_describe cmd ;;
  match output with
  | None => ret ()
  | Some ip_ranges =>
      match ip_ranges !! "secondaryIpRanges" with
      | None => ret ()
      | Some secondary =>
          ranges <- for_each secondary (λ ranges ip_range, lift (range_name ranges ip_range)) [] ;;
          joined <- lift (join_comma ranges) ;;
          cmd <- lift (cmd_args
            ((JStr <$> ["gcloud"; "compute"; "networks"; "subnets"; "update";
                        "--project=" +:+ project;
                        "--region=" +:+ subnet_region;
                        "--remove-secondary-ranges=" +:+ joined]) ++ [subnet_name])) ;;
          _ <- check_call cmd ;;
          ret ()
      end
  end.

(** The listing command of the subnet cleaner. *)
Definition subnets_cmd (project filt : string) : list string :=
  ["gcloud"; "compute"; "networks"; "subnets"; "list";
   "--project=" +:+ project;
   "--filter=" +:+ filt;
   "--format=json(name,region)"].

(** [clean_secondary_ip_ranges(project, age, filt)]: a listing that exits
    non-zero is logged and raised again. *)
Definition clean_secondary_ip_ranges `{Gcloud} (project : string) (age : Z)
    (filt : string) : M unit :=
  let cmd := subnets_cmd project filt in
  output <- check_output_list cmd ;;
  match output with
  | None => raise CalledProcessError
  | Some output =>
      subnets <- for_each output (λ subnets item, lift (subnet_of_item subnets item)) [] ;;
      for_each subnets (λ _ subnet, clean_subnet project subnet) ()
  end.

(** ** ClusterSweeper *)

Definition endpoints : list string :=
  ["https://test-container.sandbox.googleapis.com/";
   "https://staging-container.sandbox.googleapis.com/";
   "https://staging2-container.sandbox.googleapis.com/";
   "https://container.googleapis.com/"].

Definition CONTAINER_OVERRIDE : string := "CLOUDSDK_API_ENDPOINT_OVERRIDES_CONTAINER".

(** The checks on one cluster record and the parse of its [createTime]. *)
Definition cluster_created `{Datetime} (item : gmap string json) : result Z :=
  if negb (dict_contains item "name") || negb (dict_contains item "createTime")
  then Raise ValueError else
  if negb (dict_contains item "zone" || dict_contains item "region")
  then Raise ValueError else
  ct ← dict_getitem item "createTime";
  match ct with
  | JStr s => json_strptime (JStr (split_head "+"%char s))
  | _ => Raise AttributeError
  end.

(** The body of the loop over the clusters listed at one endpoint. *)
Definition sweep_cluster `{Datetime, Gcloud, Args} (project : string) (age : Z)
    (errs : list exn) (item : gmap string json) : M (list exn) :=
  created <- lift (cluster_created item) ;;
  if bool_decide (created < age) then
    n <- lift (dict_getitem item "name") ;;
    let delete :=
      (JStr <$> ["gcloud"; "container"; "-q"; "clusters"; "delete"]) ++
      [n; JStr ("--project=" +:+ project)] in
    let delete :=
      match item !! "zone", item !! "region" with
      | Some z, _ => delete ++ [JStr ("--zone=" +:+ json_str z)]
      | None, Some r => delete ++ [JStr ("--region=" +:+ json_str r)]
      | None, None => delete
      end in
    asyncCall delete false (json_str n) errs true
  else ret errs.

(** The listing command of the sweep. *)
Definition clusters_cmd (project filt : string) : list string :=
  ["gcloud"; "container"; "-q"; "clusters"; "list";
   "--project=" +:+ project;
   "--filter=" +:+ filt;
   "--format=json(name,createTime,region,zone)"].

(** The body of the loop over the endpoints. *)
Definition sweep_endpoint `{Datetime, Gcloud, Args} (project : string) (age : Z)
    (filt : string) (errs : list exn) (endpoint : string) : M (list exn) :=
  setenv CONTAINER_OVERRIDE endpoint ;;
  let cmd := clusters_cmd project filt in
  output <- check_output_list cmd ;;
  match output with
  | None => ret errs
  | Some output => for_each output (sweep_cluster project age) errs
  end.

(** [clean_gke_cluster(project, age, filt)] *)
Definition clean_gke_cluster `{Datetime, Gcloud, Args} (project : string) (age : Z)
    (filt : string) : M bool :=
  errs <- for_each endpoints (sweep_endpoint project age filt) [] ;;
  ret (bool_decide (0 < length errs)%nat).

(** ** Driver *)

(** [activate_service_account(service_account)] *)
Definition activate_service_account `{Gcloud} (service_account : string) : M Z :=
  let cmd := ["gcloud"; "auth"; "activate-service-account";
              "--key-file=" +:+ service_account] in
  ok <- check_call cmd ;;
  if ok : bool then ret 0
  else emit (EvStderr ("Error try to activate service_account: " +:+ service_account)) ;;
       ret 1.

(** [set_quota_project(project)] *)
Definition set_quota_project (project : string) : M Z :=
  setenv "CLOUDSDK_BILLING_QUOTA_PROJECT" project ;;
  ret 0.

(** The command of [api_enabled]. *)
Definition services_cmd (project api : string) : list string :=
  ["gcloud"; "services"; "-q"; "list";
   "--project=" +:+ project;
   "--filter=config.name=" +:+ dquote +:+ api +:+ dquote;
   "--format=value(state)"].

(** [api_enabled(project, api)] *)
Definition api_enabled `{Gcloud} (project api : string) : M bool :=
  st <- check_output_services (services_cmd project api) ;;
  if String.eqb st "" then ret false
  else if String.eqb st "ENABLED" then ret true
  else ret false.

Definition gkehub_apis : list string :=
  ["gkehub.googleapis.com"; "staging-gkehub.sandbox.googleapis.com";
   "autopush-gkehub.sandbox.googleapis.com"].

Definition in_strs (s : string) (l : list string) : bool := existsb (String.eqb s) l.

(** The classes named by [except (subprocess.CalledProcessError, ValueError)]
    and by [except ValueError]. *)
Definition is_list_failure (e : exn) : bool :=
  match e with
  | CalledProcessError | ValueError => true
  | _ => false
  end.

Definition is_ValueError (e : exn) : bool :=
  match e with
  | ValueError => true
  | _ => false
  end.

(** The catalog shipped with the program, in source order (a Python dict
    iterates in insertion order). *)
Definition RESOURCES_BY_API : list (string * list Resource) := [
  ("file.googleapis.com", [
     Build_Resource "" "filestore" "instances" None (Some "zone") None false false None]);
  ("secretmanager.googleapis.com", [
     Build_Resource "" "secretmanager" "secrets" None (Some "zone") None false true None]);
  ("compute.googleapis.com", [
     Build_Resource "" "compute" "instances" None (Some "zone") None false true None;
     Build_Resource "" "compute" "addresses" None (Some "global") None false true None;
     Build_Resource "" "compute" "addresses" None (Some "region") None false true None;
     Build_Resource "" "compute" "disks" None (Some "zone") None false true None;
     Build_Resource "" "compute" "disks" None (Some "region") None false true None;
     Build_Resource "" "compute" "firewall-rules" None None None false true None;
     Build_Resource "" "compute" "forwarding-rules" None (Some "global") None false true None;
     Build_Resource "" "compute" "forwarding-rules" None (Some "region") None false true None;
     Build_Resource "" "compute" "target-http-proxies" None (Some "global") None false true None;
     Build_Resource "" "compute" "target-http-proxies" None (Some "region") None false true None;
     Build_Resource "" "compute" "target-https-proxies" None (Some "global") None false true None;
     Build_Resource "" "compute" "target-https-proxies" None (Some "region") None false true None;
     Build_Resource "" "compute" "target-tcp-proxies" None None None false true None;
     Build_Resource "" "compute" "ssl-policies" None (Some "global") None false true None;
     Build_Resource "" "compute" "ssl-policies" None (Some "region") None false true None;
     Build_Resource "" "compute" "ssl-certificates" None (Some "global") None false true None;
     Build_Resource "" "compute" "ssl-certificates" None (Some "region") None false true None;
     Build_Resource "" "compute" "url-maps" None (Some "global") None false true None;
     Build_Resource "" "compute" "url-maps" None (Some "region") None false true None;
     Build_Resource "" "compute" "backend-services" None (Some "global") None false true None;
     Build_Resource "" "compute" "backend-services" None (Some "region") None false true None;
     Build_Resource "" "compute" "target-pools" None (Some "region") None false true None;
     Build_Resource "" "compute" "security-policies" None (Some "global") None false true None;
     Build_Resource "" "compute" "security-policies" None (Some "region") None false true None;
     Build_Resource "" "compute" "health-checks" None (Some "global") None false true None;
     Build_Resource "" "compute" "health-checks" None (Some "region") None false true None;
     Build_Resource "" "compute" "http-health-checks" None None None false true None;
     Build_Resource "" "compute" "instance-groups" None (Some "region") (Some "Yes") false true None;
     Build_Resource "" "compute" "instance-groups" None (Some "zone") (Some "Yes") false true None;
     Build_Resource "" "compute" "instance-groups" None (Some "zone") (Some "No") false true None;
     Build_Resource "" "compute" "instance-templates" None (Some "global") None false true None;
     Build_Resource "" "compute" "instance-templates" None (Some "region") None false true None;
     Build_Resource "" "compute" "sole-tenancy" (Some "node-groups") (Some "zone") None false true None;
     Build_Resource "" "compute" "sole-tenancy" (Some "node-templates") (Some "region") None false true None;
     Build_Resource "" "compute" "network-endpoint-groups" None (Some "zone") None false false None;
     Build_Resource "" "compute" "routes" None None None false true None;
     Build_Resource "" "compute" "routers" None (Some "region") None false true None;
     Build_Resource "" "compute" "networks" (Some "subnets") (Some "region") None true true None;
     Build_Resource "" "compute" "networks" None None None false true None]);
  ("logging.googleapis.com", [
     Build_Resource "" "logging" "sinks" None None None false false
       (Some ["_Default"; "_Required"])]);
  ("pubsub.googleapis.com", [
     Build_Resource "" "pubsub" "subscriptions" None None None false true None;
     Build_Resource "" "pubsub" "topics" None None None false true 
       (Some ["container-analysis-notes-v1"; "container-analysis-notes-v1beta1";
              "container-analysis-occurrences-v1";
              "container-analysis-occurrences-v1beta1"])]);
  ("gkehub.googleapis.com", [
     Build_Resource "" "container" "hub" (Some "memberships") None None false false None]);
  ("staging-gkehub.sandbox.googleapis.com", [
     Build_Resource "" "container" "hub" (Some "memberships") None None false false None]);
  ("autopush-gkehub.sandbox.googleapis.com", [
     Build_Resource "" "container" "hub" (Some "memberships") None None false false None])
].

Definition BASE_ZONES : list string := [
  "asia-east1-a"; "asia-east1-b"; "asia-east1-c";
  "asia-east2-a"; "asia-east2-b"; "asia-east2-c";
  "asia-northeast1-a"; "asia-northeast1-b"; "asia-northeast1-c";
  "asia-northeast2-a"; "asia-northeast2-b"; "asia-northeast2-c";
  "asia-northeast3-a"; "asia-northeast3-b"; "asia-northeast3-c";
  "asia-south1-a"; "asia-south1-b"; "asia-south1-c";
  "asia-south2-a"; "asia-south2-b"; "asia-south2-c";
  "asia-southeast1-a"; "asia-southeast1-b"; "asia-southeast1-c";
  "asia-southeast2-a"; "asia-southeast2-b"; "asia-southeast2-c";
  "australia-southeast1-a"; "australia-southeast1-b"; "australia-southeast1-c";
  "australia-southeast2-a"; "australia-southeast2-b"; "australia-southeast2-c";
  "europe-central2-a"; "europe-central2-b"; "europe-central2-c";
  "europe-north1-a"; "europe-north1-b"; "europe-north1-c";
  "europe-west1-b"; "europe-west1-c"; "europe-west1-d";
  "europe-west2-a"; "europe-west2-b"; "europe-west2-c";
  "europe-west3-a"; "europe-west3-b"; "europe-west3-c";
  "europe-west4-a"; "europe-west4-b"; "europe-west4-c";
  "europe-west6-a"; "europe-west6-b"; "europe-west6-c";
  "northamerica-northeast1-a"; "northamerica-northeast1-b"; "northamerica-northeast1-c";
  "northamerica-northeast2-a"; "northamerica-northeast2-b"; "northamerica-northeast2-c";
  "southamerica-east1-a"; "southamerica-east1-b"; "southamerica-east1-c";
  "us-central1-a"; "us-central1-b"; "us-central1-c";
  "us-central1-f"; "us-central2-a"; "us-central2-b";
  "us-central2-c"; "us-central2-d"; "us-east1-b";
  "us-east1-c"; "us-east1-d"; "us-east4-a";
  "us-east4-b"; "us-east4-c"; "us-west1-a";
  "us-west1-b"; "us-west1-c"; "us-west2-a";
  "us-west2-b"; "us-west2-c"; "us-west3-a";
  "us-west3-b"; "us-west3-c"; "us-west4-a";
  "us-west4-b"; "us-west4-c"
].

Definition GKEHUB_OVERRIDE : string := "CLOUDSDK_API_ENDPOINT_OVERRIDES_GKEHUB".

(** The line the driver prints when it catches a failure of [collect] or
    [clear_resources]. *)
Definition fail_to_list (res : Resource) (project : string) : string :=
  "Fail to list resource " +:+ name res +:+ " from project " +:+ project.

(** What stands under [try:] in the driver's loop over the resources of an
    API. *)
Definition collect_and_clear `{Datetime, Gcloud, Args} (project : string)
    (zones : list string) (age : Z) (filt : string) (clear_all : bool)
    (rate_limit : Z) (err : Z) (res : Resource) : M Z :=
  col <- collect project zones age res filt clear_all ;;
  match col with
  | [] => ret err
  | _ :: _ =>
      n <- clear_resources project col res rate_limit ;;
      ret (Z.lor err n)
  end.

(** The body of the driver's loop over the resources of one enabled API. *)
Definition clean_resource `{Datetime, Gcloud, Args} (api project : string)
    (zones : list string) (age : Z) (filt : string) (clear_all : bool)
    (rate_limit : Z) (err : Z) (res : Resource) : M Z :=
  emit (EvSearch api res) ;;
  try_except
    (collect_and_clear project zones age filt clear_all rate_limit err res)
    is_list_failure
    (λ exc,
       emit (EvStderr (fail_to_list res project)) ;;
       ret (Z.lor err 1)).

(** The body of the driver's loop over the catalog. *)
Definition clean_api `{Datetime, Gcloud, Args} (project : string)
    (zones : list string) (age : Z) (filt : string) (clear_all : bool)
    (rate_limit : Z) (err : Z) (entry : string * list Resource) : M Z :=
  let '(api, resources) := entry in
  enabled <- api_enabled project api ;;
  if negb enabled then ret err else
  (if in_strs api gkehub_apis
   then setenv GKEHUB_OVERRIDE ("https://" +:+ api +:+ "/")
   else ret ()) ;;
  for_each resources
    (clean_resource api project zones age filt clear_all rate_limit) err.

(** The driver's two steps before the catalog: the subnet cleaner under
    [except ValueError], and the cluster sweep under [except ValueError],
    each folding its failure into [err] as the driver does. *)
Definition try_clean_secondary_ip_ranges `{Gcloud} (project : string) (age : Z)
    (filt : string) : M unit :=
  try_except (clean_secondary_ip_ranges project age filt) is_ValueError
    (λ _, emit (EvStderr ("Fail to clean up secondary ip ranges from project " +:+
                          project))).

Definition try_clean_gke_cluster `{Datetime, Gcloud, Args} (project : string)
    (age : Z) (filt : string) (err : Z) : M Z :=
  try_except
    (failed <- clean_gke_cluster project age filt ;;
     ret (Z.lor err (if failed : bool then 1 else 0)))
    is_ValueError
    (λ _,
       let err := Z.lor err 1 in
       emit (EvStderr ("Fail to clean up cluster from project " +:+ project)) ;;
       ret err).

(** [main(project, days, hours, filt, rate_limit, service_account,
    additional_zones, set_as_quota_project)], over an explicit catalog (the
    program's is the global [RESOURCES_BY_API]).  [sys.exit(err)] raises
    [SystemExit err], so a run always ends in an exception: [SystemExit], or
    one that nothing caught. *)
Definition main `{Datetime, Gcloud, Args} (catalog : list (string * list Resource))
    (project : string) (days : Z) (hours : Q) (filt : string) (rate_limit : Z)
    (service_account : option string) (additional_zones : list string)
    (set_as_quota_project : bool) : M unit :=
  let err := 0 in
  let age := utcnow - timedelta days hours in
  let clear_all := (days =? 0) && Qeq_bool hours 0 in
  err <-
    (if str_truthy service_account then
       r <- activate_service_account (default "" service_account) ;;
       let err := Z.lor err r in
       if negb (err =? 0) then
         emit (EvStderr ("Failed to activate service account " +:+
                         default "" service_account)) ;;
         raise (SystemExit err)
       else ret err
     else ret err) ;;
  err <-
    (if set_as_quota_project then
       r <- set_quota_project project ;;
       let err := Z.lor err r in
       if negb (err =? 0) then
         emit (EvStderr ("Failed to set quota project " +:+ project)) ;;
         raise (SystemExit err)
       else ret err
     else ret err) ;;
  try_clean_secondary_ip_ranges project age filt ;;
  err <- try_clean_gke_cluster project age filt err ;;
  let zones := BASE_ZONES ++ additional_zones in
  err <- for_each catalog
           (clean_api project zones age filt clear_all rate_limit) err ;;
  raise (SystemExit err).

(** The status the operating system receives: the low eight bits of the
    argument of [sys.exit], and 1 for an exception nothing caught. *)
Definition exit_status {A} (r : result A) : Z :=
  match r with
  | Ok _ => 0
  | Raise (SystemExit err) => err `mod` 256
  | Raise _ => 1
  end.

Definition initial_state : state := {| environ := ∅; trace := [] |}.

(** A whole run of the program from an empty trace. *)
Definition run `{Datetime, Gcloud, Args} (catalog : list (string * list Resource))
    (project : string) (days : Z) (hours : Q) (filt : string) (rate_limit : Z)
    (service_account : option string) (additional_zones : list string)
    (set_as_quota_project : bool) : state * result unit :=
  main catalog project days hours filt rate_limit service_account
       additional_zones set_as_quota_project initial_state.

(** ** Concrete clocks, listings and runs for the examples *)

(** Decimal digits to a number. *)
Fixpoint digits (s : string) (acc : Z) : option Z :=
  match s with
  | EmptyString => Some acc
  | String a rest =>
      let n := Z.of_nat (nat_of_ascii a) in
      if (48 <=? n) && (n <=? 57) then digits rest (acc * 10 + (n - 48)) else None
  end.

(** Days since 1970-01-01 of a civil date. *)
Definition days_from_civil (y m d : Z) : Z :=
  let y := if m <=? 2 then y - 1 else y in
  let era := y `div` 400 in
  let yoe := y - era * 400 in
  let doy := (153 * (if 2 <? m then m - 3 else m + 9) + 2) `div` 5 + d - 1 in
  let doe := yoe * 365 + yoe `div` 4 - yoe `div` 100 + doy in
  era * 146097 + doe - 719468.

(** Seconds since the epoch of a zero-padded [YYYY-MM-DDTHH:MM:SS], the
    shape gcloud prints. *)
Definition iso_seconds (s : string) : option Z :=
  if bool_decide (String.length s = 19%nat)
     && String.eqb (String.substring 4 1 s) "-" && String.eqb (String.substring 7 1 s) "-"
     && String.eqb (String.substring 10 1 s) "T"
     && String.eqb (String.substring 13 1 s) ":" && String.eqb (String.substring 16 1 s) ":"
  then
    y ← digits (String.substring 0 4 s) 0;
    m ← digits (String.substring 5 2 s) 0;
    d ← digits (String.substring 8 2 s) 0;
    h ← digits (String.substring 11 2 s) 0;
    mi ← digits (String.substring 14 2 s) 0;
    sec ← digits (String.substring 17 2 s) 0;
    Some (days_from_civil y m d * 86400 + h * 3600 + mi * 60 + sec)
  else None.

(** A clock standing at 2025-01-01T00:00:00. *)
Definition clock_2025 : Datetime := {|
  strptime := iso_seconds;
  utcnow := 1735689600;
  timedelta := λ days hours,
    days * 86400 + (Qnum hours * 3600) `div` Z.pos (Qden hours)
|}.

Definition no_dryrun : Args := {| dryrun := false; verbose := false |}.

Definition item_of (fields : list (string * json)) : gmap string json :=
  list_to_map fields.

(** The logging sinks of the catalog and the zonal managed instance
    groups. *)
Definition sinks : Resource :=
  Build_Resource "" "logging" "sinks" None None None false false
    (Some ["_Default"; "_Required"]).

Definition managed_groups : Resource :=
  Build_Resource "" "compute" "instance-groups" None (Some "zone") (Some "Yes")
    false true None.

Definition hub_memberships : Resource :=
  Build_Resource "" "container" "hub" (Some "memberships") None None false false None.

(** [resource._replace(managed=m)] and
    [resource._replace(preserved_names=None)] *)
Definition with_managed (resource : Resource) (m : option string) : Resource :=
  {| api_version := api_version resource; group := group resource;
     name := name resource; subgroup := subgroup resource;
     condition := condition resource; managed := m;
     tolerate := tolerate resource; bulk_delete := bulk_delete resource;
     preserved_names := preserved_names resource |}.

Definition without_preserved_names (resource : Resource) : Resource :=
  {| api_version := api_version resource; group := group resource;
     name := name resource; subgroup := subgroup resource;
     condition := condition resource; managed := managed resource;
     tolerate := tolerate resource; bulk_delete := bulk_delete resource;
     preserved_names := None |}.

(** A project where nothing is listed, no API is enabled and every call
    succeeds. *)
Definition gcloud_empty : Gcloud := {|
  gcloud_list := λ _ _, Some [];
  gcloud_describe := λ _ _, Some ∅;
  gcloud_services := λ _ _, Some "";
  gcloud_call := λ _ _, true
|}.

(** A project whose subnets cannot be listed (the compute API is off):
    every listing exits non-zero. *)
Definition gcloud_no_listing : Gcloud := {|
  gcloud_list := λ _ _, None;
  gcloud_describe := λ _ _, None;
  gcloud_services := λ _ _, Some "";
  gcloud_call := λ _ _, true
|}.

(** The test endpoint answers with one cluster record that has no name;
    every other listing is empty. *)
Definition gcloud_nameless_cluster : Gcloud := {|
  gcloud_list := λ env cmd,
    if bool_decide (take 5 cmd = ["gcloud"; "container"; "-q"; "clusters"; "list"])
       && bool_decide (env !! CONTAINER_OVERRIDE =
                       Some "https://test-container.sandbox.googleapis.com/")
    then Some [item_of [("createTime", JStr "2020-01-01T00:00:00+00:00");
                        ("zone", JStr "us-central1-a")]]
    else Some [];
  gcloud_describe := λ _ _, Some ∅;
  gcloud_services := λ _ _, Some "";
  gcloud_call := λ _ _, true
|}.

(** Every API is enabled; listing compute instances exits non-zero and
    every other listing is empty. *)
Definition gcloud_instances_unlistable : Gcloud := {|
  gcloud_list := λ _ cmd,
    if bool_decide (cmd !! 3%nat = Some "instances") then None else Some [];
  gcloud_describe := λ _ _, Some ∅;
  gcloud_services := λ _ _, Some "ENABLED";
  gcloud_call := λ _ _, true
|}.

Definition instances : Resource :=
  Build_Resource "" "compute" "instances" None (Some "zone") None false true None.

Definition disks : Resource :=
  Build_Resource "" "compute" "disks" None (Some "zone") None false true None.

Definition subscriptions : Resource :=
  Build_Resource "" "pubsub" "subscriptions" None None None false true None.

(** Three resources of the shipped catalog, under their APIs. *)
Definition small_catalog : list (string * list Resource) :=
  [("compute.googleapis.com", [instances; disks]);
   ("pubsub.googleapis.com", [subscriptions])].

(** [n] hub memberships named by their index. *)
Definition memberships (n : nat) : list (gmap string json) :=
  (λ i : nat, item_of [("name", JStr ("m" +:+ pretty i))]) <$> seq 0 n.

(** Only the GKE hub API is enabled; it lists [n] memberships and every
    delete call exits non-zero. *)
Definition gcloud_failing_deletes (n : nat) : Gcloud := {|
  gcloud_list := λ _ cmd,
    if bool_decide (take 6 cmd = ["gcloud"; "container"; "-q"; "hub"; "memberships"; "list"])
    then Some (memberships n)
    else Some [];
  gcloud_describe := λ _ _, Some ∅;
  gcloud_services := λ _ cmd,
    if bool_decide (cmd !! 5%nat =
         Some ("--filter=config.name=" +:+ dquote +:+ "gkehub.googleapis.com" +:+ dquote))
    then Some "ENABLED" else Some "";
  gcloud_call := λ _ _, false
|}.

(** ** Views of a trace and predicates used in the statements *)

(** The events of a trace that mark a visited endpoint and a searched
    resource, and the lines on stderr. *)
Definition endpoints_visited (tr : list event) : list string :=
  omap (λ e, match e with
             | EvSetenv k v => if String.eqb k CONTAINER_OVERRIDE then Some v else None
             | _ => None
             end) tr.

Definition searched (tr : list event) : list (string * Resource) :=
  omap (λ e, match e with EvSearch api res => Some (api, res) | _ => None end) tr.

Definition stderr_lines (tr : list event) : list string :=
  omap (λ e, match e with EvStderr msg => Some msg | _ => None end) tr.

(** The lines the driver printed for resources whose listing or deletion
    step raised. *)
Definition list_failures (tr : list event) : list string :=
  filter (λ msg, String.prefix "Fail to list resource " msg = true) (stderr_lines tr).

(** Whether [api_enabled] answers [True] under the environment [env]. *)
Definition api_state `{Gcloud} (project : string) (env : gmap string string)
    (api : string) : bool :=
  match gcloud_services env (services_cmd project api) with
  | Some st => String.eqb st "ENABLED"
  | None => false
  end.

(** The resources of the enabled APIs of a catalog, in catalog order; the
    environment changes as the driver walks the catalog. *)
Fixpoint expected_searches `{Gcloud} (project : string) (env : gmap string string)
    (catalog : list (string * list Resource)) : list (string * Resource) :=
  match catalog with
  | [] => []
  | (api, resources) :: rest =>
      if api_state project env api then
        let env' :=
          if in_strs api gkehub_apis
          then <[GKEHUB_OVERRIDE := "https://" +:+ api +:+ "/"]> env
          else env in
        (pair api <$> resources) ++ expected_searches project env' rest
      else expected_searches project env rest
  end.

(** A cluster record the sweep rejects: no name, no creation time, or
    neither zone nor region. *)
Definition malformed_cluster (item : gmap string json) : Prop :=
  item !! "name" = None ∨ item !! "createTime" = None ∨
  (item !! "zone" = None ∧ item !! "region" = None).

(** The events a step may leave without searching a resource, visiting an
    endpoint or reporting a listing failure. *)
Definition quiet_event (e : event) : bool :=
  match e with
  | EvRun _ => true
  | EvStderr msg => negb (String.prefix "Fail to list resource " msg)
  | _ => false
  end.

(** A step that keeps [os.environ] and leaves only such events. *)
Definition quiet {A} (m : M A) : Prop :=
  ∀ s, environ (m s).1 = environ s ∧
       ∃ evs, trace (m s).1 = trace s ++ evs ∧
              Forall (λ e, quiet_event e = true) evs.

(** The state in which the records of an endpoint are swept. *)
Definition listed (project filt endpoint : string) (s : state) : state :=
  {| environ := <[CONTAINER_OVERRIDE := endpoint]> (environ s);
     trace := (trace s ++ [EvSetenv CONTAINER_OVERRIDE endpoint]) ++
              [EvRun (clusters_cmd project filt)] |}.

(** The exceptions of [collect] and [clear_resources] on the resources of
    a catalog are those the driver's [except] clause names. *)
Definition failures_caught `{Datetime, Gcloud, Args} (project : string)
    (zones : list string) (age : Z) (filt : string) (clear_all : bool)
    (rate_limit : Z) (resources : list Resource) : Prop :=
  ∀ res, res ∈ resources → ∀ err s e,
    (collect_and_clear project zones age filt clear_all rate_limit err res s).2
      = Raise e →
    is_list_failure e = true.

(** The environment after the driver's pass over one API. *)
Definition env_after `{Gcloud} (project : string) (env : gmap string string)
    (api : string) : gmap string string :=
  if api_state project env api && in_strs api gkehub_apis
  then <[GKEHUB_OVERRIDE := "https://" +:+ api +:+ "/"]> env
  else env.

(** No group holds the name [n]. *)
Definition name_free (n : string) (col : list (string * list json)) : Prop :=
  ∀ colname g, (colname, g) ∈ col → JStr n ∉ g.


(** The gcloud invocations of a trace. *)
Definition commands (tr : list event) : list (list string) :=
  omap (λ e, match e with EvRun cmd => Some cmd | _ => None end) tr.

(** The invocation a thread makes of [cmd], if it gets that far. *)
Definition argv_of (cmd : list json) : list (list string) :=
  match cmd_args cmd with
  | Ok argv => [argv]
  | Raise _ => []
  end.

(** The chunks of a group when [range] accepts the step. *)
Definition batches_of {A} (items : list A) (rate_limit : Z) : list (list A) :=
  match chunks items rate_limit with
  | Ok batches => batches
  | Raise _ => []
  end.

(** ** Further views used in the statements *)

(** [col.get(k)] on the groups of [collect]. *)
Fixpoint dd_get (col : list (string * list json)) (k : string) : option (list json) :=
  match col with
  | [] => None
  | (k', vs) :: rest => if String.eqb k' k then Some vs else dd_get rest k
  end.

(** The group and the name under which [collect] files a listed item, when
    it files it: the item has a [colname], the filter accepts it. *)
Definition filed `{Datetime} (age : Z) (resource : Resource) (clear_all : bool)
    (item : gmap string json) : option (string * json) :=
  match item_colname resource item, validate_item item age resource clear_all,
        item !! "name" with
  | Ok (Some colname), Ok true, Some n => Some (colname, n)
  | _, _, _ => None
  end.

(** The names filed under [k], in listing order. *)
Definition filed_under `{Datetime} (age : Z) (resource : Resource) (clear_all : bool)
    (k : string) (items : list (gmap string json)) : list json :=
  omap (λ item, match filed age resource clear_all item with
                | Some (colname, n) => if String.eqb colname k then Some n else None
                | None => None
                end) items.

(** Whether a character occurs in a string. *)
Fixpoint has_char (c : Ascii.ascii) (s : string) : bool :=
  match s with
  | EmptyString => false
  | String a rest => Ascii.eqb a c || has_char c rest
  end.

(** The listing command of [collect]. *)
Definition collect_cmd (project : string) (zones : list string)
    (resource : Resource) (filt : string) : list string :=
  let cmd := base_command resource ++
    ["list";
     "--format=json(name,creationTimestamp.date(tz=UTC),createTime.date(tz=UTC),zone,region,isManaged)";
     "--project=" +:+ project] in
  if bool_decide (condition resource = Some "zone")
     && negb (String.eqb (name resource) "sole-tenancy")
     && negb (String.eqb (name resource) "network-endpoint-groups")
     && negb (String.eqb (group resource) "filestore")
  then cmd ++ ["--filter=" +:+ filt +:+ " AND zone:( " +:+ String.concat " " zones +:+ " )"]
  else cmd ++ ["--filter=" +:+ filt].

(** The items [collect] walks over: none when it skips the listing (sinks
    outside clear-all) or when the listing exits non-zero. *)
Definition collect_listing `{Gcloud} (project : string) (zones : list string)
    (resource : Resource) (filt : string) (clear_all : bool) (s : state)
    : list (gmap string json) :=
  if String.eqb (name resource) "sinks" && negb clear_all then []
  else default [] (gcloud_list (environ s) (collect_cmd project zones resource filt)).

(** An item all of whose fields hold strings, as gcloud prints the
    projected attributes. *)
Definition string_valued (item : gmap string json) : Prop :=
  ∀ k v, item !! k = Some v → ∃ s, v = JStr s.

(** Two disks of one zone, the zone given as a URL: [a] created in 2020,
    [b] in 2030.  Every API is enabled and every call succeeds. *)
Definition gcloud_two_disks : Gcloud := {|
  gcloud_list := λ _ cmd,
    if bool_decide (take 4 cmd = ["gcloud"; "compute"; "-q"; "disks"])
    then Some
      [item_of [("name", JStr "a");
                ("zone", JStr "https://www.googleapis.com/compute/v1/projects/p/zones/us-central1-a");
                ("creationTimestamp", JStr "2020-01-01T00:00:00")];
       item_of [("name", JStr "b");
                ("zone", JStr "https://www.googleapis.com/compute/v1/projects/p/zones/us-central1-a");
                ("creationTimestamp", JStr "2030-01-01T00:00:00")]]
    else Some [];
  gcloud_describe := λ _ _, Some ∅;
  gcloud_services := λ _ _, Some "ENABLED";
  gcloud_call := λ _ _, true
|}.

(** The invocations [clear_resources] makes for its groups outside
    dry-run mode, in order. *)
Definition dispatched (resource : Resource) (rate_limit : Z) (base : list string)
    (cols : list (string * list json)) : list (list string) :=
  flat_map (λ '(col, items),
    flat_map (λ clean,
      argv_of (delete_cmd resource base (delete_condition resource col) clean))
      (batches_of items (effective_rate_limit resource rate_limit))) cols.

(** One disk whose listing carries no creation time at all; every field is
    a string.  Every API is enabled and every
    call succeeds. *)
Definition gcloud_undated_disk : Gcloud := {|
  gcloud_list := λ _ cmd,
    if bool_decide (take 4 cmd = ["gcloud"; "compute"; "-q"; "disks"])
    then Some [item_of [("name", JStr "a"); ("zone", JStr "us-central1-a")]]
    else Some [];
  gcloud_describe := λ _ _, Some ∅;
  gcloud_services := λ _ _, Some "ENABLED";
  gcloud_call := λ _ _, true
|}.

(** How many of some invocations exit non-zero under an environment. *)
Definition failing `{Gcloud} (env : gmap string string) (argvs : list (list string))
    : nat :=
  length (filter (λ argv, gcloud_call env argv = false) argvs).

Definition dry_run : Args := {| dryrun := true; verbose := false |}.

(** A cluster record that passes the checks of the sweep and is not older
    than the cutoff. *)
Definition fresh_cluster `{Datetime} (age : Z) (item : gmap string json) : Prop :=
  ∃ t, cluster_created item = Ok t ∧ age ≤ t.

(** Every endpoint lists one cluster created in 2017; every call
    succeeds. *)
Definition gcloud_old_cluster : Gcloud := {|
  gcloud_list := λ _ cmd,
    if bool_decide (take 5 cmd = ["gcloud"; "container"; "-q"; "clusters"; "list"])
    then Some [item_of [("name", JStr "c1"); ("zone", JStr "us-central1-a");
                        ("createTime", JStr "2017-08-30T18:33:14+00:00")]]
    else Some [];
  gcloud_describe := λ _ _, Some ∅;
  gcloud_services := λ _ _, Some "";
  gcloud_call := λ _ _, true
|}.

(** The command of [activate_service_account]. *)
Definition activate_cmd (service_account : string) : list string :=
  ["gcloud"; "auth"; "activate-service-account"; "--key-file=" +:+ service_account].

(** Activation of the service account fails; nothing else is asked. *)
Definition gcloud_bad_key : Gcloud := {|
  gcloud_list := λ _ _, Some [];
  gcloud_describe := λ _ _, Some ∅;
  gcloud_services := λ _ _, Some "";
  gcloud_call := λ _ _, false
|}.

(** The services query itself exits non-zero. *)
Definition gcloud_no_services : Gcloud := {|
  gcloud_list := λ _ _, Some [];
  gcloud_describe := λ _ _, Some ∅;
  gcloud_services := λ _ _, None;
  gcloud_call := λ _ _, true
|}.

(** The subnets of the catalog: the one resource that tolerates
    failures. *)
Definition subnets : Resource :=
  Build_Resource "" "compute" "networks" (Some "subnets") (Some "region") None
    true true None.

(** One subnet with two secondary ranges; removing them exits
    non-zero. *)
Definition gcloud_one_subnet : Gcloud := {|
  gcloud_list := λ _ cmd,
    if bool_decide (take 5 cmd = ["gcloud"; "compute"; "networks"; "subnets"; "list"])
    then Some [item_of [("name", JStr "s1");
                        ("region", JStr "https://www.googleapis.com/compute/v1/projects/p/regions/us-central1")]]
    else Some [];
  gcloud_describe := λ _ _,
    Some {[ "secondaryIpRanges" :=
              [item_of [("rangeName", JStr "pods")];
               item_of [("rangeName", JStr "services")]] ]};
  gcloud_services := λ _ _, Some "";
  gcloud_call := λ _ _, false
|}.

(** The number of lines printed on stderr so far. *)
Definition printed (s : state) : nat := length (stderr_lines (trace s)).

(** A result that is not [SystemExit], and a step that never takes a line
    back from stderr and never raises [SystemExit]. *)
Definition no_exit {A} (r : result A) : Prop := ∀ c, r ≠ Raise (SystemExit c).

Definition tame {A} (m : M A) : Prop :=
  ∀ s, (printed s ≤ printed (m s).1)%nat ∧ no_exit (m s).2.

(** * Properties *)

(** ** Results of the small Python operations *)

Lemma json_in_strs_elem (n : string) (names : list string) :
  json_in_strs (JStr n) names = true ↔ n ∈ names.
Proof.
  unfold json_in_strs. rewrite existsb_exists. split.
  - intros (x & Hx & Heq). simpl in Heq. apply String.eqb_eq in Heq. subst.
    by apply list_elem_of_In.
  - intros Hn. exists n. split; [by apply list_elem_of_In|].
    simpl. apply String.eqb_refl.
Qed.

Lemma str_truthy_Some (m : string) : m ≠ "" → str_truthy (Some m) = true.
Proof.
  intros Hm. simpl. destruct (String.eqb_spec m ""); [done|reflexivity].
Qed.

Lemma list_truthy_elem {A} (names : list A) (n : A) :
  n ∈ names → list_truthy (Some names) = true.
Proof. destruct names; [by intros ?%elem_of_nil|done]. Qed.

Lemma is_preserved_elem resource item names n :
  preserved_names resource = Some names →
  item !! "name" = Some (JStr n) →
  n ∈ names →
  is_preserved resource item = Ok true.
Proof.
  intros Hp Hname Hn. unfold is_preserved, dict_getitem.
  rewrite Hp, (list_truthy_elem names n Hn), Hname. simpl.
  unfold mret, result_ret. f_equal. by apply json_in_strs_elem.
Qed.

Lemma validate_item_preserved_false `{Datetime} item age resource clear_all :
  is_preserved resource item = Ok true →
  validate_item item age resource clear_all = Ok false.
Proof. intros Hp. unfold validate_item. by rewrite Hp. Qed.

(** ** Loops *)

(** An invariant of the loop variables that every normal iteration keeps
    holds when the loop ends normally. *)
Lemma for_each_invariant {A S} (I : S → Prop) (l : list A) (body : S → A → M S) :
  (∀ acc x s s' acc', I acc → body acc x s = (s', Ok acc') → I acc') →
  ∀ acc s s' acc', I acc → for_each l body acc s = (s', Ok acc') → I acc'.
Proof.
  intros Hbody. induction l as [|x l IH]; intros acc s s' acc' Hacc Hrun.
  - simpl in Hrun. unfold ret in Hrun. by simplify_eq.
  - simpl in Hrun. unfold bind in Hrun.
    destruct (body acc x s) as [s1 [acc1|e]] eqn:Hx; [|done].
    eapply IH; [|exact Hrun]. eapply Hbody; eauto.
Qed.

Lemma dd_append_elem col k v k' g x :
  (k', g) ∈ dd_append col k v → x ∈ g →
  x = v ∨ ∃ g0, (k', g0) ∈ col ∧ x ∈ g0.
Proof.
  induction col as [|[k0 vs] col IH]; simpl; intros Hin Hx.
  - apply list_elem_of_singleton in Hin. simplify_eq.
    apply list_elem_of_singleton in Hx. by left.
  - destruct (String.eqb k0 k).
    + apply elem_of_cons in Hin as [Heq|Hin].
      * simplify_eq. apply elem_of_app in Hx as [Hx|Hx].
        -- right. exists vs. split; [apply list_elem_of_here|done].
        -- apply list_elem_of_singleton in Hx. by left.
      * right. exists g. split; [by apply list_elem_of_further|done].
    + apply elem_of_cons in Hin as [Heq|Hin].
      * simplify_eq. right. exists vs. split; [apply list_elem_of_here|done].
      * destruct (IH Hin Hx) as [?|(g0 & Hg0 & Hx0)]; [by left|].
        right. exists g0. split; [by apply list_elem_of_further|done].
Qed.

Lemma collect_item_name_free `{Datetime} age resource clear_all names n col item col' :
  preserved_names resource = Some names → n ∈ names →
  name_free n col →
  collect_item age resource clear_all col item = Ok col' →
  name_free n col'.
Proof.
  intros Hp Hn Hfree. unfold collect_item.
  destruct (negb (dict_contains item "name")); [done|].
  destruct (item_colname resource item) as [[colname|]|e]; simpl; [| |done].
  - destruct (validate_item item age resource clear_all) as [[|]|e] eqn:Hv;
      simpl; [| |done].
    + unfold dict_getitem.
      destruct (item !! "name") as [v|] eqn:Hname; simpl; [|done].
      intros Heq. injection Heq as <-. intros k g Hin Hx.
      destruct (dd_append_elem _ _ _ _ _ _ Hin Hx) as [Hv'|(g0 & Hg0 & Hx0)].
      * subst v.
        rewrite (validate_item_preserved_false item age resource clear_all) in Hv;
          [done|]. by eapply is_preserved_elem.
      * by eapply Hfree.
    + intros Heq. by injection Heq as <-.
  - intros Heq. by injection Heq as <-.
Qed.

(** ** CandidateFilter *)

(** C1. A listed item whose name is in the resource's [preserved_names] is
    out of scope for [validate_item], whatever the cutoff, the item's other
    fields and the clear-all flag; and whatever [collect] returns, no group
    of it holds that name. *)
Theorem preserved_never_candidate `{Datetime, Gcloud} resource names n :
  preserved_names resource = Some names →
  n ∈ names →
  (∀ item age clear_all,
     item !! "name" = Some (JStr n) →
     validate_item item age resource clear_all = Ok false) ∧
  (∀ project zones age filt clear_all s s' col,
     collect project zones age resource filt clear_all s = (s', Ok col) →
     ∀ colname g, (colname, g) ∈ col → JStr n ∉ g).
Proof.
  intros Hp Hn. split.
  - intros item age clear_all Hname.
    apply validate_item_preserved_false. by eapply is_preserved_elem.
  - intros project zones age filt clear_all s s' col Hrun.
    assert (Hnil : name_free n []) by (intros ?? []%elem_of_nil).
    unfold collect in Hrun.
    destruct (String.eqb (name resource) "sinks" && negb clear_all).
    { unfold ret in Hrun. by simplify_eq. }
    unfold bind, check_output_list in Hrun.
    match type of Hrun with
    | context [gcloud_list ?e ?c] => destruct (gcloud_list e c) as [items|]
    end.
    + revert Hrun. apply (for_each_invariant (name_free n)); [|done].
      intros acc x s0 s1 acc' Hacc Hx. unfold lift in Hx. simplify_eq.
      by eapply collect_item_name_free.
    + destruct (tolerate resource); unfold ret, raise in Hrun; by simplify_eq.
Qed.

Lemma preserved_never_candidate_witness :
  preserved_names sinks = Some ["_Default"; "_Required"] ∧
  "_Default" ∈ ["_Default"; "_Required"] ∧
  validate_item (H := clock_2025)
    (item_of [("name", JStr "_Default");
              ("creationTimestamp", JStr "2000-01-01T00:00:00")])
    1735689600 sinks true = Ok false.
Proof.
  split; [reflexivity|]. split; [apply list_elem_of_here|].
  apply (proj1 (preserved_never_candidate (H := clock_2025) (H0 := gcloud_empty)
                  sinks ["_Default"; "_Required"] "_Default"
                  eq_refl (list_elem_of_here _ _))).
  reflexivity.
Defined.

Lemma json_eq_str_true v m : json_eq_str v m = true ↔ v = JStr m.
Proof.
  destruct v; simpl; try (split; [done|by intros ?]).
  rewrite String.eqb_eq. split; [by intros ->|by intros [= ->]].
Qed.

Lemma json_eq_str_false v m : json_eq_str v m = false ↔ v ≠ JStr m.
Proof.
  rewrite <- json_eq_str_true. destruct (json_eq_str v m); split; congruence.
Qed.

Lemma managed_mismatch_lookup resource item m :
  managed resource = Some m → m ≠ "" →
  managed_mismatch resource item =
    match item !! "isManaged" with
    | None => Raise ValueError
    | Some v => Ok (negb (json_eq_str v m))
    end.
Proof.
  intros Hm Hne. unfold managed_mismatch, dict_contains, dict_getitem.
  rewrite Hm, (str_truthy_Some m Hne).
  by destruct (item !! "isManaged").
Qed.

(** C10. With a managed filter on the resource, an item whose name is in
    [preserved_names] and that has no [isManaged] field is out of scope
    and raises nothing: the preservation check comes first.  The same item
    under the same resource without preserved names raises [ValueError]. *)
Theorem preserved_checked_before_managed `{Datetime}
    item age resource clear_all names n m :
  managed resource = Some m → m ≠ "" →
  preserved_names resource = Some names →
  item !! "name" = Some (JStr n) → n ∈ names →
  item !! "isManaged" = None →
  validate_item item age resource clear_all = Ok false ∧
  validate_item item age (without_preserved_names resource) clear_all
    = Raise ValueError.
Proof.
  intros Hm Hne Hp Hname Hn Hmissing. split.
  - apply validate_item_preserved_false. by eapply is_preserved_elem.
  - unfold validate_item, is_preserved. simpl.
    rewrite (managed_mismatch_lookup _ item m); [|done|done].
    by rewrite Hmissing.
Qed.

Lemma preserved_checked_before_managed_witness :
  let resource :=
    Build_Resource "" "compute" "instance-groups" None (Some "zone") (Some "Yes")
      false true (Some ["keep"]) in
  let item := item_of [("name", JStr "keep"); ("zone", JStr "us-central1-a")] in
  validate_item (H := clock_2025) item 1735689600 resource false = Ok false ∧
  validate_item (H := clock_2025) item 1735689600
    (without_preserved_names resource) false = Raise ValueError.
Proof.
  intros resource item.
  apply (preserved_checked_before_managed (H := clock_2025)
           item 1735689600 resource false ["keep"] "keep" "Yes");
    try reflexivity; [discriminate|apply list_elem_of_here].
Defined.

(** C2. For an item that is not preserved and passes the managed check:
    under clear-all it is in scope whatever its timestamps; otherwise the
    filter raises [ValueError] when the item has no creation timestamp, and
    when it has one, read as the instant [created], the item is in scope
    exactly when [created < age]. *)
Theorem age_cutoff `{Datetime} item age resource :
  is_preserved resource item = Ok false →
  managed_mismatch resource item = Ok false →
  is_Some (item !! "name") →
  validate_item item age resource true = Ok true ∧
  (creation_timestamp item = JNull →
   validate_item item age resource false = Raise ValueError) ∧
  (∀ ts created,
     creation_timestamp item = JStr ts → strptime ts = Some created →
     ∃ in_scope, validate_item item age resource false = Ok in_scope ∧
                 (in_scope = true ↔ created < age)).
Proof.
  intros Hp Hm [v Hname]. unfold validate_item. rewrite Hp, Hm. simpl.
  split; [done|]. split.
  - by intros ->.
  - intros ts created -> Hts. simpl. rewrite Hts. simpl.
    unfold dict_getitem. rewrite Hname. simpl.
    eexists. split; [reflexivity|]. apply bool_decide_eq_true.
Qed.

Lemma age_cutoff_witness :
  let item := item_of [("name", JStr "disk-1");
                       ("creationTimestamp", JStr "2020-01-01T00:00:00")] in
  let resource :=
    Build_Resource "" "compute" "disks" None None None false true None in
  validate_item (H := clock_2025) item 1735689600 resource true = Ok true ∧
  ∃ in_scope,
    validate_item (H := clock_2025) item 1735689600 resource false = Ok in_scope ∧
    (in_scope = true ↔ 1577836800 < 1735689600).
Proof.
  intros item resource.
  pose proof (age_cutoff (H := clock_2025) item 1735689600 resource
                eq_refl eq_refl (ex_intro _ (JStr "disk-1") eq_refl))
    as (Hall & _ & Hage).
  split; [exact Hall|].
  apply (Hage "2020-01-01T00:00:00" 1577836800); reflexivity.
Defined.

(** C3. For a resource with a managed filter [m] and an item that is not
    preserved: without [isManaged] the filter raises [ValueError]; with a
    value other than [m] the item is out of scope; with the value [m] the
    filter answers as it does for the same resource without a managed
    filter, that is by the age check alone. *)
Theorem managed_filter `{Datetime} item age resource clear_all m :
  managed resource = Some m → m ≠ "" →
  is_preserved resource item = Ok false →
  (item !! "isManaged" = None →
   validate_item item age resource clear_all = Raise ValueError) ∧
  (∀ v, item !! "isManaged" = Some v → v ≠ JStr m →
        validate_item item age resource clear_all = Ok false) ∧
  (item !! "isManaged" = Some (JStr m) →
   validate_item item age resource clear_all =
   validate_item item age (with_managed resource None) clear_all).
Proof.
  intros Hm Hne Hp.
  assert (Hp' : is_preserved (with_managed resource None) item = Ok false)
    by exact Hp.
  unfold validate_item. rewrite Hp, Hp'. simpl.
  rewrite (managed_mismatch_lookup _ item m); [|done|done].
  split; [by intros ->|]. split.
  - intros v -> Hv. apply json_eq_str_false in Hv. by rewrite Hv.
  - intros ->. simpl. by rewrite String.eqb_refl.
Qed.

Lemma managed_filter_witness :
  let item := item_of [("name", JStr "ig-1"); ("isManaged", JStr "Yes");
                       ("creationTimestamp", JStr "2020-01-01T00:00:00")] in
  validate_item (H := clock_2025) item 1735689600 managed_groups false =
  validate_item (H := clock_2025) item 1735689600
    (with_managed managed_groups None) false.
Proof.
  intros item.
  apply (managed_filter (H := clock_2025) item 1735689600 managed_groups false "Yes");
    try reflexivity. discriminate.
Defined.

(** ** BatchDeleter: chunking *)

Lemma ceil_div_spec (a b : Z) :
  0 < b → a ≤ ceil_div a b * b ∧ (ceil_div a b - 1) * b < a.
Proof.
  intros Hb. unfold ceil_div.
  pose proof (Z.div_mod (a + b - 1) b ltac:(lia)) as Hdm.
  pose proof (Z.mod_pos_bound (a + b - 1) b Hb) as Hmod.
  nia.
Qed.

(** A slice that starts inside the list and has a positive width. *)
Lemma py_slice_inside {A} (items : list A) (i k : Z) :
  0 ≤ i → 0 ≤ k →
  py_slice items i (i + k) =
  take (Z.to_nat (Z.min (i + k) (Z.of_nat (length items)) -
                  Z.min i (Z.of_nat (length items))))
       (drop (Z.to_nat (Z.min i (Z.of_nat (length items)))) items).
Proof.
  intros Hi Hk. unfold py_slice, slice_index.
  destruct (Z.ltb_spec i 0); [lia|].
  destruct (Z.ltb_spec (i + k) 0); [lia|]. reflexivity.
Qed.

Lemma chunk_step {A} (items : list A) (i k : Z) :
  0 ≤ i → 1 ≤ k → i < Z.of_nat (length items) →
  let c := py_slice items i (i + k) in
  c ++ drop (Z.to_nat (i + k)) items = drop (Z.to_nat i) items ∧
  Z.of_nat (length c) = Z.min k (Z.of_nat (length items) - i).
Proof.
  intros Hi Hk Hlt. simpl. rewrite py_slice_inside by lia.
  rewrite (Z.min_l i) by lia.
  set (l' := drop (Z.to_nat i) items).
  assert (Hl' : length l' = (length items - Z.to_nat i)%nat)
    by (unfold l'; by rewrite length_drop).
  replace (drop (Z.to_nat (i + k)) items) with (drop (Z.to_nat k) l').
  2:{ unfold l'. rewrite drop_drop. f_equal. lia. }
  destruct (Z.le_gt_cases (i + k) (Z.of_nat (length items))) as [Hle|Hgt].
  - rewrite Z.min_l by lia. replace (Z.to_nat (i + k - i)) with (Z.to_nat k) by lia.
    split; [apply take_drop|]. rewrite length_take. lia.
  - rewrite Z.min_r by lia.
    rewrite take_ge by lia. rewrite drop_ge by lia.
    split; [apply app_nil_r|]. lia.
Qed.

(** The chunks cut from index [i] on. *)
Lemma chunks_from {A} (items : list A) (k : Z) (fuel : nat) (i : Z) :
  1 ≤ k → 0 ≤ i → Z.of_nat (length items) - i ≤ Z.of_nat fuel →
  let n := Z.of_nat (length items) in
  let cs := map (λ idx, py_slice items idx (idx + k)) (range_up fuel i n k) in
  concat cs = drop (Z.to_nat i) items ∧
  (i ≤ n + k - 1 → Z.of_nat (length cs) = ceil_div (n - i) k) ∧
  Forall (λ c, 1 ≤ Z.of_nat (length c) ≤ k) cs ∧
  (∀ j c, cs !! j = Some c → (S j < length cs)%nat → Z.of_nat (length c) = k).
Proof.
  intros Hk. revert i. induction fuel as [|fuel IH]; intros i Hi Hfuel; simpl.
  - split; [by rewrite drop_ge by lia|]. split.
    + intros Hup. unfold ceil_div. symmetry. apply Z.div_small. lia.
    + split; [constructor|]. by intros j c [=].
  - case_bool_decide as Hlt; simpl.
    + destruct (IH (i + k) ltac:(lia) ltac:(lia)) as (Hcat & Hlen & Hall & Hfull).
      destruct (chunk_step items i k Hi Hk Hlt) as [Happ Hc]. simpl in Happ, Hc.
      split; [by rewrite Hcat|]. split; [|split].
      * intros _. rewrite Nat2Z.inj_succ, Hlen by lia. unfold ceil_div.
        replace (Z.of_nat (length items) - i + k - 1)
          with (Z.of_nat (length items) - (i + k) + k - 1 + 1 * k) by lia.
        rewrite Z.div_add by lia. lia.
      * constructor; [lia|exact Hall].
      * intros [|j] c Hj Hnext; simpl in Hj.
        -- injection Hj as <-. rewrite Hc.
           destruct (Z.le_gt_cases (i + k) (Z.of_nat (length items))) as [Hle|Hgt];
             [lia|].
           exfalso. rewrite length_map in Hnext.
           destruct fuel; simpl in Hnext; [lia|].
           rewrite bool_decide_false in Hnext by lia. simpl in Hnext. lia.
        -- apply (Hfull j c Hj). lia.
    + split; [by rewrite drop_ge by lia|]. split.
      * intros Hup. unfold ceil_div. symmetry. apply Z.div_small. lia.
      * split; [constructor|]. by intros j c [=].
Qed.

(** [range(0, N, k)] with the slices [items[idx:idx + k]], for a step
    [k >= 1]: [ceil(N / k)] consecutive chunks, every one but the last of
    exactly [k] elements, the last of between 1 and [k], and the chunks
    concatenated in order are the list. *)
Lemma batches_of_positive_step {A} (items : list A) (k : Z) :
  1 ≤ k →
  Z.of_nat (length (batches_of items k)) = ceil_div (Z.of_nat (length items)) k ∧
  (∀ j c, batches_of items k !! j = Some c →
          (S j < length (batches_of items k))%nat →
          Z.of_nat (length c) = k) ∧
  Forall (λ c, 1 ≤ Z.of_nat (length c) ≤ k) (batches_of items k) ∧
  concat (batches_of items k) = items.
Proof.
  intros Hk. unfold batches_of, chunks, py_range.
  destruct (Z.eqb_spec k 0); [lia|]. destruct (Z.ltb_spec 0 k); [|lia]. simpl.
  destruct (chunks_from items k (Z.to_nat (Z.of_nat (length items) - 0)) 0
              Hk ltac:(lia) ltac:(lia)) as (Hcat & Hlen & Hall & Hfull).
  simpl in *. rewrite Z.sub_0_r in *.
  split; [apply Hlen; lia|]. split; [exact Hfull|]. split; [exact Hall|].
  by rewrite Hcat.
Qed.

(** With step 1 every chunk is one name. *)
Lemma chunks_one_by_one {A} (items : list A) :
  ∃ batches,
    chunks items 1 = Ok batches ∧
    Forall (λ c, length c = 1%nat) batches ∧
    concat batches = items.
Proof.
  unfold chunks, py_range. simpl.
  eexists. split; [reflexivity|].
  destruct (chunks_from items 1 (Z.to_nat (Z.of_nat (length items) - 0)) 0
              ltac:(lia) ltac:(lia) ltac:(lia)) as (Hcat & _ & Hall & _).
  simpl in *. split; [|by rewrite Hcat].
  eapply Forall_impl; [exact Hall|]. simpl. intros c Hc. lia.
Qed.

(** ** Runs of the whole program *)

(** Whatever the catalog and the project: when the subnet listing exits
    non-zero the run ends in an uncaught [CalledProcessError] right after
    that call. *)
Lemma subnet_listing_failure_uncaught `{Datetime, Gcloud, Args}
    catalog project days hours filt rate_limit additional_zones s :
  gcloud_list (environ s) (subnets_cmd project filt) = None →
  main catalog project days hours filt rate_limit None additional_zones false s =
  ({| environ := environ s; trace := trace s ++ [EvRun (subnets_cmd project filt)] |},
   Raise CalledProcessError).
Proof.
  intros Hlist. unfold main. cbn [str_truthy]. unfold bind at 1. unfold ret at 1.
  unfold bind at 1. unfold ret at 1. unfold bind at 1.
  unfold try_clean_secondary_ip_ranges, try_except, clean_secondary_ip_ranges.
  unfold bind at 1. unfold check_output_list at 1. cbn [environ]. rewrite Hlist.
  reflexivity.
Qed.

(** C7. When the first call of the subnet cleaner, the subnet listing,
    exits non-zero, [clean_secondary_ip_ranges] re-raises
    [CalledProcessError]; the driver's [except ValueError] does not catch
    it, so the run ends there with status 1: no endpoint is visited and no
    resource of the catalog is searched. *)
Theorem subnet_listing_failure_ends_run :
  let r := run (H := clock_2025) (H0 := gcloud_no_listing) (H1 := no_dryrun)
             RESOURCES_BY_API "p" 1 0 "name !~ ^default" 50 None [] false in
  r.2 = Raise CalledProcessError ∧
  exit_status r.2 = 1 ∧
  trace r.1 = [EvRun ["gcloud"; "compute"; "networks"; "subnets"; "list";
                      "--project=p"; "--filter=name !~ ^default";
                      "--format=json(name,region)"]] ∧
  endpoints_visited (trace r.1) = [] ∧
  searched (trace r.1) = [].
Proof. vm_compute. repeat split; reflexivity. Qed.

(** C9. One resource with 256 failed delete calls and no other failure:
    [clear_resources] returns the count 256, the driver exits with
    [sys.exit(256)], and the status the operating system receives is 0. *)
Theorem exit_status_zero_after_256_failures :
  let r := run (H := clock_2025) (H0 := gcloud_failing_deletes 256)
             (H1 := no_dryrun)
             RESOURCES_BY_API "p" 0 0 "name !~ ^default" 50 None [] false in
  r.2 = Raise (SystemExit 256) ∧
  exit_status r.2 = 0 ∧
  length (stderr_lines (trace r.1)) = 256%nat ∧
  searched (trace r.1) = [("gkehub.googleapis.com", hub_memberships)].
Proof. vm_compute. repeat split; reflexivity. Qed.

(** With fewer failures the count itself is the status: one failed delete
    call exits 1, three exit 3, and 255 exit 255. *)
Example exit_status_counts_failures :
  let status n :=
    exit_status (run (H := clock_2025) (H0 := gcloud_failing_deletes n)
                   (H1 := no_dryrun) RESOURCES_BY_API "p" 0 0 "name !~ ^default"
                   50 None [] false).2 in
  status 0%nat = 0 ∧ status 1%nat = 1 ∧ status 3%nat = 3 ∧ status 255%nat = 255.
Proof. vm_compute. repeat split; reflexivity. Qed.

(** ** Steps that leave the environment and the markers alone *)

Lemma quiet_ret {A} (a : A) : quiet (ret a).
Proof. intros s. split; [done|]. exists []. by rewrite app_nil_r. Qed.

Lemma quiet_raise {A} (e : exn) : quiet (raise (A := A) e).
Proof. intros s. split; [done|]. exists []. by rewrite app_nil_r. Qed.

Lemma quiet_lift {A} (r : result A) : quiet (lift r).
Proof. intros s. split; [done|]. exists []. by rewrite app_nil_r. Qed.

Lemma quiet_bind {A B} (m : M A) (f : A → M B) :
  quiet m → (∀ a, quiet (f a)) → quiet (bind m f).
Proof.
  intros Hm Hf s. unfold bind.
  destruct (Hm s) as [Henv (evs & Htr & Hq)].
  destruct (m s) as [s1 [a|e]]; simpl in *.
  - destruct (Hf a s1) as [Henv' (evs' & Htr' & Hq')].
    split; [congruence|]. exists (evs ++ evs').
    rewrite Htr', Htr, app_assoc. split; [done|]. by apply Forall_app.
  - split; [done|]. by exists evs.
Qed.

Lemma quiet_for_each {A S} (l : list A) (body : S → A → M S) (acc : S) :
  (∀ acc x, quiet (body acc x)) → quiet (for_each l body acc).
Proof.
  intros Hbody. revert acc. induction l as [|x l IH]; intros acc; simpl.
  - apply quiet_ret.
  - apply quiet_bind; [apply Hbody|]. intros acc'. apply IH.
Qed.

Lemma quiet_emit (e : event) : quiet_event e = true → quiet (emit e).
Proof. intros He s. split; [done|]. exists [e]. split; [done|]. by constructor. Qed.

Lemma quiet_check_call `{Gcloud} cmd : quiet (check_call cmd).
Proof. intros s. split; [done|]. exists [EvRun cmd]. split; [done|]. by constructor. Qed.

Lemma quiet_check_output_list `{Gcloud} cmd : quiet (check_output_list cmd).
Proof. intros s. split; [done|]. exists [EvRun cmd]. split; [done|]. by constructor. Qed.

Lemma quiet_asyncCall `{Gcloud, Args} cmd tol nm errs hide :
  quiet (asyncCall cmd tol nm errs hide).
Proof.
  unfold asyncCall. destruct dryrun; [apply quiet_ret|].
  destruct (cmd_args cmd); [|apply quiet_ret].
  apply quiet_bind; [apply quiet_check_call|]. intros [|]; [apply quiet_ret|].
  apply quiet_bind; [|intros; apply quiet_ret].
  apply quiet_emit. reflexivity.
Qed.

Lemma quiet_collect `{Datetime, Gcloud} project zones age resource filt clear_all :
  quiet (collect project zones age resource filt clear_all).
Proof.
  unfold collect.
  destruct (String.eqb (name resource) "sinks" && negb clear_all); [apply quiet_ret|].
  apply quiet_bind; [apply quiet_check_output_list|]. intros [items|].
  - apply quiet_for_each. intros. apply quiet_lift.
  - destruct (tolerate resource); [apply quiet_ret|apply quiet_raise].
Qed.

Lemma quiet_clear_resources `{Gcloud, Args} project cols resource rate_limit :
  quiet (clear_resources project cols resource rate_limit).
Proof.
  unfold clear_resources.
  apply quiet_bind; [|intros; apply quiet_ret].
  apply quiet_for_each. intros errs [col items].
  apply quiet_bind; [apply quiet_lift|]. intros base.
  apply quiet_bind; [apply quiet_lift|]. intros batches.
  apply quiet_for_each. intros. apply quiet_asyncCall.
Qed.

Lemma quiet_collect_and_clear `{Datetime, Gcloud, Args}
    project zones age filt clear_all rate_limit err res :
  quiet (collect_and_clear project zones age filt clear_all rate_limit err res).
Proof.
  unfold collect_and_clear.
  apply quiet_bind; [apply quiet_collect|]. intros [|? ?]; [apply quiet_ret|].
  apply quiet_bind; [apply quiet_clear_resources|]. intros; apply quiet_ret.
Qed.

(** What quiet events contribute to the three views of a trace. *)
Lemma quiet_views (evs : list event) :
  Forall (λ e, quiet_event e = true) evs →
  searched evs = [] ∧ endpoints_visited evs = [] ∧ list_failures evs = [].
Proof.
  unfold list_failures, stderr_lines, searched, endpoints_visited.
  induction 1 as [|e evs He _ (IH1 & IH2 & IH3)]; [done|].
  destruct e as [k v|cmd|msg|api res]; simpl in *; try done.
  split; [done|]. split; [done|].
  rewrite filter_cons. destruct (String.prefix _ msg); [done|].
  rewrite decide_False by done. exact IH3.
Qed.

Lemma searched_app (tr1 tr2 : list event) :
  searched (tr1 ++ tr2) = searched tr1 ++ searched tr2.
Proof. apply omap_app. Qed.

Lemma endpoints_visited_app (tr1 tr2 : list event) :
  endpoints_visited (tr1 ++ tr2) = endpoints_visited tr1 ++ endpoints_visited tr2.
Proof. apply omap_app. Qed.

Lemma list_failures_app (tr1 tr2 : list event) :
  list_failures (tr1 ++ tr2) = list_failures tr1 ++ list_failures tr2.
Proof. unfold list_failures, stderr_lines. by rewrite omap_app, filter_app. Qed.

(** ** ClusterSweeper *)

Lemma for_each_cons {A S} (x : A) (l : list A) (body : S → A → M S) (acc : S)
    (s : state) :
  for_each (x :: l) body acc s =
  match body acc x s with
  | (s1, Ok acc1) => for_each l body acc1 s1
  | (s1, Raise e) => (s1, Raise e)
  end.
Proof. reflexivity. Qed.

Lemma for_each_app {A S} (l1 l2 : list A) (body : S → A → M S) (acc : S) (s : state) :
  for_each (l1 ++ l2) body acc s =
  bind (for_each l1 body acc) (λ acc', for_each l2 body acc') s.
Proof.
  revert acc s. induction l1 as [|x l1 IH]; intros acc s.
  - reflexivity.
  - rewrite <- app_comm_cons, for_each_cons. unfold bind. rewrite for_each_cons.
    destruct (body acc x s) as [s1 [acc1|e]]; [|reflexivity].
    rewrite IH. reflexivity.
Qed.

Lemma malformed_cluster_raises `{Datetime} item :
  malformed_cluster item → cluster_created item = Raise ValueError.
Proof.
  unfold cluster_created, dict_contains.
  intros [Hn|[Hc|[Hz Hr]]].
  - by rewrite Hn.
  - rewrite Hc. by destruct (item !! "name").
  - rewrite Hz, Hr. by destruct (item !! "name"), (item !! "createTime").
Qed.

Lemma cluster_created_name `{Datetime} item t :
  cluster_created item = Ok t → is_Some (item !! "name").
Proof.
  unfold cluster_created, dict_contains.
  destruct (item !! "name"); [by eauto|done].
Qed.

Lemma asyncCall_returns `{Gcloud, Args} cmd tol nm errs hide s :
  ∃ errs', (asyncCall cmd tol nm errs hide s).2 = Ok errs'.
Proof.
  unfold asyncCall. destruct dryrun; [by eexists|].
  destruct (cmd_args cmd); [|by eexists].
  unfold bind, check_call, emit, ret. simpl.
  destruct (gcloud_call _ _); by eexists.
Qed.

Lemma quiet_sweep_cluster `{Datetime, Gcloud, Args} project age errs item :
  quiet (sweep_cluster project age errs item).
Proof.
  unfold sweep_cluster. apply quiet_bind; [apply quiet_lift|]. intros created.
  case_bool_decide; [|apply quiet_ret].
  apply quiet_bind; [apply quiet_lift|]. intros n. apply quiet_asyncCall.
Qed.

Lemma sweep_cluster_returns `{Datetime, Gcloud, Args} project age errs item t s :
  cluster_created item = Ok t →
  ∃ errs', (sweep_cluster project age errs item s).2 = Ok errs'.
Proof.
  intros Hc. destruct (cluster_created_name item t Hc) as [n Hn].
  unfold sweep_cluster, bind, lift. rewrite Hc.
  case_bool_decide; [|by eexists].
  unfold dict_getitem. rewrite Hn.
  match goal with
  | |- context [asyncCall ?c ?t ?n ?e ?h s] =>
      destruct (asyncCall_returns c t n e h s) as [errs' Herrs];
      destruct (asyncCall c t n e h s) as [s1 r]
  end.
  simpl in *. by eexists.
Qed.

Lemma sweep_good_records `{Datetime, Gcloud, Args} project age good errs s :
  Forall (λ item, ∃ t, cluster_created item = Ok t) good →
  ∃ errs', (for_each good (sweep_cluster project age) errs s).2 = Ok errs'.
Proof.
  intros Hgood. revert errs s.
  induction Hgood as [|item good [t Ht] _ IH]; intros errs s; simpl.
  - by eexists.
  - unfold bind.
    destruct (sweep_cluster_returns project age errs item t s Ht) as [errs1 Hret].
    destruct (sweep_cluster project age errs item s) as [s1 r]. simpl in Hret.
    subst r. apply IH.
Qed.

Lemma sweep_malformed_record `{Datetime, Gcloud, Args}
    project age good bad more errs s :
  Forall (λ item, ∃ t, cluster_created item = Ok t) good →
  malformed_cluster bad →
  (for_each (good ++ bad :: more) (sweep_cluster project age) errs s).2
    = Raise ValueError.
Proof.
  intros Hgood Hbad. rewrite for_each_app. unfold bind at 1.
  destruct (sweep_good_records project age good errs s Hgood) as [errs1 Hret].
  destruct (for_each good _ errs s) as [s1 r]. simpl in Hret. subst r.
  simpl. unfold bind at 1. unfold sweep_cluster at 1. unfold bind at 1, lift.
  by rewrite (malformed_cluster_raises bad Hbad).
Qed.

Lemma sweep_endpoint_unfold `{Datetime, Gcloud, Args}
    project age filt errs endpoint s :
  sweep_endpoint project age filt errs endpoint s =
  match gcloud_list (<[CONTAINER_OVERRIDE := endpoint]> (environ s))
                    (clusters_cmd project filt) with
  | None => (listed project filt endpoint s, Ok errs)
  | Some output =>
      for_each output (sweep_cluster project age) errs
               (listed project filt endpoint s)
  end.
Proof.
  unfold sweep_endpoint, bind, setenv, check_output_list, listed. simpl.
  by destruct (gcloud_list _ _).
Qed.

(** C8, as the code has it.  An endpoint whose listing exits non-zero is
    skipped and the sweep goes on with the endpoints after it.  A cluster
    record without a name, without a creation time, or with neither zone
    nor region, met after records that parse, raises [ValueError] out of
    the whole sweep: the endpoints after it are not visited.  The driver
    catches that [ValueError], sets bit 0 of the failure value and goes on
    to the catalog. *)
Theorem cluster_sweep_failures `{Datetime, Gcloud, Args}
    project age filt errs endpoint rest s :
  let listing :=
    gcloud_list (<[CONTAINER_OVERRIDE := endpoint]> (environ s))
                (clusters_cmd project filt) in
  (listing = None →
   ∃ s1, sweep_endpoint project age filt errs endpoint s = (s1, Ok errs) ∧
         for_each (endpoint :: rest) (sweep_endpoint project age filt) errs s =
         for_each rest (sweep_endpoint project age filt) errs s1) ∧
  (∀ good bad more,
     listing = Some (good ++ bad :: more) →
     Forall (λ item, ∃ t, cluster_created item = Ok t) good →
     malformed_cluster bad →
     ∃ s', for_each (endpoint :: rest) (sweep_endpoint project age filt) errs s
             = (s', Raise ValueError) ∧
           endpoints_visited (trace s') = endpoints_visited (trace s) ++ [endpoint]) ∧
  (∀ s0 s' err,
     clean_gke_cluster project age filt s0 = (s', Raise ValueError) →
     ∃ s'', try_clean_gke_cluster project age filt err s0 = (s'', Ok (Z.lor err 1)) ∧
            trace s'' = trace s' ++
              [EvStderr ("Fail to clean up cluster from project " +:+ project)]).
Proof.
  intros listing. split; [|split].
  - intros Hnone. exists (listed project filt endpoint s).
    rewrite for_each_cons, sweep_endpoint_unfold. fold listing.
    by rewrite Hnone.
  - intros good bad more Hsome Hgood Hbad.
    rewrite for_each_cons, sweep_endpoint_unfold. fold listing. rewrite Hsome.
    pose proof (sweep_malformed_record project age good bad more errs
                  (listed project filt endpoint s) Hgood Hbad) as Hraise.
    destruct (quiet_for_each (good ++ bad :: more) (sweep_cluster project age) errs
                (λ acc x, quiet_sweep_cluster project age acc x)
                (listed project filt endpoint s)) as [_ (evs & Htr & Hq)].
    destruct (for_each (good ++ bad :: more) _ errs _) as [s' r].
    simpl in Hraise, Htr. subst r. eexists. split; [reflexivity|].
    rewrite Htr, !endpoints_visited_app.
    destruct (quiet_views evs Hq) as (_ & -> & _). simpl.
    by rewrite !app_nil_r.
  - intros s0 s' err Hrun. unfold try_clean_gke_cluster, try_except, bind.
    rewrite Hrun. simpl. unfold bind, emit, ret. simpl.
    eexists. split; reflexivity.
Qed.

Lemma cluster_sweep_failures_witness :
  let bad := item_of [("createTime", JStr "2020-01-01T00:00:00+00:00");
                      ("zone", JStr "us-central1-a")] in
  malformed_cluster bad ∧
  ∃ s', for_each endpoints
          (sweep_endpoint (H := clock_2025) (H0 := gcloud_nameless_cluster)
             (H1 := no_dryrun) "p" 1735689600 "f") [] initial_state
          = (s', Raise ValueError) ∧
        endpoints_visited (trace s') =
          endpoints_visited (trace initial_state) ++
          ["https://test-container.sandbox.googleapis.com/"].
Proof.
  intros bad. split; [by left|].
  destruct (cluster_sweep_failures (H := clock_2025) (H0 := gcloud_nameless_cluster)
              (H1 := no_dryrun) "p" 1735689600 "f" []
              "https://test-container.sandbox.googleapis.com/"
              ["https://staging-container.sandbox.googleapis.com/";
               "https://staging2-container.sandbox.googleapis.com/";
               "https://container.googleapis.com/"]
              initial_state) as (_ & Hbad & _).
  apply (Hbad [] bad []); [reflexivity|constructor|by left].
Defined.

(** C8 as the specification has it fails: with a nameless cluster record
    at the first endpoint the sweep ends in [ValueError] having visited
    that endpoint only, not the four of them. *)
Lemma sweep_stops_at_nameless_cluster :
  let r := clean_gke_cluster (H := clock_2025) (H0 := gcloud_nameless_cluster)
             (H1 := no_dryrun) "p" 1735689600 "name !~ ^default" initial_state in
  r.2 = Raise ValueError ∧
  endpoints_visited (trace r.1) = ["https://test-container.sandbox.googleapis.com/"] ∧
  endpoints_visited (trace r.1) ≠ endpoints.
Proof. vm_compute. repeat split; try reflexivity. discriminate. Qed.

(** ** Driver: the catalog loop *)

Lemma odd_lor (a b : Z) : Z.odd (Z.lor a b) = Z.odd a || Z.odd b.
Proof. by rewrite <- !Z.bit0_odd, Z.lor_spec. Qed.

Lemma odd_status_nonzero (err : Z) : Z.odd err = true → err `mod` 256 ≠ 0.
Proof.
  intros Hodd Hmod.
  pose proof (Z.div_mod err 256 ltac:(lia)) as Hdm. rewrite Hmod in Hdm.
  rewrite Hdm, Z.add_0_r, Z.odd_mul in Hodd. done.
Qed.

Lemma collect_and_clear_keeps_flag `{Datetime, Gcloud, Args}
    project zones age filt clear_all rate_limit err res s err' :
  (collect_and_clear project zones age filt clear_all rate_limit err res s).2 = Ok err' →
  Z.odd err = true → Z.odd err' = true.
Proof.
  unfold collect_and_clear, bind. intros Hrun Hodd.
  destruct (collect _ _ _ _ _ _ s) as [s1 [[|g col]|e]]; simpl in Hrun; [| |done].
  - unfold ret in Hrun. simpl in Hrun. by simplify_eq.
  - destruct (clear_resources _ _ _ _ s1) as [s2 [n|e]]; simpl in Hrun; [|done].
    unfold ret in Hrun. simpl in Hrun. simplify_eq. by rewrite odd_lor, Hodd.
Qed.

(** One pass of the loop body: it returns, whatever happened below it. *)
Lemma clean_resource_returns `{Datetime, Gcloud, Args}
    api project zones age filt clear_all rate_limit res err s :
  failures_caught project zones age filt clear_all rate_limit [res] →
  ∃ s' err' evs,
    clean_resource api project zones age filt clear_all rate_limit err res s
      = (s', Ok err') ∧
    environ s' = environ s ∧
    trace s' = trace s ++ EvSearch api res :: evs ∧
    searched evs = [] ∧
    (list_failures evs ≠ [] → Z.odd err' = true) ∧
    (Z.odd err = true → Z.odd err' = true).
Proof.
  intros Hcaught. unfold clean_resource, bind, emit, try_except. simpl.
  set (s1 := {| environ := environ s; trace := trace s ++ [EvSearch api res] |}).
  destruct (quiet_collect_and_clear project zones age filt clear_all rate_limit
              err res s1) as [Henv (evs & Htr & Hq)].
  pose proof (collect_and_clear_keeps_flag project zones age filt clear_all
                rate_limit err res s1) as Hflag.
  pose proof (Hcaught res (list_elem_of_here _ _) err s1) as He.
  destruct (quiet_views evs Hq) as (Hs & _ & Hf).
  destruct (collect_and_clear _ _ _ _ _ _ _ _ s1) as [s2 [err'|e]];
    simpl in Henv, Htr, Hflag, He.
  - exists s2, err', evs. split; [done|]. split; [done|].
    split; [by rewrite Htr; unfold s1; simpl; rewrite <- app_assoc|].
    split; [done|]. split; [by rewrite Hf|]. by apply Hflag.
  - rewrite (He e eq_refl). unfold bind, emit, ret. simpl.
    eexists _, _, (evs ++ [EvStderr (fail_to_list res project)]).
    split; [reflexivity|]. simpl. split; [done|].
    split; [by rewrite Htr; unfold s1; simpl; rewrite <- !app_assoc|].
    split; [by rewrite searched_app, Hs|].
    split; intros _; rewrite odd_lor; apply orb_true_r.
Qed.

Lemma clean_resources_return `{Datetime, Gcloud, Args}
    api project zones age filt clear_all rate_limit resources err s :
  failures_caught project zones age filt clear_all rate_limit resources →
  ∃ s' err' evs,
    for_each resources
      (clean_resource api project zones age filt clear_all rate_limit) err s
      = (s', Ok err') ∧
    environ s' = environ s ∧
    trace s' = trace s ++ evs ∧
    searched evs = pair api <$> resources ∧
    (list_failures evs ≠ [] → Z.odd err' = true) ∧
    (Z.odd err = true → Z.odd err' = true).
Proof.
  revert err s. induction resources as [|res resources IH]; intros err s Hcaught.
  - exists s, err, []. rewrite app_nil_r. by repeat split.
  - rewrite for_each_cons.
    destruct (clean_resource_returns api project zones age filt clear_all rate_limit
                res err s) as (s1 & err1 & evs1 & -> & Henv1 & Htr1 & Hs1 & Hf1 & Hk1).
    { intros r Hr. apply list_elem_of_singleton in Hr as ->.
      apply Hcaught, list_elem_of_here. }
    destruct (IH err1 s1) as (s2 & err2 & evs2 & -> & Henv2 & Htr2 & Hs2 & Hf2 & Hk2).
    { intros r Hr. by apply Hcaught, list_elem_of_further. }
    exists s2, err2, (EvSearch api res :: evs1 ++ evs2).
    split; [done|]. split; [congruence|].
    split; [by rewrite Htr2, Htr1, <- app_assoc|].
    split; [by simpl; rewrite searched_app, Hs1, Hs2|].
    split; [|by auto].
    change (EvSearch api res :: evs1 ++ evs2)
      with ([EvSearch api res] ++ evs1 ++ evs2).
    rewrite !list_failures_app. simpl. intros Hfail.
    destruct (list_failures evs1) eqn:Hl1; [by apply Hf2|].
    apply Hk2, Hf1. done.
Qed.

Lemma api_enabled_returns `{Gcloud} project api s :
  is_Some (gcloud_services (environ s) (services_cmd project api)) →
  api_enabled project api s =
  ({| environ := environ s; trace := trace s ++ [EvRun (services_cmd project api)] |},
   Ok (api_state project (environ s) api)).
Proof.
  intros [st Hst]. unfold api_enabled, bind, check_output_services, api_state.
  simpl. rewrite Hst.
  destruct (String.eqb_spec st "") as [->|]; [reflexivity|].
  by destruct (String.eqb st "ENABLED").
Qed.

Lemma clean_api_returns `{Datetime, Gcloud, Args}
    project zones age filt clear_all rate_limit api resources err s :
  is_Some (gcloud_services (environ s) (services_cmd project api)) →
  failures_caught project zones age filt clear_all rate_limit resources →
  ∃ s' err' evs,
    clean_api project zones age filt clear_all rate_limit err (api, resources) s
      = (s', Ok err') ∧
    environ s' = env_after project (environ s) api ∧
    trace s' = trace s ++ evs ∧
    searched evs =
      (if api_state project (environ s) api then pair api <$> resources else []) ∧
    (list_failures evs ≠ [] → Z.odd err' = true) ∧
    (Z.odd err = true → Z.odd err' = true).
Proof.
  intros Hsvc Hcaught. unfold clean_api, env_after.
  unfold bind at 1. rewrite (api_enabled_returns project api s Hsvc).
  destruct (api_state project (environ s) api); cbn [negb andb].
  - unfold bind at 1.
    set (s1 := {| environ := environ s;
                  trace := trace s ++ [EvRun (services_cmd project api)] |}).
    destruct (in_strs api gkehub_apis).
    + unfold setenv at 1.
      match goal with
      | |- context [for_each resources ?b err ?st] =>
          destruct (clean_resources_return api project zones age filt clear_all
                      rate_limit resources err st Hcaught)
            as (s2 & err2 & evs & -> & Henv & Htr & Hs & Hf & Hk)
      end.
      simpl in Henv, Htr.
      exists s2, err2,
        ([EvRun (services_cmd project api);
          EvSetenv GKEHUB_OVERRIDE ("https://" +:+ api +:+ "/")] ++ evs).
      split; [done|]. split; [done|].
      split; [by rewrite Htr, <- !app_assoc|].
      split; [by rewrite searched_app|].
      split; [|done]. by rewrite list_failures_app.
    + unfold ret at 1.
      destruct (clean_resources_return api project zones age filt clear_all
                  rate_limit resources err s1 Hcaught)
        as (s2 & err2 & evs & -> & Henv & Htr & Hs & Hf & Hk).
      simpl in Henv, Htr.
      exists s2, err2, ([EvRun (services_cmd project api)] ++ evs).
      split; [done|]. split; [done|].
      split; [by rewrite Htr, <- !app_assoc|].
      split; [by rewrite searched_app|].
      split; [|done]. by rewrite list_failures_app.
  - unfold ret. eexists _, err, [EvRun (services_cmd project api)].
    by repeat split.
Qed.

Lemma expected_searches_cons `{Gcloud} project env api resources rest :
  expected_searches project env ((api, resources) :: rest) =
  (if api_state project env api then pair api <$> resources else []) ++
  expected_searches project (env_after project env api) rest.
Proof.
  simpl. unfold env_after. by destruct (api_state project env api).
Qed.

Lemma catalog_loop_returns `{Datetime, Gcloud, Args}
    project zones age filt clear_all rate_limit catalog err s :
  (∀ env api resources, (api, resources) ∈ catalog →
     is_Some (gcloud_services env (services_cmd project api))) →
  (∀ api resources, (api, resources) ∈ catalog →
     failures_caught project zones age filt clear_all rate_limit resources) →
  ∃ s' err' evs,
    for_each catalog (clean_api project zones age filt clear_all rate_limit) err s
      = (s', Ok err') ∧
    trace s' = trace s ++ evs ∧
    searched evs = expected_searches project (environ s) catalog ∧
    (list_failures evs ≠ [] → Z.odd err' = true) ∧
    (Z.odd err = true → Z.odd err' = true).
Proof.
  revert err s. induction catalog as [|[api resources] catalog IH];
    intros err s Hsvc Hcaught.
  - exists s, err, []. rewrite app_nil_r. by repeat split.
  - rewrite for_each_cons.
    destruct (clean_api_returns project zones age filt clear_all rate_limit
                api resources err s)
      as (s1 & err1 & evs1 & -> & Henv1 & Htr1 & Hs1 & Hf1 & Hk1).
    { eapply Hsvc, list_elem_of_here. }
    { eapply Hcaught, list_elem_of_here. }
    destruct (IH err1 s1) as (s2 & err2 & evs2 & -> & Htr2 & Hs2 & Hf2 & Hk2).
    { intros env a rs Hin. eapply Hsvc, list_elem_of_further, Hin. }
    { intros a rs Hin. eapply Hcaught, list_elem_of_further, Hin. }
    exists s2, err2, (evs1 ++ evs2).
    split; [done|]. split; [by rewrite Htr2, Htr1, <- app_assoc|].
    split; [by rewrite searched_app, Hs1, Hs2, Henv1, expected_searches_cons|].
    split; [|by auto].
    rewrite list_failures_app. intros Hfail.
    destruct (list_failures evs1) eqn:Hl1; [by apply Hf2|].
    apply Hk2, Hf1. done.
Qed.

(** C6. When what stands under [try:] for a resource raises
    [CalledProcessError] or [ValueError], the loop body sets bit 0 of the
    failure value, prints the failure and the loop goes on with the
    resources after it.  Over a whole catalog whose API queries answer and
    whose resources raise nothing else, the loop ends normally having
    searched every resource of every enabled API in catalog order; and if
    it caught a failure anywhere, the failure value it ends with is odd,
    so that the exit status is not 0. *)
Theorem failure_isolated `{Datetime, Gcloud, Args}
    project zones age filt clear_all rate_limit catalog err s :
  (∀ env api resources, (api, resources) ∈ catalog →
     is_Some (gcloud_services env (services_cmd project api))) →
  (∀ api resources, (api, resources) ∈ catalog →
     failures_caught project zones age filt clear_all rate_limit resources) →
  (∀ api res rest err0 s0 s2 e,
     collect_and_clear project zones age filt clear_all rate_limit err0 res
       {| environ := environ s0; trace := trace s0 ++ [EvSearch api res] |}
       = (s2, Raise e) →
     is_list_failure e = true →
     for_each (res :: rest)
       (clean_resource api project zones age filt clear_all rate_limit) err0 s0 =
     for_each rest
       (clean_resource api project zones age filt clear_all rate_limit) (Z.lor err0 1)
       {| environ := environ s2;
          trace := trace s2 ++ [EvStderr (fail_to_list res project)] |}) ∧
  ∃ s' err' evs,
    for_each catalog (clean_api project zones age filt clear_all rate_limit) err s
      = (s', Ok err') ∧
    trace s' = trace s ++ evs ∧
    searched evs = expected_searches project (environ s) catalog ∧
    (list_failures evs ≠ [] →
     Z.odd err' = true ∧ exit_status (Raise (A := unit) (SystemExit err')) ≠ 0).
Proof.
  intros Hsvc Hcaught. split.
  - intros api res rest err0 s0 s2 e Hrun He. rewrite for_each_cons.
    unfold clean_resource, bind, emit, try_except. simpl.
    rewrite Hrun, He. reflexivity.
  - destruct (catalog_loop_returns project zones age filt clear_all rate_limit
                catalog err s Hsvc Hcaught)
      as (s' & err' & evs & Hrun & Htr & Hs & Hf & _).
    exists s', err', evs. repeat split; try done; [by apply Hf|].
    simpl. by apply odd_status_nonzero, Hf.
Qed.

Lemma failure_isolated_witness :
  ∃ s' err' evs,
    for_each small_catalog
      (clean_api (H := clock_2025) (H0 := gcloud_instances_unlistable)
         (H1 := no_dryrun) "p" BASE_ZONES 1735689600 "name !~ ^default" false 50)
      0 initial_state = (s', Ok err') ∧
    trace s' = trace initial_state ++ evs ∧
    searched evs =
      expected_searches (H := gcloud_instances_unlistable) "p"
        (environ initial_state) small_catalog ∧
    (list_failures evs ≠ [] →
     Z.odd err' = true ∧ exit_status (Raise (A := unit) (SystemExit err')) ≠ 0).
Proof.
  apply (failure_isolated (H := clock_2025) (H0 := gcloud_instances_unlistable)
           (H1 := no_dryrun) "p" BASE_ZONES 1735689600 "name !~ ^default" false 50
           small_catalog 0 initial_state).
  - intros env api resources _. by eexists.
  - intros api resources Hin res Hres err s e Hrun.
    unfold small_catalog in Hin.
    repeat (apply elem_of_cons in Hin as [Hin|Hin]; [injection Hin as -> ->|]);
      try (by apply elem_of_nil in Hin);
      repeat (apply elem_of_cons in Hres as [->|Hres]);
      try (by apply elem_of_nil in Hres);
      vm_compute in Hrun; try discriminate Hrun;
      injection Hrun as <-; reflexivity.
Defined.

(** The run of that witness: the listing of instances fails, the two
    resources after it are searched all the same and the failure value
    ends at 1. *)
Example failure_isolated_run :
  let r := for_each small_catalog
             (clean_api (H := clock_2025) (H0 := gcloud_instances_unlistable)
                (H1 := no_dryrun) "p" BASE_ZONES 1735689600 "name !~ ^default"
                false 50) 0 initial_state in
  r.2 = Ok 1 ∧
  searched (trace r.1) =
    [("compute.googleapis.com", instances); ("compute.googleapis.com", disks);
     ("pubsub.googleapis.com", subscriptions)] ∧
  list_failures (trace r.1) = ["Fail to list resource instances from project p"].
Proof. vm_compute. repeat split; reflexivity. Qed.

(** ** BatchDeleter: what is dispatched *)

Lemma commands_app (tr1 tr2 : list event) :
  commands (tr1 ++ tr2) = commands tr1 ++ commands tr2.
Proof. apply omap_app. Qed.

Lemma asyncCall_commands `{Gcloud, Args} cmd tol nm errs hide s :
  dryrun = false →
  ∃ s' errs',
    asyncCall cmd tol nm errs hide s = (s', Ok errs') ∧
    commands (trace s') = commands (trace s) ++ argv_of cmd.
Proof.
  intros Hdry. unfold asyncCall, argv_of. rewrite Hdry.
  destruct (cmd_args cmd) as [argv|e].
  - unfold bind, check_call, emit, ret. simpl.
    destruct (gcloud_call (environ s) argv); simpl;
      eexists _, _; (split; [reflexivity|]); simpl;
      rewrite !commands_app; simpl; by rewrite ?app_nil_r.
  - exists s, errs. by rewrite app_nil_r.
Qed.

Lemma dispatch_group `{Gcloud, Args} (f : list json → list json) tol nm
    (batches : list (list json)) errs s :
  dryrun = false →
  ∃ s' errs',
    for_each batches (λ errs clean, asyncCall (f clean) tol nm errs false) errs s
      = (s', Ok errs') ∧
    commands (trace s') = commands (trace s) ++ flat_map (λ clean, argv_of (f clean)) batches.
Proof.
  intros Hdry. revert errs s. induction batches as [|clean batches IH]; intros errs s.
  - exists s, errs. by rewrite app_nil_r.
  - rewrite for_each_cons.
    destruct (asyncCall_commands (f clean) tol nm errs false s Hdry)
      as (s1 & errs1 & -> & Hc1).
    destruct (IH errs1 s1) as (s2 & errs2 & -> & Hc2).
    exists s2, errs2. split; [done|]. simpl. by rewrite Hc2, Hc1, app_assoc.
Qed.

(** Outside dry-run mode, when the resource's managed flag has a delete
    subcommand and the step is not zero, [clear_resources] returns and
    the invocations it makes are, group by group and in order, one for
    each chunk of [chunks]: the command prefix, the names of the chunk,
    the scope flag. *)
Lemma clear_resources_commands `{Gcloud, Args}
    project cols resource rate_limit base s :
  dryrun = false →
  delete_base project resource = Ok base →
  effective_rate_limit resource rate_limit ≠ 0 →
  ∃ s' n,
    clear_resources project cols resource rate_limit s = (s', Ok n) ∧
    commands (trace s') = commands (trace s) ++
      flat_map (λ '(col, items),
        flat_map (λ clean,
          argv_of (delete_cmd resource base (delete_condition resource col) clean))
          (batches_of items (effective_rate_limit resource rate_limit))) cols.
Proof.
  intros Hdry Hbase Hrate. unfold clear_resources.
  set (rate := effective_rate_limit resource rate_limit) in *.
  set (body := λ (errs : list exn) '(col, items), _).
  assert (Hloop : ∀ errs s, ∃ s' errs',
    for_each cols body errs s = (s', Ok errs') ∧
    commands (trace s') = commands (trace s) ++
      flat_map (λ '(col, items),
        flat_map (λ clean,
          argv_of (delete_cmd resource base (delete_condition resource col) clean))
          (batches_of items rate)) cols).
  { clear s. induction cols as [|[col items] cols IH]; intros errs s.
    - exists s, errs. by rewrite app_nil_r.
    - rewrite for_each_cons. unfold body at 1. unfold bind at 1, lift at 1.
      rewrite Hbase. unfold bind at 1, lift at 1.
      assert (∃ batches, chunks items rate = Ok batches) as [batches Hb].
      { unfold chunks, py_range. destruct (Z.eqb_spec rate 0); [done|].
        destruct (0 <? rate); by eexists. }
      cbn [flat_map]. unfold batches_of at 1. rewrite Hb.
      destruct (dispatch_group
                  (delete_cmd resource base (delete_condition resource col))
                  (tolerate resource) (name resource) batches errs s Hdry)
        as (s1 & errs1 & -> & Hc1).
      destruct (IH errs1 s1) as (s2 & errs2 & -> & Hc2).
      exists s2, errs2. split; [done|]. simpl. by rewrite Hc2, Hc1, app_assoc. }
  unfold bind. destruct (Hloop [] s) as (s' & errs' & -> & Hc).
  exists s', (Z.of_nat (length errs')). by split.
Qed.

Lemma singletons_of_concat {A} (batches : list (list A)) :
  Forall (λ c, length c = 1%nat) batches →
  batches = (λ x, [x]) <$> concat batches.
Proof.
  induction 1 as [|c batches Hc _ IH]; [done|].
  destruct c as [|x [|y c]]; simpl in Hc; try done.
  change (concat ([x] :: batches)) with (x :: concat batches).
  rewrite fmap_cons. by f_equal.
Qed.

(** C4. With [bulk_delete] set and a rate limit [k >= 1], outside dry-run
    mode [clear_resources] returns, and the delete calls it makes are,
    group by group and in order, one for each chunk of the group's names:
    the command prefix, the names of the chunk, the scope flag.  The
    chunks of a group of [N] names are [ceil(N / k)] consecutive chunks:
    every one but the last has exactly [k] names, the last has between 1
    and [k], and the chunks concatenated in order are the names. *)
Theorem chunking `{Gcloud, Args} project cols resource k base s :
  bulk_delete resource = true →
  1 ≤ k →
  dryrun = false →
  delete_base project resource = Ok base →
  ∃ s' n,
    clear_resources project cols resource k s = (s', Ok n) ∧
    commands (trace s') = commands (trace s) ++
      flat_map (λ '(col, items),
        flat_map (λ clean,
          argv_of (delete_cmd resource base (delete_condition resource col) clean))
          (batches_of items k)) cols ∧
    ∀ items : list json,
      Z.of_nat (length (batches_of items k)) = ceil_div (Z.of_nat (length items)) k ∧
      (∀ j c, batches_of items k !! j = Some c →
              (S j < length (batches_of items k))%nat →
              Z.of_nat (length c) = k) ∧
      Forall (λ c, 1 ≤ Z.of_nat (length c) ≤ k) (batches_of items k) ∧
      concat (batches_of items k) = items.
Proof.
  intros Hbulk Hk Hdry Hbase.
  assert (Hrate : effective_rate_limit resource k = k).
  { unfold effective_rate_limit. by rewrite Hbulk. }
  destruct (clear_resources_commands project cols resource k base s Hdry Hbase)
    as (s' & n & Hrun & Hc).
  { rewrite Hrate. lia. }
  exists s', n. split; [exact Hrun|]. split.
  - rewrite Hc, Hrate. reflexivity.
  - intros items. by apply batches_of_positive_step.
Qed.

Lemma chunking_witness :
  ∃ s' n,
    clear_resources (H := gcloud_empty) (H0 := no_dryrun) "p"
      [("us-central1-a", [JStr "i1"; JStr "i2"; JStr "i3"; JStr "i4"; JStr "i5"])]
      disks 2 initial_state = (s', Ok n) ∧
    commands (trace s') =
      [["gcloud"; "compute"; "-q"; "disks"; "delete"; "--project=p";
        "i1"; "i2"; "--zone=us-central1-a"];
       ["gcloud"; "compute"; "-q"; "disks"; "delete"; "--project=p";
        "i3"; "i4"; "--zone=us-central1-a"];
       ["gcloud"; "compute"; "-q"; "disks"; "delete"; "--project=p";
        "i5"; "--zone=us-central1-a"]] ∧
    Z.of_nat (length (batches_of
                        [JStr "i1"; JStr "i2"; JStr "i3"; JStr "i4"; JStr "i5"] 2))
      = ceil_div 5 2.
Proof.
  destruct (chunking (H := gcloud_empty) (H0 := no_dryrun) "p"
              [("us-central1-a", [JStr "i1"; JStr "i2"; JStr "i3"; JStr "i4"; JStr "i5"])]
              disks 2
              ["gcloud"; "compute"; "-q"; "disks"; "delete"; "--project=p"]
              initial_state) as (s' & n & Hrun & Hc & Hchunks);
    [reflexivity|lia|reflexivity|reflexivity|].
  exists s', n. split; [exact Hrun|]. split.
  - rewrite Hc. reflexivity.
  - exact (proj1 (Hchunks [JStr "i1"; JStr "i2"; JStr "i3"; JStr "i4"; JStr "i5"])).
Defined.

(** C5. Without [bulk_delete], whatever the configured rate limit, outside
    dry-run mode [clear_resources] returns and makes one delete call for
    each name of each group, in order: every call carries exactly one
    name. *)
Theorem non_bulk_one_per_call `{Gcloud, Args} project cols resource rate_limit base s :
  bulk_delete resource = false →
  dryrun = false →
  delete_base project resource = Ok base →
  ∃ s' n,
    clear_resources project cols resource rate_limit s = (s', Ok n) ∧
    commands (trace s') = commands (trace s) ++
      flat_map (λ '(col, items),
        flat_map (λ x,
          argv_of (delete_cmd resource base (delete_condition resource col) [x]))
          items) cols.
Proof.
  intros Hbulk Hdry Hbase.
  destruct (clear_resources_commands project cols resource rate_limit base s
              Hdry Hbase) as (s' & n & Hrun & Hc).
  { unfold effective_rate_limit. by rewrite Hbulk. }
  exists s', n. split; [done|]. rewrite Hc. f_equal. clear Hrun Hc.
  induction cols as [|[col items] cols IH]; [done|]. simpl. f_equal; [|done].
  destruct (chunks_one_by_one items) as (batches & Hb & Hall & Hcat).
  unfold batches_of, effective_rate_limit. rewrite Hbulk. cbn [negb]. rewrite Hb.
  rewrite (singletons_of_concat batches Hall), Hcat.
  clear. induction items as [|x items IH]; [done|].
  rewrite fmap_cons. cbn [flat_map]. by rewrite IH.
Qed.

Lemma non_bulk_one_per_call_witness :
  ∃ s' n,
    clear_resources (H := gcloud_empty) (H0 := no_dryrun) "p"
      [("", [JStr "s1"; JStr "s2"; JStr "s3"])] sinks 50 initial_state
      = (s', Ok n) ∧
    commands (trace s') =
      [["gcloud"; "logging"; "-q"; "sinks"; "delete"; "--project=p"; "s1"];
       ["gcloud"; "logging"; "-q"; "sinks"; "delete"; "--project=p"; "s2"];
       ["gcloud"; "logging"; "-q"; "sinks"; "delete"; "--project=p"; "s3"]].
Proof.
  destruct (non_bulk_one_per_call (H := gcloud_empty) (H0 := no_dryrun) "p"
              [("", [JStr "s1"; JStr "s2"; JStr "s3"])] sinks 50
              ["gcloud"; "logging"; "-q"; "sinks"; "delete"; "--project=p"]
              initial_state) as (s' & n & Hrun & Hc);
    [reflexivity|reflexivity|reflexivity|].
  exists s', n. split; [exact Hrun|]. rewrite Hc. reflexivity.
Defined.

(** * Further properties of the code *)

(** ** CandidateFilter: the cutoff and the two timestamps *)

(** Moving the cutoff later never drops a candidate, and what the filter
    raises does not depend on the cutoff. *)
Theorem validate_item_later_cutoff `{Datetime} item age age' resource clear_all :
  age ≤ age' →
  (validate_item item age resource clear_all = Ok true →
   validate_item item age' resource clear_all = Ok true) ∧
  (∀ e, validate_item item age resource clear_all = Raise e ↔
        validate_item item age' resource clear_all = Raise e).
Proof.
  intros Hle. unfold validate_item.
  destruct (is_preserved resource item) as [[|]|?]; simpl; [done| |done].
  destruct (managed_mismatch resource item) as [[|]|?]; simpl; [done| |done].
  destruct clear_all; [done|].
  destruct (creation_timestamp item) as [|b|z|ts]; simpl; try done.
  destruct (strptime ts) as [created|]; simpl; [|done].
  destruct (dict_getitem item "name"); simpl; [|done].
  split; [|done]. intros [= Hlt%bool_decide_eq_true].
  unfold mret, result_ret. f_equal. apply bool_decide_eq_true. lia.
Qed.

Lemma validate_item_later_cutoff_witness :
  let item := item_of [("name", JStr "disk-1");
                       ("creationTimestamp", JStr "2020-01-01T00:00:00")] in
  let resource :=
    Build_Resource "" "compute" "disks" None None None false true None in
  (1735689600 ≤ 1735776000) ∧
  validate_item (H := clock_2025) item 1735689600 resource false = Ok true ∧
  validate_item (H := clock_2025) item 1735776000 resource false = Ok true.
Proof.
  intros item resource. split; [lia|]. split; [reflexivity|].
  apply (validate_item_later_cutoff (H := clock_2025) item 1735689600 1735776000
           resource false); [lia|reflexivity].
Defined.

Lemma is_preserved_insert resource item k v :
  k ≠ "name" → is_preserved resource (<[k := v]> item) = is_preserved resource item.
Proof.
  intros Hk. unfold is_preserved, dict_getitem. by rewrite lookup_insert_ne.
Qed.

Lemma managed_mismatch_insert resource item k v :
  k ≠ "isManaged" →
  managed_mismatch resource (<[k := v]> item) = managed_mismatch resource item.
Proof.
  intros Hk. unfold managed_mismatch, dict_getitem, dict_contains.
  by rewrite lookup_insert_ne.
Qed.

(** What a cutoff puts in scope is in scope under clear-all, and under
    clear-all the answer depends neither on the cutoff nor on the
    timestamps of the item. *)
Theorem clear_all_covers_cutoff `{Datetime} item age age' resource ts ts' :
  validate_item item age resource false = Ok true →
  validate_item item age' resource true = Ok true ∧
  validate_item (<["createTime" := ts']> (<["creationTimestamp" := ts]> item))
    age' resource true = Ok true.
Proof.
  unfold validate_item.
  rewrite !is_preserved_insert, !managed_mismatch_insert by done.
  destruct (is_preserved resource item) as [[|]|?]; simpl; [done| |done].
  destruct (managed_mismatch resource item) as [[|]|?]; simpl; done.
Qed.

Lemma clear_all_covers_cutoff_witness :
  let item := item_of [("name", JStr "disk-1");
                       ("creationTimestamp", JStr "2020-01-01T00:00:00")] in
  let resource :=
    Build_Resource "" "compute" "disks" None None None false true None in
  validate_item (H := clock_2025) item 1735689600 resource false = Ok true ∧
  validate_item (H := clock_2025) item 0 resource true = Ok true.
Proof.
  intros item resource. split; [reflexivity|].
  apply (clear_all_covers_cutoff (H := clock_2025) item 1735689600 0 resource
           JNull JNull). reflexivity.
Defined.

(** [creationTimestamp] comes first: when the item has that key,
    [createTime] is never read; and when the key holds [null] the filter
    raises [ValueError] outside clear-all, whatever [createTime] holds. *)
Theorem creationTimestamp_first `{Datetime} item age resource clear_all v w :
  item !! "creationTimestamp" = Some v →
  validate_item (<["createTime" := w]> item) age resource clear_all =
  validate_item item age resource clear_all ∧
  (v = JNull →
   is_preserved resource item = Ok false →
   managed_mismatch resource item = Ok false →
   validate_item (<["createTime" := w]> item) age resource false = Raise ValueError).
Proof.
  intros Hv.
  assert (Hts : creation_timestamp (<["createTime" := w]> item) = v).
  { unfold creation_timestamp, dict_get.
    by rewrite lookup_insert_ne, Hv. }
  assert (Hts' : creation_timestamp item = v).
  { unfold creation_timestamp, dict_get. by rewrite Hv. }
  assert (Hname : dict_getitem (<["createTime" := w]> item) "name" =
                  dict_getitem item "name").
  { unfold dict_getitem. by rewrite lookup_insert_ne. }
  unfold validate_item.
  rewrite !is_preserved_insert, !managed_mismatch_insert, Hts, Hts', Hname by done.
  split; [done|].
  intros -> -> ->. done.
Qed.

Lemma creationTimestamp_first_witness :
  let item := item_of [("name", JStr "disk-1"); ("creationTimestamp", JNull)] in
  let resource :=
    Build_Resource "" "compute" "disks" None None None false true None in
  validate_item (H := clock_2025)
    (<["createTime" := JStr "2020-01-01T00:00:00"]> item) 1735689600 resource false
    = Raise ValueError.
Proof.
  intros item resource.
  apply (creationTimestamp_first (H := clock_2025) item 1735689600 resource false
           JNull (JStr "2020-01-01T00:00:00")); reflexivity.
Defined.

(** ** ConditionGrouper: the groups of [collect] *)

Lemma dd_get_append_eq col k v :
  dd_get (dd_append col k v) k = Some (default [] (dd_get col k) ++ [v]).
Proof.
  induction col as [|[k0 vs] col IH]; simpl.
  - by rewrite String.eqb_refl.
  - destruct (String.eqb k0 k) eqn:Hk; simpl; by rewrite Hk.
Qed.

Lemma dd_get_append_ne col k k' v :
  k ≠ k' → dd_get (dd_append col k v) k' = dd_get col k'.
Proof.
  intros Hne. induction col as [|[k0 vs] col IH]; simpl.
  - destruct (String.eqb_spec k k'); [done|reflexivity].
  - destruct (String.eqb_spec k0 k) as [->|Hk]; simpl.
    + destruct (String.eqb_spec k k'); [done|reflexivity].
    + by rewrite IH.
Qed.

Lemma dd_append_keys col k v k' :
  k' ∈ (dd_append col k v).*1 → k' = k ∨ k' ∈ col.*1.
Proof.
  induction col as [|[k0 vs] col IH]; simpl.
  - intros ->%list_elem_of_singleton. by left.
  - destruct (String.eqb k0 k); simpl.
    + intros Hin. by right.
    + intros [->|Hin]%elem_of_cons.
      * right. apply list_elem_of_here.
      * destruct (IH Hin) as [?|?]; [by left|]. right. by apply list_elem_of_further.
Qed.

Lemma dd_append_NoDup col k v : NoDup col.*1 → NoDup (dd_append col k v).*1.
Proof.
  induction col as [|[k0 vs] col IH]; simpl; intros Hnd.
  - apply NoDup_singleton.
  - apply NoDup_cons in Hnd as [Hk0 Hnd].
    destruct (String.eqb_spec k0 k) as [->|Hk]; simpl.
    + by apply NoDup_cons.
    + apply NoDup_cons. split; [|by apply IH].
      intros [->|Hin]%dd_append_keys; done.
Qed.

Lemma dd_append_nonempty col k v :
  Forall (λ kg, kg.2 ≠ []) col → Forall (λ kg, kg.2 ≠ []) (dd_append col k v).
Proof.
  induction col as [|[k0 vs] col IH]; simpl; intros Hne.
  - constructor; [done|constructor].
  - apply Forall_cons in Hne as [Hvs Hne]. simpl in Hvs.
    destruct (String.eqb k0 k); constructor; simpl; try done.
    + by intros [? ?]%app_eq_nil.
    + by apply IH.
Qed.

Lemma dd_get_elem col k g : NoDup col.*1 → (k, g) ∈ col → dd_get col k = Some g.
Proof.
  induction col as [|[k0 vs] col IH]; simpl; intros Hnd Hin.
  - by apply elem_of_nil in Hin.
  - apply NoDup_cons in Hnd as [Hk0 Hnd].
    apply elem_of_cons in Hin as [[= -> ->]|Hin].
    + by rewrite String.eqb_refl.
    + destruct (String.eqb_spec k0 k) as [->|Hk]; [|by apply IH].
      exfalso. apply Hk0. apply list_elem_of_fmap. by exists (k, g).
Qed.

(** One pass of the loop of [collect], read through [filed]. *)
Lemma collect_item_filed `{Datetime} age resource clear_all col item col' :
  collect_item age resource clear_all col item = Ok col' →
  is_Some (item !! "name") ∧
  col' = match filed age resource clear_all item with
         | Some (colname, n) => dd_append col colname n
         | None => col
         end.
Proof.
  unfold collect_item, filed, dict_contains, dict_getitem.
  destruct (item !! "name") as [n|] eqn:Hn; simpl; [|done].
  destruct (item_colname resource item) as [[colname|]|e]; simpl; [| |done].
  - destruct (validate_item item age resource clear_all) as [[|]|e]; simpl;
      [| |done]; intros [= <-]; by eauto.
  - intros [= <-]. by eauto.
Qed.

Lemma collect_items_groups `{Datetime} age resource clear_all items :
  ∀ col0 col s s',
    for_each items (λ col item, lift (collect_item age resource clear_all col item))
      col0 s = (s', Ok col) →
    NoDup col0.*1 → Forall (λ kg, kg.2 ≠ []) col0 →
    s' = s ∧
    Forall (λ item, is_Some (item !! "name")) items ∧
    NoDup col.*1 ∧ Forall (λ kg, kg.2 ≠ []) col ∧
    ∀ k, default [] (dd_get col k) =
         default [] (dd_get col0 k) ++ filed_under age resource clear_all k items.
Proof.
  induction items as [|item items IH]; intros col0 col s s' Hrun Hnd Hne.
  - simpl in Hrun. unfold ret in Hrun. simplify_eq.
    repeat split; try done. intros k. simpl. by rewrite app_nil_r.
  - rewrite for_each_cons in Hrun. unfold lift in Hrun.
    destruct (collect_item age resource clear_all col0 item) as [col1|e] eqn:Hitem;
      [|done].
    destruct (collect_item_filed _ _ _ _ _ _ Hitem) as [Hname Hcol1].
    assert (Hnd1 : NoDup col1.*1).
    { rewrite Hcol1. destruct (filed _ _ _ item) as [[c n]|]; [|done].
      by apply dd_append_NoDup. }
    assert (Hne1 : Forall (λ kg, kg.2 ≠ []) col1).
    { rewrite Hcol1. destruct (filed _ _ _ item) as [[c n]|]; [|done].
      by apply dd_append_nonempty. }
    destruct (IH col1 col s s' Hrun Hnd1 Hne1) as (-> & Hnames & Hnd' & Hne' & Hget).
    repeat split; try done; [by constructor|].
    intros k. rewrite Hget, Hcol1. unfold filed_under. simpl.
    destruct (filed age resource clear_all item) as [[c n]|]; [|done].
    destruct (String.eqb_spec c k) as [->|Hck].
    + rewrite dd_get_append_eq. simpl. by rewrite <- app_assoc.
    + by rewrite dd_get_append_ne.
Qed.

Lemma collect_unfold `{Datetime, Gcloud} project zones age resource filt clear_all s :
  collect project zones age resource filt clear_all s =
  if String.eqb (name resource) "sinks" && negb clear_all then (s, Ok [])
  else
    let s1 := {| environ := environ s;
                 trace := trace s ++ [EvRun (collect_cmd project zones resource filt)] |} in
    match gcloud_list (environ s) (collect_cmd project zones resource filt) with
    | None => if tolerate resource then (s1, Ok []) else (s1, Raise CalledProcessError)
    | Some items =>
        for_each items (λ col item, lift (collect_item age resource clear_all col item))
          [] s1
    end.
Proof.
  unfold collect, collect_cmd.
  destruct (String.eqb (name resource) "sinks" && negb clear_all); [done|].
  unfold bind, check_output_list. simpl.
  destruct (bool_decide _ && _ && _ && _); simpl;
    (destruct (gcloud_list _ _); [done|]); by destruct (tolerate resource).
Qed.

Lemma collect_regroups_listing_aux `{Datetime, Gcloud}
    project zones age resource filt clear_all s s' col :
  collect project zones age resource filt clear_all s = (s', Ok col) →
  NoDup col.*1 ∧
  Forall (λ kg, kg.2 ≠ []) col ∧
  ∀ k, default [] (dd_get col k) =
       filed_under age resource clear_all k
         (collect_listing project zones resource filt clear_all s).
Proof.
  rewrite collect_unfold. unfold collect_listing.
  destruct (String.eqb (name resource) "sinks" && negb clear_all).
  { intros [= <- <-]. repeat split; try done; constructor. }
  simpl. destruct (gcloud_list _ _) as [items|].
  - intros Hrun.
    destruct (collect_items_groups age resource clear_all items [] col _ _ Hrun)
      as (_ & _ & Hnd & Hne & Hget); [constructor|constructor|].
    repeat split; try done.
  - destruct (tolerate resource); intros [= <- <-].
    repeat split; try done; constructor.
Qed.


(** When [collect] returns, its groups are the listing regrouped: the
    keys are distinct, no group is empty, and the group under a key holds,
    in listing order and without loss or repetition, the names of the
    listed items that have that scope and that the filter accepts. *)
Theorem collect_regroups_listing `{Datetime, Gcloud}
    project zones age resource filt clear_all s s' col :
  collect project zones age resource filt clear_all s = (s', Ok col) →
  NoDup col.*1 ∧
  Forall (λ kg, kg.2 ≠ []) col ∧
  ∀ k, default [] (dd_get col k) =
       filed_under age resource clear_all k
         (collect_listing project zones resource filt clear_all s).
Proof.
  apply collect_regroups_listing_aux.
Qed.

Lemma collect_regroups_listing_witness :
  let r := collect (H := clock_2025) (H0 := gcloud_failing_deletes 3)
             "p" BASE_ZONES 1735689600 hub_memberships "name !~ ^default" true
             initial_state in
  r.2 = Ok [("", [JStr "m0"; JStr "m1"; JStr "m2"])] ∧
  NoDup [""] ∧
  default [] (dd_get [("", [JStr "m0"; JStr "m1"; JStr "m2"])] "") =
  filed_under (H := clock_2025) 1735689600 hub_memberships true ""
    (collect_listing (H := gcloud_failing_deletes 3) "p" BASE_ZONES hub_memberships
       "name !~ ^default" true initial_state).
Proof.
  intros r. split; [reflexivity|].
  destruct (collect_regroups_listing (H := clock_2025) (H0 := gcloud_failing_deletes 3)
              "p" BASE_ZONES 1735689600 hub_memberships "name !~ ^default" true
              initial_state r.1 [("", [JStr "m0"; JStr "m1"; JStr "m2"])] eq_refl)
    as (Hnd & _ & Hget).
  split; [exact Hnd|]. exact (Hget "").
Defined.

Lemma filed_under_nonempty `{Datetime} age resource clear_all k items :
  filed_under age resource clear_all k items ≠ [] →
  ∃ item n, item ∈ items ∧ filed age resource clear_all item = Some (k, n).
Proof.
  unfold filed_under. induction items as [|item items IH]; simpl; [done|].
  destruct (filed age resource clear_all item) as [[c n]|] eqn:Hf.
  - destruct (String.eqb_spec c k) as [->|Hck].
    + intros _. exists item, n. split; [apply list_elem_of_here|done].
    + intros (item' & n' & Hin & Hf')%IH.
      exists item', n'. split; [by apply list_elem_of_further|done].
  - intros (item' & n' & Hin & Hf')%IH.
    exists item', n'. split; [by apply list_elem_of_further|done].
Qed.

(** Every key of the groups is the scope of a listed item that was filed. *)
Lemma collect_key_filed `{Datetime, Gcloud}
    project zones age resource filt clear_all s s' col k g :
  collect project zones age resource filt clear_all s = (s', Ok col) →
  (k, g) ∈ col →
  ∃ item n,
    item ∈ collect_listing project zones resource filt clear_all s ∧
    filed age resource clear_all item = Some (k, n).
Proof.
  intros Hrun Hin.
  destruct (collect_regroups_listing_aux project zones age resource filt clear_all
              s s' col Hrun) as (Hnd & Hne & Hget).
  apply (filed_under_nonempty age resource clear_all k).
  rewrite <- Hget, (dd_get_elem col k g Hnd Hin). simpl.
  rewrite Forall_forall in Hne. exact (Hne (k, g) Hin).
Qed.

Lemma filed_colname `{Datetime} age resource clear_all item c n :
  filed age resource clear_all item = Some (c, n) →
  item_colname resource item = Ok (Some c) ∧
  validate_item item age resource clear_all = Ok true ∧
  item !! "name" = Some n.
Proof.
  unfold filed.
  destruct (item_colname resource item) as [[c'|]|?]; [|done|done].
  destruct (validate_item item age resource clear_all) as [[|]|?]; [|done|done].
  destruct (item !! "name"); [|done]. by intros [= -> ->].
Qed.

(** A resource without a scope, or with the scope [global], has one group
    at most, under the empty key; and under [global] no filed item has a
    [zone] or a [region]. *)
Theorem collect_unscoped_single_group `{Datetime, Gcloud}
    project zones age resource filt clear_all s s' col :
  condition resource = None ∨ condition resource = Some "global" →
  collect project zones age resource filt clear_all s = (s', Ok col) →
  (col = [] ∨ ∃ g, col = [("", g)]) ∧
  (condition resource = Some "global" →
   ∀ item c n, filed age resource clear_all item = Some (c, n) →
               item !! "zone" = None ∧ item !! "region" = None).
Proof.
  intros Hcond Hrun.
  assert (Hkey : ∀ item c n, filed age resource clear_all item = Some (c, n) → c = "").
  { intros item c n (Hc & _ & _)%filed_colname. unfold item_colname in Hc.
    destruct Hcond as [Hcond|Hcond]; rewrite Hcond in Hc; simpl in Hc.
    - by injection Hc as <-.
    - destruct (dict_contains item "zone" || dict_contains item "region");
        [done|]. by injection Hc as <-. }
  split.
  - destruct (collect_regroups_listing_aux project zones age resource filt clear_all
                s s' col Hrun) as (Hnd & _ & _).
    assert (Hkeys : ∀ k g, (k, g) ∈ col → k = "").
    { intros k g Hin.
      destruct (collect_key_filed project zones age resource filt clear_all
                  s s' col k g Hrun Hin) as (item & n & _ & Hf).
      by eapply Hkey. }
    destruct col as [|[k1 g1] [|[k2 g2] col]]; [by left| |].
    + right. exists g1. by rewrite (Hkeys k1 g1 (list_elem_of_here _ _)).
    + exfalso.
      rewrite (Hkeys k1 g1 (list_elem_of_here _ _)) in Hnd.
      rewrite (Hkeys k2 g2 (list_elem_of_further _ _ _ (list_elem_of_here _ _))) in Hnd.
      simpl in Hnd. apply NoDup_cons in Hnd as [Hnot _].
      apply Hnot, list_elem_of_here.
  - intros Hglobal item c n (Hc & _ & _)%filed_colname.
    unfold item_colname, dict_contains in Hc. rewrite Hglobal in Hc. simpl in Hc.
    destruct (item !! "zone"), (item !! "region"); simpl in Hc; done.
Qed.

Lemma collect_unscoped_single_group_witness :
  let r := collect (H := clock_2025) (H0 := gcloud_failing_deletes 3)
             "p" BASE_ZONES 1735689600 hub_memberships "name !~ ^default" true
             initial_state in
  condition hub_memberships = None ∧
  (r.2 = Ok [] ∨ ∃ g, r.2 = Ok [("", g)]).
Proof.
  intros r. split; [reflexivity|].
  destruct (collect_unscoped_single_group (H := clock_2025)
              (H0 := gcloud_failing_deletes 3)
              "p" BASE_ZONES 1735689600 hub_memberships "name !~ ^default" true
              initial_state r.1 [("", [JStr "m0"; JStr "m1"; JStr "m2"])]
              (or_introl eq_refl) eq_refl) as [[Hnil|[g Hg]] _].
  - discriminate Hnil.
  - right. exists g. by rewrite <- Hg.
Defined.

(** ** Scope values: [split] and [rsplit] *)

Lemma py_split_nonempty sep s : py_split sep s ≠ [].
Proof.
  destruct s as [|a s]; simpl; [done|].
  destruct (Ascii.eqb a sep); [done|]. by destruct (py_split sep s).
Qed.

Lemma py_split_pieces sep s :
  Forall (λ p, has_char sep p = false) (py_split sep s).
Proof.
  induction s as [|a s IH]; simpl.
  - by repeat constructor.
  - destruct (Ascii.eqb a sep) eqn:Ha.
    + by constructor.
    + destruct (py_split sep s) as [|p ps]; [by repeat constructor; simpl; rewrite Ha|].
      apply Forall_cons in IH as [Hp Hps].
      constructor; [|done]. simpl. by rewrite Ha, Hp.
Qed.

Lemma py_split_join sep s :
  String.concat (String sep EmptyString) (py_split sep s) = s.
Proof.
  induction s as [|a s IH]; simpl; [done|].
  destruct (Ascii.eqb_spec a sep) as [->|Ha].
  - pose proof (py_split_nonempty sep s) as Hne.
    destruct (py_split sep s) as [|p ps]; [done|]. simpl in *. by rewrite IH.
  - pose proof (py_split_nonempty sep s) as Hne.
    destruct (py_split sep s) as [|p ps]; [done|].
    destruct ps as [|q ps]; simpl in *; by rewrite <- IH.
Qed.

(** [split] cuts a string at every separator and nowhere else: there is
    at least one piece, no piece holds the separator, and the pieces joined
    by the separator are the string. *)
Theorem split_join_round_trip (sep : Ascii.ascii) (s : string) :
  py_split sep s ≠ [] ∧
  Forall (λ p, has_char sep p = false) (py_split sep s) ∧
  String.concat (String sep EmptyString) (py_split sep s) = s.
Proof.
  split; [apply py_split_nonempty|]. split; [apply py_split_pieces|].
  apply py_split_join.
Qed.

Lemma last_elem {A} (l : list A) (d : A) : l ≠ [] → List.last l d ∈ l.
Proof.
  induction l as [|x [|y l] IH]; [done| |]; intros _.
  - apply list_elem_of_here.
  - apply list_elem_of_further. by apply IH.
Qed.

Lemma item_colname_no_slash resource item c :
  item_colname resource item = Ok (Some c) → has_char "/"%char c = false.
Proof.
  unfold item_colname. destruct (condition resource) as [cond|]; [|by intros [= <-]].
  destruct (String.eqb cond "global").
  { destruct (_ || _); [done|]. by intros [= <-]. }
  destruct (dict_contains item cond).
  - destruct (dict_getitem item cond) as [[| | |v]|]; simpl; try done.
    intros [= <-]. unfold split_last.
    pose proof (py_split_pieces "/"%char v) as Hall.
    rewrite Forall_forall in Hall. apply Hall, last_elem, py_split_nonempty.
  - destruct (String.eqb (group resource) "filestore"); [|done].
    destruct (dict_getitem item "name") as [[| | |v]|]; simpl; try done.
    destruct (py_split "/"%char v !! 3%nat) as [p|] eqn:Hp; simpl; [|done].
    intros [= <-].
    pose proof (py_split_pieces "/"%char v) as Hall.
    rewrite Forall_forall in Hall. eapply Hall, list_elem_of_lookup_2, Hp.
Qed.

(** The keys of the groups, which become the [--zone=] and [--region=]
    values of the delete commands, never hold a slash: a scope given as a
    URL is cut down to its last segment. *)
Theorem collect_keys_without_slash `{Datetime, Gcloud}
    project zones age resource filt clear_all s s' col k g :
  collect project zones age resource filt clear_all s = (s', Ok col) →
  (k, g) ∈ col →
  has_char "/"%char k = false.
Proof.
  intros Hrun Hin.
  destruct (collect_key_filed project zones age resource filt clear_all
              s s' col k g Hrun Hin) as (item & n & _ & Hf).
  apply filed_colname in Hf as (Hc & _ & _).
  by eapply item_colname_no_slash.
Qed.

Lemma collect_keys_without_slash_witness :
  let r := collect (H := clock_2025) (H0 := gcloud_two_disks)
             "p" BASE_ZONES 1735689600 disks "name !~ ^default" false
             initial_state in
  r.2 = Ok [("us-central1-a", [JStr "a"])] ∧
  has_char "/"%char "us-central1-a" = false.
Proof.
  intros r. split; [reflexivity|].
  apply (collect_keys_without_slash (H := clock_2025) (H0 := gcloud_two_disks)
           "p" BASE_ZONES 1735689600 disks "name !~ ^default" false
           initial_state r.1 [("us-central1-a", [JStr "a"])]
           "us-central1-a" [JStr "a"] eq_refl).
  apply list_elem_of_here.
Defined.

(** ** What [collect] raises *)

Lemma for_each_lift_state {A S} (f : S → A → result S) (l : list A) (acc : S) s :
  (for_each l (λ acc x, lift (f acc x)) acc s).1 = s.
Proof.
  revert acc. induction l as [|x l IH]; intros acc; [done|].
  rewrite for_each_cons. unfold lift. destruct (f acc x); [apply IH|done].
Qed.

Lemma for_each_lift_raises {A S} (f : S → A → result S) (l : list A) (acc : S) s s' e :
  for_each l (λ acc x, lift (f acc x)) acc s = (s', Raise e) →
  ∃ acc' x, x ∈ l ∧ f acc' x = Raise e.
Proof.
  revert acc. induction l as [|x l IH]; intros acc; [done|].
  rewrite for_each_cons. unfold lift. destruct (f acc x) as [acc1|e1] eqn:Hx.
  - intros (acc' & y & Hy & Hf)%IH. exists acc', y.
    split; [by apply list_elem_of_further|done].
  - intros [= <- <-]. exists acc, x. split; [apply list_elem_of_here|done].
Qed.

Lemma item_colname_raises resource item e :
  is_Some (item !! "name") →
  item_colname resource item = Raise e →
  e = AttributeError ∨ (e = IndexError ∧ group resource = "filestore").
Proof.
  intros [n Hn]. unfold item_colname, dict_contains, dict_getitem.
  destruct (condition resource) as [cond|]; [|done].
  destruct (String.eqb cond "global"); [by destruct (_ || _)|].
  destruct (item !! cond) as [[| | |v]|]; simpl; try (intros [= <-]; by left).
  destruct (String.eqb_spec (group resource) "filestore") as [Hg|];
    [|unfold mret, result_ret; done].
  rewrite Hn. simpl. destruct n as [| | |v]; simpl; try (intros [= <-]; by left).
  destruct (py_split "/"%char v !! 3%nat); simpl; [unfold mret, result_ret; done|].
  intros [= <-]. by right.
Qed.

Lemma validate_item_raises `{Datetime} item age resource clear_all e :
  is_Some (item !! "name") →
  validate_item item age resource clear_all = Raise e →
  e = ValueError ∨ e = TypeError.
Proof.
  intros [n Hn]. unfold validate_item, is_preserved, managed_mismatch,
    dict_getitem, dict_contains.
  rewrite Hn. simpl.
  destruct (list_truthy (preserved_names resource)); simpl.
  - destruct (json_in_strs n _); simpl; [done|].
    destruct (str_truthy (managed resource)); simpl.
    + destruct (item !! "isManaged") as [v|]; simpl; [|intros [= <-]; by left].
      destruct (negb (json_eq_str v _)); simpl; [done|].
      destruct clear_all; [done|].
      destruct (creation_timestamp item) as [| | |ts]; simpl;
        try (intros [= <-]; by auto).
      destruct (strptime ts); simpl; [done|]. intros [= <-]; by left.
    + destruct clear_all; [done|].
      destruct (creation_timestamp item) as [| | |ts]; simpl;
        try (intros [= <-]; by auto).
      destruct (strptime ts); simpl; [done|]. intros [= <-]; by left.
  - destruct (str_truthy (managed resource)); simpl.
    + destruct (item !! "isManaged") as [v|]; simpl; [|intros [= <-]; by left].
      destruct (negb (json_eq_str v _)); simpl; [done|].
      destruct clear_all; [done|].
      destruct (creation_timestamp item) as [| | |ts]; simpl;
        try (intros [= <-]; by auto).
      destruct (strptime ts); simpl; [done|]. intros [= <-]; by left.
    + destruct clear_all; [done|].
      destruct (creation_timestamp item) as [| | |ts]; simpl;
        try (intros [= <-]; by auto).
      destruct (strptime ts); simpl; [done|]. intros [= <-]; by left.
Qed.

Lemma collect_item_raises `{Datetime} age resource clear_all col item e :
  collect_item age resource clear_all col item = Raise e →
  e = ValueError ∨ e = TypeError ∨ e = AttributeError ∨
  (e = IndexError ∧ group resource = "filestore").
Proof.
  unfold collect_item, dict_contains, dict_getitem.
  destruct (item !! "name") as [n|] eqn:Hn; simpl; [|intros [= <-]; by left].
  destruct (item_colname resource item) as [[c|]|e0] eqn:Hc; simpl.
  - destruct (validate_item item age resource clear_all) as [[|]|e1] eqn:Hv;
      simpl; [done|done|].
    intros [= <-].
    destruct (validate_item_raises item age resource clear_all e1) as [->| ->];
      eauto.
  - done.
  - intros [= <-].
    destruct (item_colname_raises resource item e0) as [->|[-> ?]]; eauto 6.
Qed.

(** [collect] raises [CalledProcessError] only for a listing that exits
    non-zero on a resource that does not tolerate it; apart from that it
    raises [ValueError], [TypeError] or [AttributeError], and [IndexError]
    for filestore alone.  It never raises [KeyError]. *)
Theorem collect_exceptions `{Datetime, Gcloud}
    project zones age resource filt clear_all s s' e :
  collect project zones age resource filt clear_all s = (s', Raise e) →
  (e = CalledProcessError ∧ tolerate resource = false ∧
   gcloud_list (environ s) (collect_cmd project zones resource filt) = None) ∨
  e = ValueError ∨ e = TypeError ∨ e = AttributeError ∨
  (e = IndexError ∧ group resource = "filestore").
Proof.
  rewrite collect_unfold.
  destruct (String.eqb (name resource) "sinks" && negb clear_all); [done|].
  simpl. destruct (gcloud_list _ _) as [items|] eqn:Hlist.
  - intros (col & item & _ & Hitem)%for_each_lift_raises. right.
    by eapply collect_item_raises.
  - destruct (tolerate resource) eqn:Htol; [done|]. intros [= <- <-]. by left.
Qed.

Lemma collect_exceptions_witness :
  let r := collect (H := clock_2025) (H0 := gcloud_instances_unlistable)
             "p" BASE_ZONES 1735689600 instances "name !~ ^default" false
             initial_state in
  r.2 = Raise CalledProcessError ∧ tolerate instances = false.
Proof.
  intros r. split; [reflexivity|].
  destruct (collect_exceptions (H := clock_2025) (H0 := gcloud_instances_unlistable)
              "p" BASE_ZONES 1735689600 instances "name !~ ^default" false
              initial_state r.1 CalledProcessError eq_refl)
    as [(_ & Htol & _)|[?|[?|[?|[? _]]]]]; done.
Defined.

(** One listed item without a name voids the whole listing: [collect]
    raises, having run the listing command and nothing else. *)
Theorem collect_nameless_item `{Datetime, Gcloud}
    project zones age resource filt clear_all s item :
  item ∈ collect_listing project zones resource filt clear_all s →
  item !! "name" = None →
  ∃ e, collect project zones age resource filt clear_all s =
       ({| environ := environ s;
           trace := trace s ++ [EvRun (collect_cmd project zones resource filt)] |},
        Raise e).
Proof.
  unfold collect_listing. rewrite collect_unfold.
  destruct (String.eqb (name resource) "sinks" && negb clear_all);
    [by intros ?%elem_of_nil|].
  simpl. destruct (gcloud_list _ _) as [items|]; simpl; [|by intros ?%elem_of_nil].
  intros Hin Hname.
  match goal with
  | |- context [for_each items ?b [] ?st] =>
      pose proof (for_each_lift_state (collect_item age resource clear_all) items [] st)
        as Hst;
      destruct (for_each items b [] st) as [s' [col|e]] eqn:Hrun
  end.
  - destruct (collect_items_groups age resource clear_all items [] col _ _ Hrun)
      as (_ & Hnames & _); [constructor|constructor|].
    rewrite Forall_forall in Hnames. destruct (Hnames item Hin) as [n Hn]. congruence.
  - simpl in Hst. subst s'. by exists e.
Qed.

Lemma collect_nameless_item_witness :
  let nameless := item_of [("zone", JStr "us-central1-a")] in
  let world : Gcloud := {|
    gcloud_list := λ _ _, Some [nameless];
    gcloud_describe := λ _ _, Some ∅;
    gcloud_services := λ _ _, Some "ENABLED";
    gcloud_call := λ _ _, true |} in
  ∃ e, (collect (H := clock_2025) (H0 := world)
          "p" BASE_ZONES 1735689600 disks "name !~ ^default" false
          initial_state).2 = Raise e.
Proof.
  intros nameless world.
  destruct (collect_nameless_item (H := clock_2025) (H0 := world)
              "p" BASE_ZONES 1735689600 disks "name !~ ^default" false
              initial_state nameless) as [e He].
  - apply list_elem_of_here.
  - reflexivity.
  - exists e. by rewrite He.
Defined.

(** ** What [clear_resources] raises, and when the driver catches it all *)

Lemma dispatch_returns `{Gcloud, Args} (f : list json → list json) tol nm
    (batches : list (list json)) errs s :
  ∃ errs', (for_each batches (λ errs clean, asyncCall (f clean) tol nm errs false)
              errs s).2 = Ok errs'.
Proof.
  revert errs s. induction batches as [|clean batches IH]; intros errs s.
  - by eexists.
  - rewrite for_each_cons.
    destruct (asyncCall_returns (f clean) tol nm errs false s) as [errs1 Hret].
    destruct (asyncCall (f clean) tol nm errs false s) as [s1 r]. simpl in Hret.
    subst r. apply IH.
Qed.

Lemma chunks_raises {A} (items : list A) (rate_limit : Z) e :
  chunks items rate_limit = Raise e → e = ValueError ∧ rate_limit = 0.
Proof.
  unfold chunks, py_range. destruct (Z.eqb_spec rate_limit 0) as [->|]; simpl.
  - by intros [= <-].
  - by destruct (0 <? rate_limit).
Qed.

Lemma delete_base_raises project resource e :
  delete_base project resource = Raise e →
  e = KeyError ∧ ∃ m, managed resource = Some m ∧ m ≠ "" ∧ m ≠ "Yes" ∧ m ≠ "No".
Proof.
  unfold delete_base, manage_key.
  destruct (managed resource) as [m|]; simpl; [|done].
  destruct (String.eqb_spec m ""); simpl; [done|].
  destruct (String.eqb_spec m "Yes"); simpl; [done|].
  destruct (String.eqb_spec m "No"); simpl; [done|].
  intros [= <-]. split; [done|]. by exists m.
Qed.

Lemma clear_resources_exceptions_aux `{Gcloud, Args}
    project cols resource rate_limit s s' e :
  clear_resources project cols resource rate_limit s = (s', Raise e) →
  s' = s ∧
  ((e = KeyError ∧
    ∃ m, managed resource = Some m ∧ m ≠ "" ∧ m ≠ "Yes" ∧ m ≠ "No") ∨
   (e = ValueError ∧ bulk_delete resource = true ∧ rate_limit = 0)).
Proof.
  unfold clear_resources. unfold bind at 1.
  set (body := λ (errs : list exn) '(col, items), _).
  destruct (delete_base project resource) as [base|e0] eqn:Hbase.
  - destruct (Z.eq_dec (effective_rate_limit resource rate_limit) 0) as [Hz|Hnz].
    + destruct cols as [|[col items] cols].
      { simpl. unfold ret. done. }
      rewrite for_each_cons. unfold body at 1. unfold bind at 1, lift at 1.
      unfold bind at 1, lift at 1.
      unfold chunks, py_range. rewrite Hz. simpl.
      intros [= <- <-]. split; [done|]. right.
      unfold effective_rate_limit in Hz.
      destruct (bulk_delete resource); simpl in Hz; [done|lia].
    + assert (Hloop : ∀ errs s, ∃ errs', (for_each cols body errs s).2 = Ok errs').
      { clear s. induction cols as [|[col items] cols IH]; intros errs s.
        - by eexists.
        - rewrite for_each_cons. unfold body at 1. unfold bind at 1, lift at 1.
          unfold bind at 1, lift at 1.
          destruct (chunks items (effective_rate_limit resource rate_limit))
            as [batches|e1] eqn:Hb.
          2:{ apply chunks_raises in Hb as [_ ?]. done. }
          destruct (dispatch_returns
                      (delete_cmd resource base (delete_condition resource col))
                      (tolerate resource) (name resource) batches errs s)
            as [errs1 Hret].
          destruct (for_each batches _ errs s) as [s1 r]. simpl in Hret. subst r.
          apply IH. }
      destruct (Hloop [] s) as [errs' Hret].
      destruct (for_each cols body [] s) as [s1 r]. simpl in Hret. subst r. done.
  - destruct cols as [|[col items] cols].
    { simpl. unfold ret. done. }
    rewrite for_each_cons. unfold body at 1. unfold bind at 1, lift at 1.
    intros [= <- <-]. split; [done|]. left. by apply (delete_base_raises project).
Qed.

(** [clear_resources] raises in two cases only, and before any delete
    call: [KeyError] when the resource's managed flag is set to something
    other than [Yes] or [No], [ValueError] when the step is 0, that is
    when the resource deletes in bulk and the rate limit is 0. *)
Theorem clear_resources_exceptions `{Gcloud, Args}
    project cols resource rate_limit s s' e :
  clear_resources project cols resource rate_limit s = (s', Raise e) →
  s' = s ∧
  ((e = KeyError ∧
    ∃ m, managed resource = Some m ∧ m ≠ "" ∧ m ≠ "Yes" ∧ m ≠ "No") ∨
   (e = ValueError ∧ bulk_delete resource = true ∧ rate_limit = 0)).
Proof.
  apply clear_resources_exceptions_aux.
Qed.

Lemma clear_resources_exceptions_witness :
  let r := clear_resources (H := gcloud_empty) (H0 := no_dryrun)
             "p" [("", [JStr "a"])] disks 0 initial_state in
  r = (initial_state, Raise ValueError) ∧
  bulk_delete disks = true.
Proof.
  intros r. split; [reflexivity|].
  destruct (clear_resources_exceptions (H := gcloud_empty) (H0 := no_dryrun)
              "p" [("", [JStr "a"])] disks 0 initial_state initial_state ValueError
              eq_refl) as [_ [[? _]|(_ & Hbulk & _)]]; done.
Defined.

Lemma is_preserved_raises resource item e :
  is_preserved resource item = Raise e → e = KeyError ∧ item !! "name" = None.
Proof.
  unfold is_preserved, dict_getitem.
  destruct (list_truthy (preserved_names resource)); [|done].
  destruct (item !! "name"); simpl; [done|]. by intros [= <-].
Qed.

Lemma managed_mismatch_raises resource item e :
  managed_mismatch resource item = Raise e → e = ValueError.
Proof.
  unfold managed_mismatch, dict_contains, dict_getitem.
  destruct (str_truthy (managed resource)); [|done].
  destruct (item !! "isManaged"); simpl; [done|]. by intros [= <-].
Qed.

Lemma validate_item_TypeError `{Datetime} item age resource clear_all :
  validate_item item age resource clear_all = Raise TypeError →
  (∃ b, creation_timestamp item = JBool b) ∨ (∃ z, creation_timestamp item = JNum z).
Proof.
  unfold validate_item.
  destruct (is_preserved resource item) as [[|]|e1] eqn:Hp; simpl; [done| |].
  2:{ apply is_preserved_raises in Hp as [-> _]. done. }
  destruct (managed_mismatch resource item) as [[|]|e2] eqn:Hm; simpl; [done| |].
  2:{ apply managed_mismatch_raises in Hm as ->. done. }
  destruct clear_all; [done|].
  destruct (creation_timestamp item) as [|b|z|ts]; simpl; [done|by eauto|by eauto|].
  destruct (strptime ts); simpl; [|done].
  unfold dict_getitem. by destruct (item !! "name").
Qed.

Lemma item_colname_AttributeError resource item :
  item_colname resource item = Raise AttributeError →
  ∃ k v, item !! k = Some v ∧ ∀ s, v ≠ JStr s.
Proof.
  unfold item_colname, dict_contains, dict_getitem.
  destruct (condition resource) as [cond|]; [|done].
  destruct (String.eqb cond "global"); [by destruct (_ || _)|].
  destruct (item !! cond) as [v|] eqn:Hv; simpl.
  - destruct v; simpl; try (intros _; eexists _, _; split; [exact Hv|done]).
    unfold mret, result_ret. done.
  - destruct (String.eqb (group resource) "filestore"); [|unfold mret, result_ret; done].
    destruct (item !! "name") as [n|] eqn:Hn; simpl; [|done].
    destruct n; simpl; try (intros _; eexists _, _; split; [exact Hn|done]).
    destruct (py_split _ _ !! _); simpl; unfold mret, result_ret; done.
Qed.

Lemma string_valued_timestamp item :
  string_valued item →
  creation_timestamp item = JNull ∨ ∃ ts, creation_timestamp item = JStr ts.
Proof.
  intros Hs. unfold creation_timestamp, dict_get.
  destruct (item !! "creationTimestamp") as [v|] eqn:Hv.
  { destruct (Hs _ _ Hv) as [ts ->]. right. by exists ts. }
  destruct (item !! "createTime") as [v|] eqn:Hv'; [|by left].
  destruct (Hs _ _ Hv') as [ts ->]. right. by exists ts.
Qed.

Lemma collect_item_raises_strings `{Datetime} age resource clear_all col item e :
  string_valued item →
  group resource ≠ "filestore" →
  collect_item age resource clear_all col item = Raise e →
  e = ValueError.
Proof.
  intros Hs Hg. unfold collect_item, dict_contains, dict_getitem.
  destruct (item !! "name") as [n|] eqn:Hn; simpl; [|by intros [= <-]].
  destruct (item_colname resource item) as [[c|]|e0] eqn:Hc; simpl.
  - destruct (validate_item item age resource clear_all) as [[|]|e1] eqn:Hv;
      simpl; [done|done|].
    intros [= <-].
    destruct (validate_item_raises item age resource clear_all e1
                (ex_intro _ n Hn) Hv) as [->| ->]; [done|].
    exfalso.
    destruct (validate_item_TypeError _ _ _ _ Hv) as [[b Hb]|[z Hz]];
      destruct (string_valued_timestamp item Hs) as [Hts|[ts Hts]]; congruence.
  - done.
  - intros [= <-].
    destruct (item_colname_raises resource item e0 (ex_intro _ n Hn) Hc)
      as [->|[-> ?]]; [|done].
    exfalso.
    destruct (item_colname_AttributeError resource item Hc) as (k & v & Hk & Hv).
    destruct (Hs k v Hk) as [s0 ->]. by eapply Hv.
Qed.

(** On listings whose fields are all strings, for a resource other than
    filestore whose managed flag is unset, [Yes] or [No], everything that
    [collect] and [clear_resources] can raise is a [CalledProcessError] or
    a [ValueError]: the driver's [except] clause catches it. *)
Theorem string_listings_failures_caught `{Datetime, Gcloud, Args}
    project zones age filt clear_all rate_limit resource base :
  (∀ env cmd items, gcloud_list env cmd = Some items → Forall string_valued items) →
  group resource ≠ "filestore" →
  delete_base project resource = Ok base →
  failures_caught project zones age filt clear_all rate_limit [resource].
Proof.
  intros Hstr Hg Hbase res ->%list_elem_of_singleton err s e.
  unfold collect_and_clear, bind.
  destruct (collect project zones age resource filt clear_all s) as [s1 [col|e0]] eqn:Hc.
  - destruct col as [|g col]; [done|].
    destruct (clear_resources project (g :: col) resource rate_limit s1)
      as [s2 [n|e1]] eqn:Hclear; [done|].
    simpl. intros [= <-].
    destruct (clear_resources_exceptions_aux project (g :: col) resource rate_limit s1 s2 e1
                Hclear) as [_ [[_ (m & Hm & ? & ? & ?)]|[-> _]]]; [|done].
    exfalso. revert Hbase. unfold delete_base, manage_key. rewrite Hm. simpl.
    destruct (String.eqb_spec m ""); [done|]. simpl.
    destruct (String.eqb_spec m "Yes"); [done|].
    destruct (String.eqb_spec m "No"); done.
  - simpl. intros [= <-]. revert Hc. rewrite collect_unfold.
    destruct (String.eqb (name resource) "sinks" && negb clear_all); [done|].
    simpl. destruct (gcloud_list _ _) as [items|] eqn:Hlist.
    + intros (col & item & Hin & Hitem)%for_each_lift_raises.
      pose proof (Hstr _ _ _ Hlist) as Hall. rewrite Forall_forall in Hall.
      by rewrite (collect_item_raises_strings age resource clear_all col item e0
                    (Hall item Hin) Hg Hitem).
    + destruct (tolerate resource); [done|]. by intros [= <- <-].
Qed.

Lemma string_valued_item_of (fields : list (string * json)) :
  Forall (λ kv, ∃ s, kv.2 = JStr s) fields → string_valued (item_of fields).
Proof.
  intros Hall k v Hkv. unfold item_of in Hkv.
  apply elem_of_list_to_map_2 in Hkv.
  rewrite Forall_forall in Hall. exact (Hall (k, v) Hkv).
Qed.

Lemma string_valued_empty : string_valued ∅.
Proof. intros k v Hkv. by rewrite lookup_empty in Hkv. Qed.

Lemma string_valued_insert item k s :
  string_valued item → string_valued (<[k := JStr s]> item).
Proof.
  intros Hitem k' v Hkv. apply lookup_insert_Some in Hkv as [[_ <-]|[_ Hkv]];
    [by eexists|by eapply Hitem].
Qed.

Lemma string_listings_failures_caught_witness :
  delete_base "p" disks = Ok ["gcloud"; "compute"; "-q"; "disks"; "delete"; "--project=p"] ∧
  (collect_and_clear (H := clock_2025) (H0 := gcloud_undated_disk) (H1 := no_dryrun)
     "p" BASE_ZONES 1735689600 "name !~ ^default" false 50 0 disks initial_state).2
    = Raise ValueError ∧
  failures_caught (H := clock_2025) (H0 := gcloud_undated_disk) (H1 := no_dryrun)
    "p" BASE_ZONES 1735689600 "name !~ ^default" false 50 [disks].
Proof.
  split; [reflexivity|]. split; [reflexivity|].
  apply (string_listings_failures_caught (H := clock_2025) (H0 := gcloud_undated_disk)
           (H1 := no_dryrun) "p" BASE_ZONES 1735689600 "name !~ ^default" false 50
           disks ["gcloud"; "compute"; "-q"; "disks"; "delete"; "--project=p"]).
  - intros env cmd items. cbn [gcloud_list gcloud_undated_disk].
    case_bool_decide; intros [= <-]; [|constructor].
    apply Forall_cons. split; [|constructor].
    do 2 apply string_valued_insert. apply string_valued_empty.
  - discriminate.
  - reflexivity.
Defined.

(** ** BatchDeleter: rate limits, dry runs and the failure count *)

Lemma chunks_negative {A} (items : list A) (k : Z) : k < 0 → chunks items k = Ok [].
Proof.
  intros Hk. unfold chunks, py_range.
  destruct (Z.eqb_spec k 0); [lia|]. destruct (Z.ltb_spec 0 k); [lia|]. simpl.
  replace (Z.to_nat (0 - Z.of_nat (length items))) with 0%nat by lia. done.
Qed.

(** A negative rate limit on a resource that deletes in bulk makes
    [clear_resources] a no-op that reports success: no chunk is cut, no
    command is run and the result is 0, whatever the groups hold. *)
Theorem negative_rate_limit_deletes_nothing `{Gcloud, Args}
    project cols resource rate_limit base s :
  bulk_delete resource = true →
  rate_limit < 0 →
  delete_base project resource = Ok base →
  clear_resources project cols resource rate_limit s = (s, Ok 0).
Proof.
  intros Hbulk Hneg Hbase. unfold clear_resources, effective_rate_limit.
  rewrite Hbulk. cbn [negb].
  set (body := λ (errs : list exn) '(col, items), _).
  assert (Hloop : ∀ errs, for_each cols body errs s = (s, Ok errs)).
  { induction cols as [|[col items] cols IH]; intros errs; [done|].
    rewrite for_each_cons. unfold body at 1. unfold bind at 1, lift at 1.
    rewrite Hbase. unfold bind at 1, lift at 1.
    rewrite (chunks_negative items rate_limit Hneg). simpl. apply IH. }
  unfold bind. by rewrite Hloop.
Qed.

Lemma negative_rate_limit_deletes_nothing_witness :
  clear_resources (H := gcloud_empty) (H0 := no_dryrun)
    "p" [("us-central1-a", [JStr "a"; JStr "b"])] disks (-1) initial_state
  = (initial_state, Ok 0).
Proof.
  apply (negative_rate_limit_deletes_nothing (H := gcloud_empty) (H0 := no_dryrun)
           "p" [("us-central1-a", [JStr "a"; JStr "b"])] disks (-1)
           ["gcloud"; "compute"; "-q"; "disks"; "delete"; "--project=p"]
           initial_state); [reflexivity|lia|reflexivity].
Defined.

(** In dry-run mode [clear_resources] runs nothing and counts nothing:
    the state is untouched and the result is 0. *)
Theorem dry_run_deletes_nothing `{Gcloud, Args}
    project cols resource rate_limit base s :
  dryrun = true →
  delete_base project resource = Ok base →
  effective_rate_limit resource rate_limit ≠ 0 →
  clear_resources project cols resource rate_limit s = (s, Ok 0).
Proof.
  intros Hdry Hbase Hrate. unfold clear_resources.
  set (body := λ (errs : list exn) '(col, items), _).
  assert (Hinner : ∀ (f : list json → list json) batches errs,
    for_each batches (λ errs clean,
      asyncCall (f clean) (tolerate resource) (name resource) errs false) errs s
    = (s, Ok errs)).
  { intros f batches. induction batches as [|clean batches IH]; intros errs; [done|].
    rewrite for_each_cons. unfold asyncCall at 1. rewrite Hdry. unfold ret at 1.
    apply IH. }
  assert (Hloop : ∀ errs, for_each cols body errs s = (s, Ok errs)).
  { induction cols as [|[col items] cols IH]; intros errs; [done|].
    rewrite for_each_cons. unfold body at 1. unfold bind at 1, lift at 1.
    rewrite Hbase. unfold bind at 1, lift at 1.
    destruct (chunks items (effective_rate_limit resource rate_limit))
      as [batches|e] eqn:Hb.
    2:{ apply chunks_raises in Hb as [_ ?]. done. }
    rewrite Hinner. apply IH. }
  unfold bind. by rewrite Hloop.
Qed.

Lemma dry_run_deletes_nothing_witness :
  clear_resources (H := gcloud_failing_deletes 0) (H0 := dry_run)
    "p" [("us-central1-a", [JStr "a"; JStr "b"])] disks 50 initial_state
  = (initial_state, Ok 0).
Proof.
  apply (dry_run_deletes_nothing (H := gcloud_failing_deletes 0) (H0 := dry_run)
           "p" [("us-central1-a", [JStr "a"; JStr "b"])] disks 50
           ["gcloud"; "compute"; "-q"; "disks"; "delete"; "--project=p"]
           initial_state); [reflexivity|reflexivity|discriminate].
Defined.

Lemma stderr_lines_app (tr1 tr2 : list event) :
  stderr_lines (tr1 ++ tr2) = stderr_lines tr1 ++ stderr_lines tr2.
Proof. apply omap_app. Qed.

Lemma failing_app `{Gcloud} env (l1 l2 : list (list string)) :
  failing env (l1 ++ l2) = (failing env l1 + failing env l2)%nat.
Proof. unfold failing. by rewrite filter_app, length_app. Qed.

Lemma asyncCall_counts `{Gcloud, Args} cmd tol nm errs hide s :
  dryrun = false →
  ∃ s' errs',
    asyncCall cmd tol nm errs hide s = (s', Ok errs') ∧
    environ s' = environ s ∧
    length errs' =
      (length errs + if tol then 0 else failing (environ s) (argv_of cmd))%nat ∧
    length (stderr_lines (trace s')) =
      (length (stderr_lines (trace s)) + failing (environ s) (argv_of cmd))%nat.
Proof.
  intros Hdry. unfold asyncCall, argv_of, failing. rewrite Hdry.
  destruct (cmd_args cmd) as [argv|e].
  - unfold bind, check_call, emit, ret. simpl.
    destruct (gcloud_call (environ s) argv) eqn:Hcall; simpl;
      eexists _, _; (split; [reflexivity|]); simpl;
      rewrite ?stderr_lines_app; simpl.
    + rewrite filter_cons, decide_False by congruence. simpl.
      rewrite app_nil_r. destruct tol; repeat split; lia.
    + rewrite filter_cons, decide_True by done. simpl.
      rewrite app_nil_r, !length_app. simpl.
      destruct tol; simpl; rewrite ?length_app; simpl; repeat split; lia.
  - exists s, errs. simpl. destruct tol; repeat split; lia.
Qed.

Lemma dispatch_group_counts `{Gcloud, Args} (f : list json → list json) tol nm
    (batches : list (list json)) errs s :
  dryrun = false →
  ∃ s' errs',
    for_each batches (λ errs clean, asyncCall (f clean) tol nm errs false) errs s
      = (s', Ok errs') ∧
    environ s' = environ s ∧
    length errs' =
      (length errs +
       if tol then 0
       else failing (environ s) (flat_map (λ clean, argv_of (f clean)) batches))%nat ∧
    length (stderr_lines (trace s')) =
      (length (stderr_lines (trace s)) +
       failing (environ s) (flat_map (λ clean, argv_of (f clean)) batches))%nat.
Proof.
  intros Hdry. revert errs s. induction batches as [|clean batches IH]; intros errs s.
  - exists s, errs. unfold failing. simpl. destruct tol; repeat split; lia.
  - rewrite for_each_cons.
    destruct (asyncCall_counts (f clean) tol nm errs false s Hdry)
      as (s1 & errs1 & -> & Henv1 & Hn1 & Hl1).
    destruct (IH errs1 s1) as (s2 & errs2 & -> & Henv2 & Hn2 & Hl2).
    exists s2, errs2. split; [done|]. split; [congruence|].
    cbn [flat_map]. rewrite failing_app. rewrite Henv1 in Hn2, Hl2.
    destruct tol; repeat split; lia.
Qed.

(** Outside dry-run mode [clear_resources] prints one line for every
    delete call that exits non-zero, and returns their number, or 0 when
    the resource tolerates failures. *)
Theorem clear_resources_counts_failures `{Gcloud, Args}
    project cols resource rate_limit base s :
  dryrun = false →
  delete_base project resource = Ok base →
  effective_rate_limit resource rate_limit ≠ 0 →
  ∃ s',
    clear_resources project cols resource rate_limit s =
      (s', Ok (if tolerate resource then 0
               else Z.of_nat (failing (environ s)
                                (dispatched resource rate_limit base cols)))) ∧
    environ s' = environ s ∧
    length (stderr_lines (trace s')) =
      (length (stderr_lines (trace s)) +
       failing (environ s) (dispatched resource rate_limit base cols))%nat.
Proof.
  intros Hdry Hbase Hrate. unfold clear_resources, dispatched.
  set (rate := effective_rate_limit resource rate_limit) in *.
  set (body := λ (errs : list exn) '(col, items), _).
  set (argvs := λ cols : list (string * list json),
    flat_map (λ '(col, items),
      flat_map (λ clean,
        argv_of (delete_cmd resource base (delete_condition resource col) clean))
        (batches_of items rate)) cols).
  assert (Hloop : ∀ errs s, ∃ s' errs',
    for_each cols body errs s = (s', Ok errs') ∧
    environ s' = environ s ∧
    length errs' =
      (length errs + if tolerate resource then 0
                     else failing (environ s) (argvs cols))%nat ∧
    length (stderr_lines (trace s')) =
      (length (stderr_lines (trace s)) + failing (environ s) (argvs cols))%nat).
  { clear s. induction cols as [|[col items] cols IH]; intros errs s.
    - exists s, errs. unfold failing. simpl.
      destruct (tolerate resource); repeat split; lia.
    - rewrite for_each_cons. unfold body at 1. unfold bind at 1, lift at 1.
      rewrite Hbase. unfold bind at 1, lift at 1.
      assert (∃ batches, chunks items rate = Ok batches) as [batches Hb].
      { unfold chunks, py_range. destruct (Z.eqb_spec rate 0); [done|].
        destruct (0 <? rate); by eexists. }
      assert (Hbo : batches_of items rate = batches)
        by (unfold batches_of; by rewrite Hb).
      unfold argvs. cbn [flat_map]. rewrite Hb, Hbo.
      destruct (dispatch_group_counts
                  (delete_cmd resource base (delete_condition resource col))
                  (tolerate resource) (name resource) batches errs s Hdry)
        as (s1 & errs1 & -> & Henv1 & Hn1 & Hl1).
      destruct (IH errs1 s1) as (s2 & errs2 & -> & Henv2 & Hn2 & Hl2).
      exists s2, errs2. split; [done|]. split; [congruence|].
      rewrite !failing_app. rewrite Henv1 in Hn2, Hl2. unfold argvs in Hn2, Hl2.
      destruct (tolerate resource); repeat split; lia. }
  unfold bind. destruct (Hloop [] s) as (s' & errs' & -> & Henv & Hn & Hl).
  exists s'. unfold ret. split; [|done]. do 2 f_equal.
  rewrite Hn. destruct (tolerate resource); simpl; lia.
Qed.

Lemma clear_resources_counts_failures_witness :
  ∃ s',
    clear_resources (H := gcloud_failing_deletes 0) (H0 := no_dryrun)
      "p" [("", [JStr "m0"; JStr "m1"; JStr "m2"])] hub_memberships 50 initial_state
    = (s', Ok 3) ∧
    length (stderr_lines (trace s')) = 3%nat.
Proof.
  destruct (clear_resources_counts_failures (H := gcloud_failing_deletes 0)
              (H0 := no_dryrun)
              "p" [("", [JStr "m0"; JStr "m1"; JStr "m2"])] hub_memberships 50
              ["gcloud"; "container"; "-q"; "hub"; "memberships"; "delete";
               "--project=p"]
              initial_state eq_refl eq_refl) as (s' & Hrun & _ & Hlines).
  { discriminate. }
  exists s'. split; [exact Hrun|exact Hlines].
Defined.

(** ** ClusterSweeper: what is visited and what is deleted *)

Lemma sweep_fresh_records `{Datetime, Gcloud, Args} project age items errs s :
  Forall (fresh_cluster age) items →
  for_each items (sweep_cluster project age) errs s = (s, Ok errs).
Proof.
  induction 1 as [|item items (t & Ht & Hle) _ IH]; [done|].
  rewrite for_each_cons. unfold sweep_cluster at 1. unfold bind at 1, lift at 1.
  rewrite Ht. rewrite bool_decide_false by lia. unfold ret at 1. exact IH.
Qed.

Lemma sweep_fresh_endpoints `{Datetime, Gcloud, Args} project age filt eps :
  (∀ env items, gcloud_list env (clusters_cmd project filt) = Some items →
                Forall (fresh_cluster age) items) →
  ∀ errs s, ∃ s',
    for_each eps (sweep_endpoint project age filt) errs s = (s', Ok errs) ∧
    endpoints_visited (trace s') = endpoints_visited (trace s) ++ eps ∧
    commands (trace s') =
      commands (trace s) ++ replicate (length eps) (clusters_cmd project filt).
Proof.
  intros Hfresh. induction eps as [|endpoint eps IH]; intros errs s.
  - exists s. by rewrite !app_nil_r.
  - rewrite for_each_cons, sweep_endpoint_unfold.
    assert (Hstep : match gcloud_list (<[CONTAINER_OVERRIDE:=endpoint]> (environ s))
                          (clusters_cmd project filt) with
                    | Some output =>
                        for_each output (sweep_cluster project age) errs
                          (listed project filt endpoint s)
                    | None => (listed project filt endpoint s, Ok errs)
                    end = (listed project filt endpoint s, Ok errs)).
    { destruct (gcloud_list _ _) as [items|] eqn:Hlist; [|done].
      apply sweep_fresh_records. by eapply Hfresh. }
    rewrite Hstep.
    destruct (IH errs (listed project filt endpoint s)) as (s' & -> & Hv & Hc).
    exists s'. split; [done|]. rewrite Hv, Hc. unfold listed. simpl.
    rewrite !endpoints_visited_app, !commands_app. simpl.
    rewrite !app_nil_r, <- !app_assoc. done.
Qed.

(** When every endpoint is unreachable or lists only well-formed clusters
    that are not older than the cutoff, the sweep visits the four
    endpoints in the declared order, runs the four listings and nothing
    else, and reports no failure. *)
Theorem sweep_without_stale_clusters `{Datetime, Gcloud, Args} project age filt s :
  (∀ env items, gcloud_list env (clusters_cmd project filt) = Some items →
                Forall (fresh_cluster age) items) →
  ∃ s',
    clean_gke_cluster project age filt s = (s', Ok false) ∧
    endpoints_visited (trace s') = endpoints_visited (trace s) ++ endpoints ∧
    commands (trace s') =
      commands (trace s) ++ replicate 4 (clusters_cmd project filt).
Proof.
  intros Hfresh. unfold clean_gke_cluster, bind.
  destruct (sweep_fresh_endpoints project age filt endpoints Hfresh [] s)
    as (s' & -> & Hv & Hc).
  exists s'. by repeat split.
Qed.

Lemma sweep_without_stale_clusters_witness :
  ∃ s',
    clean_gke_cluster (H := clock_2025) (H0 := gcloud_no_listing) (H1 := no_dryrun)
      "p" 1735689600 "name !~ ^default" initial_state = (s', Ok false) ∧
    endpoints_visited (trace s') = endpoints_visited (trace initial_state) ++ endpoints ∧
    commands (trace s') =
      commands (trace initial_state) ++
      replicate 4 (clusters_cmd "p" "name !~ ^default").
Proof.
  apply (sweep_without_stale_clusters (H := clock_2025) (H0 := gcloud_no_listing)
           (H1 := no_dryrun) "p" 1735689600 "name !~ ^default" initial_state).
  intros env items [=].
Defined.

Lemma split_head_plus (ts tz : string) :
  has_char "+"%char ts = false →
  split_head "+"%char (ts +:+ String "+"%char tz) = ts.
Proof.
  unfold split_head. induction ts as [|a ts IH]; simpl.
  - intros _. done.
  - destruct (Ascii.eqb a "+") eqn:Ha; simpl; [done|]. intros Hts.
    specialize (IH Hts).
    destruct (py_split "+" (ts +:+ String "+"%char tz)) as [|p ps]; simpl in *;
      by rewrite ?IH.
Qed.

(** The sweep reads a cluster's creation time from the part of
    [createTime] before the first [+]: a time-zone suffix is dropped, not
    interpreted. *)
Theorem cluster_created_drops_offset `{Datetime} item ts tz :
  is_Some (item !! "name") →
  is_Some (item !! "zone") ∨ is_Some (item !! "region") →
  item !! "createTime" = Some (JStr (ts +:+ String "+"%char tz)) →
  has_char "+"%char ts = false →
  cluster_created item =
  match strptime ts with
  | Some t => Ok t
  | None => Raise ValueError
  end.
Proof.
  intros [n Hn] Hscope Hct Hts. unfold cluster_created, dict_contains, dict_getitem.
  rewrite Hn, Hct. simpl.
  assert (Hor : (match item !! "zone" with Some _ => true | None => false end
                 || match item !! "region" with Some _ => true | None => false end)
                = true).
  { destruct Hscope as [[? ->]|[? ->]]; [done|]. apply orb_true_r. }
  rewrite Hor. simpl. by rewrite split_head_plus.
Qed.

Lemma cluster_created_drops_offset_witness :
  cluster_created (H := clock_2025)
    (item_of [("name", JStr "c1"); ("zone", JStr "us-central1-a");
              ("createTime", JStr "2017-08-30T18:33:14+00:00")])
  = Ok 1504117994.
Proof.
  apply (cluster_created_drops_offset (H := clock_2025)
           (item_of [("name", JStr "c1"); ("zone", JStr "us-central1-a");
                     ("createTime", JStr "2017-08-30T18:33:14+00:00")])
           "2017-08-30T18:33:14" "00:00").
  - by eexists.
  - left. by eexists.
  - reflexivity.
  - reflexivity.
Defined.

Lemma dry_sweep_cluster `{Datetime, Gcloud, Args} project age errs item s :
  dryrun = true →
  sweep_cluster project age errs item s = (s, Ok errs) ∨
  ∃ e, sweep_cluster project age errs item s = (s, Raise e).
Proof.
  intros Hdry. unfold sweep_cluster, bind, lift.
  destruct (cluster_created item) as [t|e]; [|by eauto].
  case_bool_decide; [|by left].
  destruct (dict_getitem item "name") as [n|e]; [|by eauto].
  unfold asyncCall. rewrite Hdry. by left.
Qed.

Lemma dry_sweep_records `{Datetime, Gcloud, Args} project age items errs s :
  dryrun = true →
  for_each items (sweep_cluster project age) errs s = (s, Ok errs) ∨
  ∃ e, for_each items (sweep_cluster project age) errs s = (s, Raise e).
Proof.
  intros Hdry. induction items as [|item items IH]; [by left|].
  rewrite for_each_cons.
  destruct (dry_sweep_cluster project age errs item s Hdry) as [->|[e ->]];
    [exact IH|by eauto].
Qed.

Lemma dry_sweep_endpoints `{Datetime, Gcloud, Args} project age filt eps errs s :
  dryrun = true →
  ∃ s' r (n : nat),
    for_each eps (sweep_endpoint project age filt) errs s = (s', r) ∧
    (r = Ok errs ∨ ∃ e, r = Raise e) ∧
    (n ≤ length eps)%nat ∧
    commands (trace s') = commands (trace s) ++ replicate n (clusters_cmd project filt) ∧
    stderr_lines (trace s') = stderr_lines (trace s).
Proof.
  intros Hdry. revert s. induction eps as [|endpoint eps IH]; intros s.
  - exists s, (Ok errs), 0%nat. rewrite app_nil_r. repeat split; by eauto.
  - rewrite for_each_cons, sweep_endpoint_unfold.
    assert (Hstep :
      match gcloud_list (<[CONTAINER_OVERRIDE:=endpoint]> (environ s))
              (clusters_cmd project filt) with
      | Some output =>
          for_each output (sweep_cluster project age) errs
            (listed project filt endpoint s)
      | None => (listed project filt endpoint s, Ok errs)
      end = (listed project filt endpoint s, Ok errs) ∨
      ∃ e, match gcloud_list (<[CONTAINER_OVERRIDE:=endpoint]> (environ s))
                   (clusters_cmd project filt) with
           | Some output =>
               for_each output (sweep_cluster project age) errs
                 (listed project filt endpoint s)
           | None => (listed project filt endpoint s, Ok errs)
           end = (listed project filt endpoint s, Raise e)).
    { destruct (gcloud_list _ _) as [items|]; [|by left].
      by apply dry_sweep_records. }
    assert (Hl : commands (trace (listed project filt endpoint s)) =
                 commands (trace s) ++ [clusters_cmd project filt] ∧
                 stderr_lines (trace (listed project filt endpoint s)) =
                 stderr_lines (trace s)).
    { unfold listed. simpl. rewrite !commands_app, !stderr_lines_app. simpl.
      by rewrite !app_nil_r. }
    destruct Hl as [Hlc Hls].
    destruct Hstep as [->|[e ->]].
    + destruct (IH (listed project filt endpoint s))
        as (s' & r & n & -> & Hr & Hn & Hc & Hs).
      exists s', r, (S n). split; [done|]. split; [done|]. split; [simpl; lia|].
      rewrite Hc, Hs, Hlc, Hls. simpl. by rewrite <- app_assoc.
    + exists (listed project filt endpoint s), (Raise e), 1%nat.
      split; [done|]. split; [by eauto|]. split; [simpl; lia|]. by rewrite Hlc, Hls.
Qed.

(** In dry-run mode the cluster sweep only lists: every command it runs
    is the cluster listing, at most once for each endpoint, it prints
    nothing on stderr and it never reports a failed delete. *)
Theorem dry_run_sweep_only_lists `{Datetime, Gcloud, Args} project age filt s :
  dryrun = true →
  ∃ s' r (n : nat),
    clean_gke_cluster project age filt s = (s', r) ∧
    r ≠ Ok true ∧
    (n ≤ 4)%nat ∧
    commands (trace s') = commands (trace s) ++ replicate n (clusters_cmd project filt) ∧
    stderr_lines (trace s') = stderr_lines (trace s).
Proof.
  intros Hdry. unfold clean_gke_cluster, bind.
  destruct (dry_sweep_endpoints project age filt endpoints [] s Hdry)
    as (s' & r & n & -> & Hr & Hn & Hc & Hs).
  destruct Hr as [->|[e ->]].
  - exists s', (Ok false), n. by repeat split.
  - exists s', (Raise e), n. by repeat split.
Qed.

Lemma dry_run_sweep_only_lists_witness :
  ∃ s' r (n : nat),
    clean_gke_cluster (H := clock_2025) (H0 := gcloud_old_cluster) (H1 := dry_run)
      "p" 1735689600 "name !~ ^default" initial_state = (s', r) ∧
    r ≠ Ok true ∧
    (n ≤ 4)%nat ∧
    commands (trace s') =
      commands (trace initial_state) ++
      replicate n (clusters_cmd "p" "name !~ ^default") ∧
    stderr_lines (trace s') = stderr_lines (trace initial_state).
Proof.
  apply (dry_run_sweep_only_lists (H := clock_2025) (H0 := gcloud_old_cluster)
           (H1 := dry_run) "p" 1735689600 "name !~ ^default" initial_state).
  reflexivity.
Defined.

(** Outside dry-run mode the same project has its cluster deleted at each
    of the four endpoints. *)
Example sweep_deletes_old_cluster :
  let r := clean_gke_cluster (H := clock_2025) (H0 := gcloud_old_cluster)
             (H1 := no_dryrun) "p" 1735689600 "name !~ ^default" initial_state in
  r.2 = Ok false ∧
  filter (λ cmd, cmd !! 4%nat = Some "delete") (commands (trace r.1)) =
  replicate 4 ["gcloud"; "container"; "-q"; "clusters"; "delete"; "c1";
               "--project=p"; "--zone=us-central1-a"].
Proof. vm_compute. split; reflexivity. Qed.

(** ** Driver: the API gate, the service account, tolerated listings *)

(** An API whose state is anything but [ENABLED] (empty, or unexpected) is
    skipped: nothing is searched, the environment and the failure value
    are kept.  A services query that exits non-zero is not caught: the
    [CalledProcessError] leaves the catalog loop with the APIs after it
    untouched. *)
Theorem api_gate `{Datetime, Gcloud, Args}
    project zones age filt clear_all rate_limit api resources rest err s :
  let s1 := {| environ := environ s;
               trace := trace s ++ [EvRun (services_cmd project api)] |} in
  (∀ st, gcloud_services (environ s) (services_cmd project api) = Some st →
         st ≠ "ENABLED" →
         clean_api project zones age filt clear_all rate_limit err (api, resources) s
           = (s1, Ok err)) ∧
  (gcloud_services (environ s) (services_cmd project api) = None →
   for_each ((api, resources) :: rest)
     (clean_api project zones age filt clear_all rate_limit) err s
     = (s1, Raise CalledProcessError)).
Proof.
  intros s1. split.
  - intros st Hst Hne. unfold clean_api. unfold bind at 1.
    rewrite (api_enabled_returns project api s) by (by eexists).
    unfold api_state. rewrite Hst.
    destruct (String.eqb_spec st "ENABLED"); [done|]. reflexivity.
  - intros Hnone. rewrite for_each_cons. unfold clean_api. unfold bind at 1.
    unfold api_enabled, bind, check_output_services. simpl. by rewrite Hnone.
Qed.

Lemma api_gate_witness :
  for_each small_catalog
    (clean_api (H := clock_2025) (H0 := gcloud_no_services) (H1 := no_dryrun)
       "p" BASE_ZONES 1735689600 "name !~ ^default" false 50) 0 initial_state
  = ({| environ := ∅;
        trace := [EvRun (services_cmd "p" "compute.googleapis.com")] |},
     Raise CalledProcessError).
Proof.
  apply (api_gate (H := clock_2025) (H0 := gcloud_no_services) (H1 := no_dryrun)
           "p" BASE_ZONES 1735689600 "name !~ ^default" false 50
           "compute.googleapis.com" [instances; disks]
           [("pubsub.googleapis.com", [subscriptions])] 0 initial_state).
  reflexivity.
Defined.

(** When the activation of the service account exits non-zero the run
    ends at once with [sys.exit(1)]: the activation is the only command
    run, and both failure lines are printed. *)
Theorem activation_failure_exits `{Datetime, Gcloud, Args}
    catalog project days hours filt rate_limit sa additional_zones quota s :
  sa ≠ "" →
  gcloud_call (environ s) (activate_cmd sa) = false →
  main catalog project days hours filt rate_limit (Some sa) additional_zones quota s =
  ({| environ := environ s;
      trace := trace s ++
        [EvRun (activate_cmd sa);
         EvStderr ("Error try to activate service_account: " +:+ sa);
         EvStderr ("Failed to activate service account " +:+ sa)] |},
   Raise (SystemExit 1)).
Proof.
  intros Hsa Hcall. unfold main. rewrite (str_truthy_Some sa Hsa).
  unfold bind at 1. unfold bind at 1.
  unfold activate_service_account, bind at 1, check_call at 1.
  cbn [environ]. change (default "" (Some sa)) with sa.
  fold (activate_cmd sa). rewrite Hcall.
  unfold bind, emit, ret, raise. simpl. by rewrite <- !app_assoc.
Qed.

Lemma activation_failure_exits_witness :
  exit_status (run (H := clock_2025) (H0 := gcloud_bad_key) (H1 := no_dryrun)
                 RESOURCES_BY_API "p" 1 0 "name !~ ^default" 50
                 (Some "/etc/key.json") [] false).2 = 1.
Proof.
  unfold run.
  rewrite (activation_failure_exits (H := clock_2025) (H0 := gcloud_bad_key)
             (H1 := no_dryrun) RESOURCES_BY_API "p" 1 0 "name !~ ^default" 50
             "/etc/key.json" [] false initial_state); [reflexivity|discriminate|reflexivity].
Defined.

(** A listing that exits non-zero on a resource that tolerates failures
    counts for nothing: the driver's pass over the resource runs the
    listing, prints nothing and keeps the failure value. *)
Theorem tolerated_listing_failure `{Datetime, Gcloud, Args}
    api project zones age filt clear_all rate_limit err res s :
  tolerate res = true →
  String.eqb (name res) "sinks" && negb clear_all = false →
  gcloud_list (environ s) (collect_cmd project zones res filt) = None →
  clean_resource api project zones age filt clear_all rate_limit err res s =
  ({| environ := environ s;
      trace := trace s ++ [EvSearch api res;
                           EvRun (collect_cmd project zones res filt)] |},
   Ok err).
Proof.
  intros Htol Hsinks Hlist. unfold clean_resource, bind, emit, try_except. simpl.
  unfold collect_and_clear, bind. rewrite collect_unfold, Hsinks. simpl.
  rewrite Hlist, Htol. unfold ret. simpl. by rewrite <- app_assoc.
Qed.

Lemma tolerated_listing_failure_witness :
  (clean_resource (H := clock_2025) (H0 := gcloud_no_listing) (H1 := no_dryrun)
     "compute.googleapis.com" "p" BASE_ZONES 1735689600 "name !~ ^default" false 50
     0 subnets initial_state).2 = Ok 0.
Proof.
  rewrite (tolerated_listing_failure (H := clock_2025) (H0 := gcloud_no_listing)
             (H1 := no_dryrun) "compute.googleapis.com" "p" BASE_ZONES 1735689600
             "name !~ ^default" false 50 0 subnets initial_state);
    reflexivity.
Defined.

(** ** SubnetRangeCleaner: what it can raise *)

Lemma for_each_lift_safe {A S} (I : S → Prop) (P : A → Prop)
    (f : S → A → result S) (l : list A) (acc : S) (s : state) :
  Forall P l → I acc →
  (∀ acc x, I acc → P x →
     (∃ acc', f acc x = Ok acc' ∧ I acc') ∨ f acc x = Raise ValueError) →
  (∃ acc', for_each l (λ acc x, lift (f acc x)) acc s = (s, Ok acc') ∧ I acc') ∨
  for_each l (λ acc x, lift (f acc x)) acc s = (s, Raise ValueError).
Proof.
  intros Hall Hacc Hstep. revert acc Hacc.
  induction Hall as [|x l Hx _ IH]; intros acc Hacc.
  - left. by exists acc.
  - rewrite for_each_cons. unfold lift at 1.
    destruct (Hstep acc x Hacc Hx) as [(acc' & -> & Hacc')| ->]; [by apply IH|by right].
Qed.

Lemma cmd_args_strings (cmd : list json) :
  Forall (λ v, ∃ s, v = JStr s) cmd → ∃ argv, cmd_args cmd = Ok argv.
Proof.
  unfold cmd_args. induction 1 as [|v cmd [s0 ->] _ [argv IH]]; simpl.
  - by eexists.
  - rewrite IH. simpl. by eexists.
Qed.

Lemma subnet_of_item_safe subnets item :
  Forall (λ sn : json * string, ∃ s, sn.1 = JStr s) subnets →
  string_valued item →
  (∃ subnets', subnet_of_item subnets item = Ok subnets' ∧
               Forall (λ sn : json * string, ∃ s, sn.1 = JStr s) subnets') ∨
  subnet_of_item subnets item = Raise ValueError.
Proof.
  intros Hsubs Hitem. unfold subnet_of_item, dict_contains, dict_getitem.
  destruct (item !! "name") as [n|] eqn:Hn; simpl; [|by right].
  destruct (item !! "region") as [r|] eqn:Hr; simpl; [|by right].
  destruct (Hitem _ _ Hn) as [n0 ->]. destruct (Hitem _ _ Hr) as [r0 ->]. simpl.
  destruct (_ || _); [by right|]. left. eexists. split; [reflexivity|].
  apply Forall_app. split; [done|]. constructor; [by eexists|constructor].
Qed.

Lemma range_name_safe ranges ip_range :
  Forall (λ v, ∃ s, v = JStr s) ranges →
  string_valued ip_range →
  (∃ ranges', range_name ranges ip_range = Ok ranges' ∧
              Forall (λ v, ∃ s, v = JStr s) ranges') ∨
  range_name ranges ip_range = Raise ValueError.
Proof.
  intros Hranges Hitem. unfold range_name, dict_contains, dict_getitem.
  destruct (ip_range !! "rangeName") as [v|] eqn:Hv; simpl; [|by right].
  destruct (Hitem _ _ Hv) as [v0 ->]. left. eexists. split; [reflexivity|].
  apply Forall_app. split; [done|]. constructor; [by eexists|constructor].
Qed.

Lemma clean_subnet_safe `{Gcloud} project n region s :
  (∀ env cmd ip_ranges secondary,
     gcloud_describe env cmd = Some ip_ranges →
     ip_ranges !! "secondaryIpRanges" = Some secondary →
     Forall string_valued secondary) →
  ∃ s' r, clean_subnet project (JStr n, region) s = (s', r) ∧
          (r = Ok () ∨ r = Raise ValueError).
Proof.
  intros Hdesc. unfold clean_subnet.
  unfold bind at 1, lift at 1.
  match goal with
  | |- context [cmd_args ?c] =>
      destruct (cmd_args_strings c) as [argv ->]
  end.
  { rewrite Forall_app. split; [|constructor; [by eexists|constructor]].
    apply Forall_fmap, Forall_true. intros x. by eexists. }
  unfold bind at 1, check_output_describe at 1. cbn [environ].
  destruct (gcloud_describe (environ s) argv) as [ip_ranges|] eqn:Hd;
    [|eexists _, _; split; [reflexivity|by left]].
  destruct (ip_ranges !! "secondaryIpRanges") as [secondary|] eqn:Hsec;
    [|eexists _, _; split; [reflexivity|by left]].
  unfold bind at 1.
  match goal with
  | |- context [for_each secondary ?b [] ?st] =>
      destruct (for_each_lift_safe (λ ranges, Forall (λ v, ∃ s, v = JStr s) ranges)
                  string_valued range_name secondary [] st)
        as [(ranges & -> & Hranges)| ->]
  end.
  - by eapply Hdesc.
  - constructor.
  - intros acc x Hacc Hx. by apply range_name_safe.
  - unfold bind at 1, lift at 1, join_comma.
    destruct (cmd_args_strings ranges Hranges) as [strs ->]. simpl.
    unfold bind, lift, check_call, ret. simpl.
    eexists _, _. split; [reflexivity|by left].
  - eexists _, _. split; [reflexivity|by right].
Qed.

Lemma clean_subnets_safe `{Gcloud} project subnets s :
  (∀ env cmd ip_ranges secondary,
     gcloud_describe env cmd = Some ip_ranges →
     ip_ranges !! "secondaryIpRanges" = Some secondary →
     Forall string_valued secondary) →
  Forall (λ sn : json * string, ∃ s, sn.1 = JStr s) subnets →
  ∃ s' r, for_each subnets (λ _ subnet, clean_subnet project subnet) () s = (s', r) ∧
          (r = Ok () ∨ r = Raise ValueError).
Proof.
  intros Hdesc Hsubs. revert s.
  induction Hsubs as [|[n region] subnets [n0 Hn] _ IH]; intros s.
  - exists s, (Ok ()). by split; [|left].
  - simpl in Hn. subst n. rewrite for_each_cons.
    destruct (clean_subnet_safe project n0 region s Hdesc) as (s1 & r & -> & [->| ->]).
    + apply IH.
    + exists s1, (Raise ValueError). by split; [|right].
Qed.

(** Once the subnet listing has answered, with fields that are strings
    here and in the descriptions, nothing in the subnet cleaner can end
    the run: a describe or update call that exits non-zero is passed over,
    a missing field raises [ValueError], and the driver's step returns. *)
Theorem subnet_cleaner_contained `{Gcloud} project age filt s output :
  gcloud_list (environ s) (subnets_cmd project filt) = Some output →
  Forall string_valued output →
  (∀ env cmd ip_ranges secondary,
     gcloud_describe env cmd = Some ip_ranges →
     ip_ranges !! "secondaryIpRanges" = Some secondary →
     Forall string_valued secondary) →
  ∃ s', try_clean_secondary_ip_ranges project age filt s = (s', Ok ()).
Proof.
  intros Hlist Hout Hdesc.
  unfold try_clean_secondary_ip_ranges, try_except, clean_secondary_ip_ranges.
  unfold bind at 1, check_output_list at 1. cbn [environ]. rewrite Hlist.
  unfold bind at 1.
  match goal with
  | |- context [for_each output ?b [] ?st] =>
      destruct (for_each_lift_safe
                  (λ subs, Forall (λ sn : json * string, ∃ s, sn.1 = JStr s) subs)
                  string_valued subnet_of_item output [] st)
        as [(subs & -> & Hsubs)| ->]
  end.
  - done.
  - constructor.
  - intros acc x Hacc Hx. by apply subnet_of_item_safe.
  - match goal with
    | |- context [for_each subs ?b () ?st] =>
        destruct (clean_subnets_safe project subs st Hdesc Hsubs)
          as (s1 & r & -> & [->| ->])
    end.
    + by exists s1.
    + simpl. unfold emit. by eexists.
  - simpl. unfold emit. by eexists.
Qed.

Lemma subnet_cleaner_contained_witness :
  ∃ s', try_clean_secondary_ip_ranges (H := gcloud_one_subnet)
          "p" 1735689600 "name !~ ^default" initial_state = (s', Ok ()).
Proof.
  apply (subnet_cleaner_contained (H := gcloud_one_subnet)
           "p" 1735689600 "name !~ ^default" initial_state
           [item_of [("name", JStr "s1");
                     ("region", JStr "https://www.googleapis.com/compute/v1/projects/p/regions/us-central1")]]).
  - reflexivity.
  - apply Forall_cons. split; [|constructor].
    apply string_valued_item_of. repeat constructor; by eexists.
  - intros env cmd ip_ranges secondary [= <-] Hsec.
    rewrite lookup_singleton_eq in Hsec. injection Hsec as <-.
    apply Forall_cons. split.
    { apply string_valued_insert, string_valued_empty. }
    apply Forall_cons. split; [|constructor].
    apply string_valued_insert, string_valued_empty.
Defined.

(** The run of that witness: list, describe, then one update that names
    both ranges; its failure is passed over. *)
Example subnet_cleaner_run :
  let r := try_clean_secondary_ip_ranges (H := gcloud_one_subnet)
             "p" 1735689600 "name !~ ^default" initial_state in
  r.2 = Ok () ∧
  commands (trace r.1) =
    [subnets_cmd "p" "name !~ ^default";
     ["gcloud"; "compute"; "networks"; "subnets"; "describe"; "--project=p";
      "--region=us-central1"; "--format=json(secondaryIpRanges)"; "s1"];
     ["gcloud"; "compute"; "networks"; "subnets"; "update"; "--project=p";
      "--region=us-central1"; "--remove-secondary-ranges=pods,services"; "s1"]].
Proof. vm_compute. split; reflexivity. Qed.

(** ** No failure without a line on stderr *)

Lemma tame_ret {A} (a : A) : tame (ret a).
Proof. intros s. split; [done|]. by intros c. Qed.

Lemma tame_raise {A} (e : exn) : (∀ c, e ≠ SystemExit c) → tame (raise (A := A) e).
Proof. intros He s. split; [done|]. intros c [= ->]. by eapply He. Qed.

Lemma tame_lift {A} (r : result A) : no_exit r → tame (lift r).
Proof. intros Hr s. by split. Qed.

Lemma no_exit_Raise {A B} (e : exn) : no_exit (@Raise A e) → no_exit (@Raise B e).
Proof. intros He c [= ->]. by eapply He. Qed.

Lemma tame_bind {A B} (m : M A) (f : A → M B) :
  tame m → (∀ a, tame (f a)) → tame (bind m f).
Proof.
  intros Hm Hf s. unfold bind. destruct (Hm s) as [Hle Hne].
  destruct (m s) as [s1 [a|e]]; cbn [fst snd] in *;
    [|split; [done|by eapply no_exit_Raise]].
  destruct (Hf a s1) as [Hle' Hne']. split; [lia|done].
Qed.

Lemma tame_for_each {A S} (l : list A) (body : S → A → M S) (acc : S) :
  (∀ acc x, tame (body acc x)) → tame (for_each l body acc).
Proof.
  intros Hbody. revert acc. induction l as [|x l IH]; intros acc; simpl.
  - apply tame_ret.
  - apply tame_bind; [apply Hbody|]. intros acc'. apply IH.
Qed.

Lemma tame_try_except {A} (m : M A) catches (h : exn → M A) :
  tame m → (∀ e, tame (h e)) → tame (try_except m catches h).
Proof.
  intros Hm Hh s. unfold try_except. destruct (Hm s) as [Hle Hne].
  destruct (m s) as [s1 [a|e]]; cbn [fst snd] in *; [by split|].
  destruct (catches e); [|by split].
  destruct (Hh e s1) as [Hle' Hne']. split; [lia|done].
Qed.

Lemma printed_snoc s e :
  printed {| environ := environ s; trace := trace s ++ [e] |} =
  (printed s + match e with EvStderr _ => 1 | _ => 0 end)%nat.
Proof.
  unfold printed. simpl. rewrite stderr_lines_app, length_app.
  by destruct e.
Qed.

Lemma tame_emit (e : event) : tame (emit e).
Proof.
  intros s. split; [|by intros c]. unfold emit. simpl.
  rewrite printed_snoc. lia.
Qed.

Lemma tame_setenv k v : tame (setenv k v).
Proof.
  intros s. split; [|by intros c]. unfold setenv, printed. simpl.
  rewrite stderr_lines_app, length_app. lia.
Qed.

Lemma tame_quiet {A} (m : M A) : quiet m → (∀ s, no_exit (m s).2) → tame m.
Proof.
  intros Hq Hne s. split; [|apply Hne].
  destruct (Hq s) as [_ (evs & Htr & _)]. unfold printed.
  rewrite Htr, stderr_lines_app, length_app. lia.
Qed.

Lemma tame_check_call `{Gcloud} cmd : tame (check_call cmd).
Proof. apply tame_quiet; [apply quiet_check_call|]. by intros s c. Qed.

Lemma tame_check_output_list `{Gcloud} cmd : tame (check_output_list cmd).
Proof. apply tame_quiet; [apply quiet_check_output_list|]. by intros s c. Qed.

Lemma tame_check_output_describe `{Gcloud} cmd : tame (check_output_describe cmd).
Proof.
  intros s. split; [|by intros c]. unfold check_output_describe. simpl.
  rewrite printed_snoc. lia.
Qed.

Lemma tame_check_output_services `{Gcloud} cmd : tame (check_output_services cmd).
Proof.
  intros s. unfold check_output_services. simpl. split.
  - rewrite printed_snoc. lia.
  - intros c. by destruct (gcloud_services _ _).
Qed.

Lemma no_exit_bind {A B} (r : result A) (f : A → result B) :
  no_exit r → (∀ a, no_exit (f a)) → no_exit (r ≫= f).
Proof.
  intros Hr Hf. destruct r as [a|e]; simpl; [apply Hf|by eapply no_exit_Raise].
Qed.

Lemma no_exit_Ok {A} (a : A) : no_exit (Ok a).
Proof. by intros c. Qed.

Lemma no_exit_dict_getitem d k : no_exit (dict_getitem d k).
Proof. intros c. unfold dict_getitem. by destruct (d !! k). Qed.

Lemma no_exit_cmd_args cmd : no_exit (cmd_args cmd).
Proof.
  unfold cmd_args. induction cmd as [|v cmd IH]; simpl; [by intros c|].
  apply no_exit_bind; [by destruct v; intros c|]. intros s.
  apply no_exit_bind; [exact IH|]. intros l c. done.
Qed.

Lemma no_exit_json_strptime `{Datetime} v : no_exit (json_strptime v).
Proof. intros c. destruct v; simpl; try done. by destruct (strptime s). Qed.

Lemma no_exit_cluster_created `{Datetime} item : no_exit (cluster_created item).
Proof.
  unfold cluster_created. destruct (_ || _); [by intros c|].
  destruct (negb _); [by intros c|].
  apply no_exit_bind; [apply no_exit_dict_getitem|]. intros v.
  destruct v; try (by intros c). apply no_exit_json_strptime.
Qed.

Lemma no_exit_json_split_last v sep : no_exit (json_split_last v sep).
Proof. intros c. by destruct v. Qed.

Lemma no_exit_subnet_of_item subnets item : no_exit (subnet_of_item subnets item).
Proof.
  unfold subnet_of_item. destruct (negb _); [by intros c|].
  destruct (negb _); [by intros c|].
  apply no_exit_bind; [apply no_exit_dict_getitem|]. intros n.
  apply no_exit_bind; [apply no_exit_dict_getitem|]. intros r.
  apply no_exit_bind; [apply no_exit_json_split_last|]. intros region.
  destruct (_ || _); by intros c.
Qed.

Lemma no_exit_range_name ranges ip_range : no_exit (range_name ranges ip_range).
Proof.
  unfold range_name. destruct (negb _); [by intros c|].
  apply no_exit_bind; [apply no_exit_dict_getitem|]. by intros v c.
Qed.

Lemma no_exit_join_comma ranges : no_exit (join_comma ranges).
Proof.
  unfold join_comma. apply no_exit_bind; [apply no_exit_cmd_args|]. by intros l c.
Qed.

Lemma no_exit_collect_item `{Datetime} age resource clear_all col item :
  no_exit (collect_item age resource clear_all col item).
Proof.
  intros c Hc.
  destruct (collect_item_raises _ _ _ _ _ _ Hc) as [?|[?|[?|[? _]]]]; done.
Qed.

Lemma no_exit_delete_base project resource : no_exit (delete_base project resource).
Proof. intros c Hc. by destruct (delete_base_raises _ _ _ Hc) as [? _]. Qed.

Lemma no_exit_chunks {A} (items : list A) k : no_exit (chunks items k).
Proof. intros c Hc. by destruct (chunks_raises _ _ _ Hc) as [? _]. Qed.

Lemma tame_asyncCall `{Gcloud, Args} cmd tol nm errs hide :
  tame (asyncCall cmd tol nm errs hide).
Proof.
  apply tame_quiet; [apply quiet_asyncCall|]. intros s c.
  destruct (asyncCall_returns cmd tol nm errs hide s) as [errs' ->]. done.
Qed.

Lemma tame_collect `{Datetime, Gcloud} project zones age resource filt clear_all :
  tame (collect project zones age resource filt clear_all).
Proof.
  unfold collect.
  destruct (String.eqb (name resource) "sinks" && negb clear_all); [apply tame_ret|].
  apply tame_bind; [apply tame_check_output_list|]. intros [items|].
  - apply tame_for_each. intros. apply tame_lift, no_exit_collect_item.
  - destruct (tolerate resource); [apply tame_ret|by apply tame_raise].
Qed.

Lemma tame_clear_resources `{Gcloud, Args} project cols resource rate_limit :
  tame (clear_resources project cols resource rate_limit).
Proof.
  unfold clear_resources.
  apply tame_bind; [|intros; apply tame_ret].
  apply tame_for_each. intros errs [col items].
  apply tame_bind; [apply tame_lift, no_exit_delete_base|]. intros base.
  apply tame_bind; [apply tame_lift, no_exit_chunks|]. intros batches.
  apply tame_for_each. intros. apply tame_asyncCall.
Qed.

Lemma tame_clean_resource `{Datetime, Gcloud, Args}
    api project zones age filt clear_all rate_limit err res :
  tame (clean_resource api project zones age filt clear_all rate_limit err res).
Proof.
  unfold clean_resource. apply tame_bind; [apply tame_emit|]. intros _.
  apply tame_try_except.
  - unfold collect_and_clear. apply tame_bind; [apply tame_collect|].
    intros [|? ?]; [apply tame_ret|].
    apply tame_bind; [apply tame_clear_resources|]. intros; apply tame_ret.
  - intros e. apply tame_bind; [apply tame_emit|]. intros; apply tame_ret.
Qed.

Lemma tame_clean_api `{Datetime, Gcloud, Args}
    project zones age filt clear_all rate_limit err entry :
  tame (clean_api project zones age filt clear_all rate_limit err entry).
Proof.
  destruct entry as [api resources]. unfold clean_api.
  apply tame_bind.
  { unfold api_enabled. apply tame_bind; [apply tame_check_output_services|].
    intros st. destruct (String.eqb st ""); [apply tame_ret|].
    destruct (String.eqb st "ENABLED"); apply tame_ret. }
  intros enabled. destruct (negb enabled); [apply tame_ret|].
  apply tame_bind.
  { destruct (in_strs api gkehub_apis); [apply tame_setenv|apply tame_ret]. }
  intros _. apply tame_for_each. intros. apply tame_clean_resource.
Qed.

Lemma tame_sweep_cluster `{Datetime, Gcloud, Args} project age errs item :
  tame (sweep_cluster project age errs item).
Proof.
  unfold sweep_cluster.
  apply tame_bind; [apply tame_lift, no_exit_cluster_created|]. intros created.
  case_bool_decide; [|apply tame_ret].
  apply tame_bind; [apply tame_lift, no_exit_dict_getitem|]. intros n.
  apply tame_asyncCall.
Qed.

Lemma tame_sweep_endpoint `{Datetime, Gcloud, Args} project age filt errs endpoint :
  tame (sweep_endpoint project age filt errs endpoint).
Proof.
  unfold sweep_endpoint. apply tame_bind; [apply tame_setenv|]. intros _.
  apply tame_bind; [apply tame_check_output_list|]. intros [output|].
  - apply tame_for_each. intros. apply tame_sweep_cluster.
  - apply tame_ret.
Qed.

Lemma tame_try_clean_gke_cluster `{Datetime, Gcloud, Args} project age filt err :
  tame (try_clean_gke_cluster project age filt err).
Proof.
  unfold try_clean_gke_cluster. apply tame_try_except.
  - apply tame_bind; [|intros; apply tame_ret].
    unfold clean_gke_cluster. apply tame_bind; [|intros; apply tame_ret].
    apply tame_for_each. intros. apply tame_sweep_endpoint.
  - intros e. apply tame_bind; [apply tame_emit|]. intros; apply tame_ret.
Qed.

Lemma tame_clean_subnet `{Gcloud} project subnet : tame (clean_subnet project subnet).
Proof.
  destruct subnet as [subnet_name subnet_region]. unfold clean_subnet.
  apply tame_bind; [apply tame_lift, no_exit_cmd_args|]. intros cmd.
  apply tame_bind; [apply tame_check_output_describe|]. intros [ip_ranges|];
    [|apply tame_ret].
  destruct (ip_ranges !! "secondaryIpRanges") as [secondary|]; [|apply tame_ret].
  apply tame_bind.
  { apply tame_for_each. intros. apply tame_lift, no_exit_range_name. }
  intros ranges. apply tame_bind; [apply tame_lift, no_exit_join_comma|].
  intros joined. apply tame_bind; [apply tame_lift, no_exit_cmd_args|].
  intros cmd2. apply tame_bind; [apply tame_check_call|]. intros; apply tame_ret.
Qed.

Lemma tame_try_clean_secondary_ip_ranges `{Gcloud} project age filt :
  tame (try_clean_secondary_ip_ranges project age filt).
Proof.
  unfold try_clean_secondary_ip_ranges. apply tame_try_except.
  - unfold clean_secondary_ip_ranges.
    apply tame_bind; [apply tame_check_output_list|]. intros [output|];
      [|by apply tame_raise].
    apply tame_bind.
    { apply tame_for_each. intros. apply tame_lift, no_exit_subnet_of_item. }
    intros subnets. apply tame_for_each. intros. apply tame_clean_subnet.
  - intros e. apply tame_emit.
Qed.

Lemma for_each_invariant_state {A S} (I : S → state → Prop) (l : list A)
    (body : S → A → M S) :
  (∀ acc x s s' acc', I acc s → body acc x s = (s', Ok acc') → I acc' s') →
  ∀ acc s s' acc', I acc s → for_each l body acc s = (s', Ok acc') → I acc' s'.
Proof.
  intros Hbody. induction l as [|x l IH]; intros acc s s' acc' Hacc Hrun.
  - simpl in Hrun. unfold ret in Hrun. by simplify_eq.
  - rewrite for_each_cons in Hrun.
    destruct (body acc x s) as [s1 [acc1|e]] eqn:Hx; [|done].
    eapply IH; [|exact Hrun]. eapply Hbody; eauto.
Qed.

Lemma asyncCall_reports `{Gcloud, Args} cmd tol nm errs hide s s' errs' :
  asyncCall cmd tol nm errs hide s = (s', Ok errs') →
  (length errs' + printed s ≤ length errs + printed s')%nat.
Proof.
  unfold asyncCall. destruct dryrun.
  { intros [= <- <-]. lia. }
  destruct (cmd_args cmd) as [argv|e]; [|intros [= <- <-]; lia].
  unfold bind, check_call, emit, ret. simpl.
  destruct (gcloud_call (environ s) argv); intros [= <- <-].
  - rewrite printed_snoc. lia.
  - pose proof (printed_snoc
      {| environ := environ s; trace := trace s ++ [EvRun argv] |}
      (EvStderr ("Error try to delete resources " +:+ nm))) as Hp.
    simpl in Hp. rewrite Hp, printed_snoc.
    destruct tol; simpl; rewrite ?length_app; simpl; lia.
Qed.

Lemma clear_resources_reports `{Gcloud, Args} project cols resource rate_limit s s' n :
  clear_resources project cols resource rate_limit s = (s', Ok n) →
  n ≠ 0 → (printed s < printed s')%nat.
Proof.
  unfold clear_resources. unfold bind at 1.
  set (body := λ (errs : list exn) '(col, items), _).
  destruct (for_each cols body [] s) as [s1 [errs|e]] eqn:Hloop; [|done].
  unfold ret. intros [= <- <-] Hn.
  assert (Hinv : (length errs + printed s ≤ printed s1)%nat).
  { revert Hloop.
    apply (for_each_invariant_state
             (λ errs st, (length errs + printed s ≤ printed st)%nat));
      [|simpl; lia].
    intros acc [col items] st st' acc' Hacc. unfold body.
    unfold bind at 1, lift at 1.
    destruct (delete_base project resource) as [base|e]; [|done].
    unfold bind at 1, lift at 1.
    destruct (chunks items _) as [batches|e]; [|done].
    apply (for_each_invariant_state
             (λ errs st, (length errs + printed s ≤ printed st)%nat)); [|done].
    intros acc0 clean st0 st0' acc0' Hacc0 Hcall.
    apply asyncCall_reports in Hcall. lia. }
  destruct errs; simpl in *; [done|lia].
Qed.

Lemma sweep_reports `{Datetime, Gcloud, Args} project age filt s s' :
  clean_gke_cluster project age filt s = (s', Ok true) →
  (printed s < printed s')%nat.
Proof.
  unfold clean_gke_cluster. unfold bind at 1.
  destruct (for_each endpoints _ [] s) as [s1 [errs|e]] eqn:Hloop; [|done].
  unfold ret. intros [= <- Hb]. apply bool_decide_eq_true in Hb.
  assert (Hinv : (length errs + printed s ≤ printed s1)%nat); [|lia].
  revert Hloop.
  apply (for_each_invariant_state
           (λ errs st, (length errs + printed s ≤ printed st)%nat));
    [|simpl; lia].
  intros acc endpoint st st' acc' Hacc. rewrite sweep_endpoint_unfold.
  assert (Hl : printed (listed project filt endpoint st) = printed st).
  { unfold listed, printed. simpl. rewrite !stderr_lines_app, !length_app. simpl. lia. }
  destruct (gcloud_list _ _) as [output|]; [|intros [= <- <-]; lia].
  apply (for_each_invariant_state
           (λ errs st, (length errs + printed s ≤ printed st)%nat)); [|lia].
  intros acc0 item st0 st0' acc0' Hacc0. unfold sweep_cluster.
  unfold bind at 1, lift at 1.
  destruct (cluster_created item) as [created|e]; [|done].
  case_bool_decide; [|by intros [= <- <-]].
  unfold bind at 1, lift at 1.
  destruct (dict_getitem item "name") as [nm|e]; [|done].
  intros Hcall%asyncCall_reports. lia.
Qed.

Lemma lor_nonzero (a b : Z) : Z.lor a b ≠ 0 → a ≠ 0 ∨ b ≠ 0.
Proof.
  intros Hne. destruct (Z.eq_dec a 0) as [->|]; [|by left].
  right. by rewrite Z.lor_0_l in Hne.
Qed.

Lemma try_clean_gke_cluster_reports `{Datetime, Gcloud, Args}
    project age filt err s s' err' :
  try_clean_gke_cluster project age filt err s = (s', Ok err') →
  err' ≠ 0 → err ≠ 0 ∨ (printed s < printed s')%nat.
Proof.
  unfold try_clean_gke_cluster, try_except. unfold bind at 1.
  pose proof (sweep_reports project age filt s) as Hrep.
  assert (Htame : tame (clean_gke_cluster project age filt)).
  { unfold clean_gke_cluster. apply tame_bind; [|intros; apply tame_ret].
    apply tame_for_each. intros. apply tame_sweep_endpoint. }
  destruct (Htame s) as [Hle _].
  destruct (clean_gke_cluster project age filt s) as [s1 [[|]|e]]; simpl in *.
  - unfold ret. intros [= <- <-] _. right. by apply Hrep.
  - unfold ret. intros [= <- <-] Hne. left. by rewrite Z.lor_0_r in Hne.
  - destruct (is_ValueError e); [|done].
    unfold bind, emit, ret. simpl. intros [= <- <-] _. right.
    rewrite printed_snoc. lia.
Qed.

Lemma clean_resource_reports `{Datetime, Gcloud, Args}
    api project zones age filt clear_all rate_limit err res s s' err' :
  clean_resource api project zones age filt clear_all rate_limit err res s
    = (s', Ok err') →
  err' ≠ 0 → err ≠ 0 ∨ (printed s < printed s')%nat.
Proof.
  unfold clean_resource, try_except. unfold bind at 1, emit at 1.
  set (s1 := {| environ := environ s; trace := trace s ++ [EvSearch api res] |}).
  assert (Hs1 : printed s1 = printed s).
  { unfold s1. rewrite printed_snoc. lia. }
  unfold collect_and_clear. unfold bind at 1.
  destruct (tame_collect project zones age res filt clear_all s1) as [Hle _].
  destruct (collect project zones age res filt clear_all s1) as [s2 [col|e]];
    cbn [fst] in Hle.
  - destruct col as [|g col].
    + unfold ret. intros [= <- <-] Hne. by left.
    + unfold bind at 1.
      pose proof (clear_resources_reports project (g :: col) res rate_limit s2) as Hrep.
      destruct (tame_clear_resources project (g :: col) res rate_limit s2) as [Hle2 _].
      destruct (clear_resources project (g :: col) res rate_limit s2)
        as [s3 [n|e]]; cbn [fst] in Hle2.
      * unfold ret. intros [= <- <-] Hne.
        destruct (lor_nonzero _ _ Hne) as [?|Hn]; [by left|]. right.
        specialize (Hrep s3 n eq_refl Hn). lia.
      * destruct (is_list_failure e); [|done].
        unfold bind, emit, ret. simpl. intros [= <- <-] _. right.
        rewrite printed_snoc. lia.
  - destruct (is_list_failure e); [|done].
    unfold bind, emit, ret. simpl. intros [= <- <-] _. right.
    rewrite printed_snoc. lia.
Qed.

Lemma for_each_reports {A} (l : list A) (body : Z → A → M Z) :
  (∀ err x, tame (body err x)) →
  (∀ err x s s' err', body err x s = (s', Ok err') →
     err' ≠ 0 → err ≠ 0 ∨ (printed s < printed s')%nat) →
  ∀ err s s' err', for_each l body err s = (s', Ok err') →
    err' ≠ 0 → err ≠ 0 ∨ (printed s < printed s')%nat.
Proof.
  intros Htame Hbody. induction l as [|x l IH]; intros err s s' err' Hrun Hne.
  - simpl in Hrun. unfold ret in Hrun. simplify_eq. by left.
  - rewrite for_each_cons in Hrun.
    destruct (Htame err x s) as [Hle _].
    destruct (body err x s) as [s1 [err1|e]] eqn:Hx; [|done]. cbn [fst] in Hle.
    destruct (tame_for_each l body err1 Htame s1) as [Hle' _].
    rewrite Hrun in Hle'. cbn [fst] in Hle'.
    destruct (IH err1 s1 s' err' Hrun Hne) as [Hne1|Hlt]; [|right; lia].
    destruct (Hbody err x s s1 err1 Hx Hne1) as [?|Hlt]; [by left|right; lia].
Qed.

Lemma clean_api_reports `{Datetime, Gcloud, Args}
    project zones age filt clear_all rate_limit err entry s s' err' :
  clean_api project zones age filt clear_all rate_limit err entry s = (s', Ok err') →
  err' ≠ 0 → err ≠ 0 ∨ (printed s < printed s')%nat.
Proof.
  destruct entry as [api resources]. unfold clean_api. unfold bind at 1.
  assert (Htame : tame (api_enabled project api)).
  { unfold api_enabled. apply tame_bind; [apply tame_check_output_services|].
    intros st. destruct (String.eqb st ""); [apply tame_ret|].
    destruct (String.eqb st "ENABLED"); apply tame_ret. }
  destruct (Htame s) as [Hle _].
  destruct (api_enabled project api s) as [s1 [enabled|e]]; cbn [fst] in Hle; [|done].
  destruct enabled; cbn [negb].
  - unfold bind at 1.
    assert (Hpre : ∃ s2, (if in_strs api gkehub_apis
                          then setenv GKEHUB_OVERRIDE ("https://" +:+ api +:+ "/")
                          else ret ()) s1 = (s2, Ok ()) ∧ printed s2 = printed s1).
    { destruct (in_strs api gkehub_apis).
      - eexists. split; [reflexivity|]. unfold printed. simpl.
        rewrite stderr_lines_app, length_app. simpl. lia.
      - by exists s1. }
    destruct Hpre as (s2 & -> & Hs2).
    intros Hrun Hne.
    destruct (for_each_reports resources
                (clean_resource api project zones age filt clear_all rate_limit)
                (λ err x, tame_clean_resource api project zones age filt clear_all
                            rate_limit err x)
                (λ err x s s' err', clean_resource_reports api project zones age filt
                                      clear_all rate_limit err x s s' err')
                err s2 s' err' Hrun Hne) as [?|?]; [by left|right; lia].
  - unfold ret. intros [= <- <-] Hne. by left.
Qed.

(** The two optional first steps of [main] have one shape: run a step, OR its
    result into [err], and on a non-zero [err] print a line and exit. *)
Lemma preamble_reports (m : M Z) (msg : string) (err : Z) s s' r :
  tame m →
  (r0 <- m ;;
   let err := Z.lor err r0 in
   if negb (err =? 0) then emit (EvStderr msg) ;; raise (SystemExit err)
   else ret err) s = (s', r) →
  (printed s ≤ printed s')%nat ∧ (∀ v, r = Ok v → v = 0) ∧
  (∀ c, r = Raise (SystemExit c) → (printed s < printed s')%nat).
Proof.
  intros Hm. unfold bind at 1. destruct (Hm s) as [Hle Hne].
  destruct (m s) as [s1 [r0|e]]; cbn [fst snd] in *.
  - cbn zeta. destruct (Z.eqb_spec (Z.lor err r0) 0) as [Hz|Hz]; cbn [negb].
    + unfold ret. intros [= <- <-]. split; [done|]. split; [by intros v [= <-]|done].
    + unfold bind, emit, raise. intros [= <- <-]. rewrite printed_snoc.
      split; [lia|]. split; [done|]. intros _ _. lia.
  - intros [= <- <-]. split; [done|]. split; [done|].
    intros c [= ->]. by destruct (Hne c).
Qed.

Lemma tame_activate_service_account `{Gcloud} service_account :
  tame (activate_service_account service_account).
Proof.
  unfold activate_service_account. apply tame_bind; [apply tame_check_call|].
  intros [|]; [apply tame_ret|].
  apply tame_bind; [apply tame_emit|]. intros _. apply tame_ret.
Qed.

Lemma tame_set_quota_project project : tame (set_quota_project project).
Proof.
  unfold set_quota_project. apply tame_bind; [apply tame_setenv|].
  intros _. apply tame_ret.
Qed.

(** A run that ends with a non-zero argument of [sys.exit] has written
    at least one line to standard error: no failure is counted silently. *)
Theorem no_silent_failure `{Datetime, Gcloud, Args} catalog project days hours filt
    rate_limit service_account additional_zones set_as_quota_project s s' code :
  main catalog project days hours filt rate_limit service_account additional_zones
       set_as_quota_project s = (s', Raise (SystemExit code)) →
  code ≠ 0 →
  (printed s < printed s')%nat.
Proof.
  unfold main. cbn zeta. unfold bind at 1.
  set (pre1 := if str_truthy service_account then _ else _).
  assert (Hpre1 : ∀ s1 r, pre1 s = (s1, r) →
            (printed s ≤ printed s1)%nat ∧ (∀ v, r = Ok v → v = 0) ∧
            (∀ c, r = Raise (SystemExit c) → (printed s < printed s1)%nat)).
  { intros s1 r. unfold pre1. destruct (str_truthy service_account).
    - apply preamble_reports, tame_activate_service_account.
    - unfold ret. intros [= <- <-]. split; [done|]. split; [by intros v [= <-]|done]. }
  destruct (pre1 s) as [s1 r1] eqn:Hr1.
  destruct (Hpre1 s1 r1 eq_refl) as (Hle1 & Hv1 & Hx1). clear Hpre1 Hr1.
  destruct r1 as [v1|e1]; [|intros [= <- ->] _; by apply (Hx1 code)].
  rewrite (Hv1 v1 eq_refl). clear Hv1 Hx1 v1.
  unfold bind at 1.
  set (pre2 := if set_as_quota_project then _ else _).
  assert (Hpre2 : ∀ s2 r, pre2 s1 = (s2, r) →
            (printed s1 ≤ printed s2)%nat ∧ (∀ v, r = Ok v → v = 0) ∧
            (∀ c, r = Raise (SystemExit c) → (printed s1 < printed s2)%nat)).
  { intros s2 r. unfold pre2. destruct set_as_quota_project.
    - apply preamble_reports, tame_set_quota_project.
    - unfold ret. intros [= <- <-]. split; [done|]. split; [by intros v [= <-]|done]. }
  destruct (pre2 s1) as [s2 r2] eqn:Hr2.
  destruct (Hpre2 s2 r2 eq_refl) as (Hle2 & Hv2 & Hx2). clear Hpre2 Hr2.
  destruct r2 as [v2|e2];
    [|intros [= <- ->] _; specialize (Hx2 code eq_refl); lia].
  rewrite (Hv2 v2 eq_refl). clear Hv2 Hx2 v2.
  unfold bind at 1.
  destruct (tame_try_clean_secondary_ip_ranges project
              (utcnow - timedelta days hours) filt s2) as [Hle3 Hne3].
  destruct (try_clean_secondary_ip_ranges _ _ _ s2) as [s3 [[]|e3]];
    cbn [fst snd] in *; [|intros [= <- ->] _; by destruct (Hne3 code)].
  clear Hne3. unfold bind at 1.
  pose proof (try_clean_gke_cluster_reports project
                (utcnow - timedelta days hours) filt 0 s3) as Hrep4.
  destruct (tame_try_clean_gke_cluster project
              (utcnow - timedelta days hours) filt 0 s3) as [Hle4 Hne4].
  destruct (try_clean_gke_cluster _ _ _ 0 s3) as [s4 [err4|e4]];
    cbn [fst snd] in *; [|intros [= <- ->] _; by destruct (Hne4 code)].
  clear Hne4. specialize (Hrep4 s4 err4 eq_refl). unfold bind at 1.
  set (body := clean_api _ _ _ _ _ _).
  pose proof (for_each_reports catalog body
                (λ err x, tame_clean_api _ _ _ _ _ _ err x)
                (λ err x s s' err', clean_api_reports _ _ _ _ _ _ err x s s' err')
                err4 s4) as Hrep5.
  destruct (tame_for_each catalog body err4
              (λ err x, tame_clean_api _ _ _ _ _ _ err x) s4) as [Hle5 Hne5].
  destruct (for_each catalog body err4 s4) as [s5 [err5|e5]];
    cbn [fst snd] in *; [|intros [= <- ->] _; by destruct (Hne5 code)].
  unfold raise. intros [= <- <-] Hcode.
  destruct (Hrep5 s5 err5 eq_refl Hcode) as [Hne|Hlt]; [|lia].
  destruct (Hrep4 Hne) as [?|?]; [done|lia].
Qed.

Lemma no_silent_failure_witness :
  (printed initial_state <
   printed (run (H := clock_2025) (H0 := gcloud_instances_unlistable) (H1 := no_dryrun)
              small_catalog "p" 1 0 "name !~ ^default" 50 None [] false).1)%nat.
Proof.
  apply (no_silent_failure (H := clock_2025) (H0 := gcloud_instances_unlistable)
           (H1 := no_dryrun) small_catalog "p" 1 0 "name !~ ^default" 50 None []
           false initial_state _ 1); [|discriminate].
  unfold run. vm_compute. reflexivity.
Defined.
